(** * Rich-text editor component: the bridge adapter of [src/index.js]

    The component wires a Quill editor to the PandaSuite bridge.  Its
    module state is three variables ([quill], [properties],
    [shouldForceFocus]) and one object ([validationState]); everything it
    does is a reaction to an event: a bridge message, a browser event, a
    callback of the editor or a timer.

    The embedding is a state, writer and exception monad: a handler maps
    the module state to an outcome (a normal return or a thrown
    [TypeError]), the new module state and the list of effects it had on
    the outside world, in the order they happened.  Quill and lodash are
    libraries the repository only calls; they are taken as interfaces
    ([QuillLib], [Lodash]). *)

From Stdlib Require Import String Ascii List ZArith Bool Arith Lia.
Import ListNotations.
Open Scope string_scope.
Open Scope list_scope.

Set Implicit Arguments.
Set Warnings "-register-all".

(** ** JavaScript values

    The values that cross the bridge are JSON-like.  Numbers are integers
    here (no fractional part, no NaN); strings are sequences of code units
    below 256.  An array may carry named properties besides its elements,
    as any JavaScript object may. *)

Inductive value : Type :=
| VUndefined
| VNull
| VBool (b : bool)
| VNum (n : Z)
| VStr (s : string)
| VArr (items : list value) (named : list (string * value))
| VObj (fields : list (string * value)).

(** A plain object: its own enumerable properties in insertion order. *)
Definition obj := list (string * value).

Definition arr (items : list value) : value := VArr items [].

(** [!!v] *)
Definition truthy (v : value) : bool :=
  match v with
  | VUndefined | VNull => false
  | VBool b => b
  | VNum n => negb (n =? 0)%Z
  | VStr s => negb (s =? "")
  | VArr _ _ | VObj _ => true
  end.

(** [typeof v === "string"] *)
Definition is_string (v : value) : bool :=
  match v with VStr _ => true | _ => false end.

(** Own-property lookup in a plain object, [undefined] when absent.
    This is what [o.k] reads under the fixed names of the source
    (content, readOnly, toolbar, ops, ...), none of which is a member of
    [Object.prototype].  A read under a key that is only known at run
    time, [o[key]], also finds the inherited members: see [has_own],
    [inherited] and [truthy_at] below. *)
Fixpoint lookup (k : string) (o : obj) : value :=
  match o with
  | [] => VUndefined
  | (k', v) :: o' => if k' =? k then v else lookup k o'
  end.

(** [Object.hasOwn(o, k)] *)
Fixpoint has_own (k : string) (o : obj) : bool :=
  match o with
  | [] => false
  | (k', _) :: o' => (k' =? k) || has_own k o'
  end.

(** The methods every plain object inherits from [Object.prototype]. *)
Definition object_methods : list string :=
  ["constructor"; "__defineGetter__"; "__defineSetter__"; "hasOwnProperty";
   "__lookupGetter__"; "__lookupSetter__"; "isPrototypeOf";
   "propertyIsEnumerable"; "toString"; "valueOf"; "toLocaleString"].

Definition is_method (k : string) : bool :=
  existsb (String.eqb k) object_methods.

(** The members a plain object inherits: the methods, which are
    functions, and the accessor [__proto__], which reads as
    [Object.prototype] itself. *)
Definition inherited (k : string) : bool := is_method k || (k =? "__proto__").

(** [!!o[key]] for a key known at run time: an own property by its value;
    an inherited member is a function or an object, so truthy. *)
Definition truthy_at (key : string) (o : obj) : bool :=
  if has_own key o then truthy (lookup key o) else inherited key.

(** [Object.keys(o)] *)
Definition keys (o : obj) : list string := map fst o.

(** [o[k] = v] on a plain object: overwrite in place, or append. *)
Fixpoint assign (k : string) (v : value) (o : obj) : obj :=
  match o with
  | [] => [(k, v)]
  | (k', v') :: o' => if k' =? k then (k, v) :: o' else (k', v') :: assign k v o'
  end.

(** [v.k] for a value that is known not to be [null] or [undefined]
    (the caller decides what happens for those). *)
Definition member (k : string) (v : value) : value :=
  match v with
  | VObj o => lookup k o
  | VArr _ named => lookup k named
  | _ => VUndefined
  end.

(** [p?.k] on the stored properties, which are [null] until the first
    [onLoad]. *)
Definition opt_member (k : string) (p : option obj) : value :=
  match p with
  | None => VUndefined
  | Some o => lookup k o
  end.

(** [v.k = x] in strict code (an ES module): [None] is a [TypeError],
    raised for [null], [undefined] and every primitive. *)
Definition set_member (k : string) (x : value) (v : value) : option value :=
  match v with
  | VObj o => Some (VObj (assign k x o))
  | VArr items named => Some (VArr items (assign k x named))
  | VUndefined | VNull | VBool _ | VNum _ | VStr _ => None
  end.

(** ** Strings: [trim] and the HTML-sniffing regular expression *)

Definition ascii_in (lo hi c : ascii) : bool :=
  ((nat_of_ascii lo <=? nat_of_ascii c) && (nat_of_ascii c <=? nat_of_ascii hi))%nat.

(** White space and line terminators among the code units below 256:
    TAB, LF, VT, FF, CR, SP and NBSP. *)
Definition is_space (c : ascii) : bool :=
  let n := nat_of_ascii c in
  (((9 <=? n) && (n <=? 13)) || (n =? 32) || (n =? 160))%nat.

Fixpoint trim_start (s : string) : string :=
  match s with
  | String c s' => if is_space c then trim_start s' else s
  | EmptyString => EmptyString
  end.

(** Drops trailing white space: a character is kept when it is not white
    space or when something is kept after it. *)
Fixpoint trim_end (s : string) : string :=
  match s with
  | EmptyString => EmptyString
  | String c s' =>
      match trim_end s' with
      | EmptyString => if is_space c then EmptyString else String c EmptyString
      | t => String c t
      end
  end.

(** [s.trim()] *)
Definition trim (s : string) : string := trim_end (trim_start s).

(** White space only. *)
Fixpoint all_space (s : string) : bool :=
  match s with
  | EmptyString => true
  | String c s' => is_space c && all_space s'
  end.

Module Regex.

(** The fragment of regular expressions the source uses. *)
Inductive t : Type :=
| Void
| Eps
| Chr (c : ascii)
| Range (lo hi : ascii)
| AnyChar
| Cat (r1 r2 : t)
| Alt (r1 r2 : t)
| Star (r : t).

Definition Opt (r : t) : t := Alt r Eps.

(** Case folding of the [i] flag (no [u] flag): a code unit is compared
    through its upper-case form.  Only ASCII letters fold to ASCII
    letters. *)
Definition canonicalize (c : ascii) : ascii :=
  if ascii_in "a"%char "z"%char c then ascii_of_nat (nat_of_ascii c - 32) else c.

Definition chr_matches (ignore_case : bool) (x c : ascii) : bool :=
  if ignore_case then Ascii.eqb (canonicalize x) (canonicalize c)
  else Ascii.eqb x c.

(** Under [i], a class range matches a character when some member of the
    range has the same canonical form. *)
Definition range_matches (ignore_case : bool) (lo hi c : ascii) : bool :=
  if ignore_case then
    existsb (fun n => Ascii.eqb (canonicalize (ascii_of_nat n)) (canonicalize c))
            (seq (nat_of_ascii lo) (S (nat_of_ascii hi) - nat_of_ascii lo))
  else ascii_in lo hi c.

Fixpoint nullable (r : t) : bool :=
  match r with
  | Void | Chr _ | Range _ _ | AnyChar => false
  | Eps | Star _ => true
  | Cat r1 r2 => nullable r1 && nullable r2
  | Alt r1 r2 => nullable r1 || nullable r2
  end.

(** Brzozowski derivative. *)
Fixpoint deriv (ic : bool) (c : ascii) (r : t) : t :=
  match r with
  | Void | Eps => Void
  | Chr x => if chr_matches ic x c then Eps else Void
  | Range lo hi => if range_matches ic lo hi c then Eps else Void
  | AnyChar => Eps
  | Cat r1 r2 =>
      if nullable r1
      then Alt (Cat (deriv ic c r1) r2) (deriv ic c r2)
      else Cat (deriv ic c r1) r2
  | Alt r1 r2 => Alt (deriv ic c r1) (deriv ic c r2)
  | Star r1 => Cat (deriv ic c r1) (Star r1)
  end.

(** Does some prefix of [s] match [r]? *)
Fixpoint matches_prefix (ic : bool) (r : t) (s : string) : bool :=
  nullable r ||
  match s with
  | EmptyString => false
  | String c s' => matches_prefix ic (deriv ic c r) s'
  end.

(** [r.test(s)] for a regular expression without the [g] and [y] flags:
    does [r] match somewhere in [s]? *)
Fixpoint test (ic : bool) (r : t) (s : string) : bool :=
  matches_prefix ic r s ||
  match s with
  | EmptyString => false
  | String _ s' => test ic r s'
  end.

(** What it is for a string to match a regular expression. *)
Inductive matches (ic : bool) : Regex.t -> string -> Prop :=
| m_eps : matches ic Eps ""
| m_chr x c : chr_matches ic x c = true -> matches ic (Chr x) (String c "")
| m_range lo hi c :
    range_matches ic lo hi c = true -> matches ic (Range lo hi) (String c "")
| m_any c : matches ic AnyChar (String c "")
| m_cat r1 r2 s1 s2 :
    matches ic r1 s1 -> matches ic r2 s2 -> matches ic (Cat r1 r2) (s1 ++ s2)
| m_alt_l r1 r2 s : matches ic r1 s -> matches ic (Alt r1 r2) s
| m_alt_r r1 r2 s : matches ic r2 s -> matches ic (Alt r1 r2) s
| m_star_nil r : matches ic (Star r) ""
| m_star_cons r s1 s2 :
    matches ic r s1 -> matches ic (Star r) s2 -> matches ic (Star r) (s1 ++ s2).

End Regex.

(** [/<\/?[a-z][\s\S]*>/i] *)
Definition html_regex : Regex.t :=
  Regex.Cat (Regex.Chr "<"%char)
    (Regex.Cat (Regex.Opt (Regex.Chr "/"%char))
       (Regex.Cat (Regex.Range "a"%char "z"%char)
          (Regex.Cat (Regex.Star Regex.AnyChar) (Regex.Chr ">"%char)))).

Definition looks_like_html (s : string) : bool :=
  Regex.test true html_regex s.

(** The letters [[a-z]] matches under the [i] flag. *)
Definition is_letter (c : ascii) : bool :=
  ascii_in "a" "z" c || ascii_in "A" "Z" c.

Example html_bold : looks_like_html "<b>hi</b>" = true.
Proof. vm_compute. reflexivity. Qed.

Example html_plain : looks_like_html "hi" = false.
Proof. vm_compute. reflexivity. Qed.

Example html_upper_close : looks_like_html "x </P> y" = true.
Proof. vm_compute. reflexivity. Qed.

Example html_comparison : looks_like_html "1 < 2 > 0" = false.
Proof. vm_compute. reflexivity. Qed.

Example trim_blank : trim "
 " = "".
Proof. vm_compute. reflexivity. Qed.

Example trim_inner : trim "  a b  " = "a b".
Proof. vm_compute. reflexivity. Qed.

(** ** The libraries the adapter calls *)

(** A Quill selection range. *)
Record range : Type := { range_index : nat; range_length : nat }.

(** What an editor instance emits to its listeners. *)
Inductive qevent : Type :=
| TextChange
| SelectionChange (rng oldRange : option range).

Inductive evname : Type := text_change | selection_change.

Definition evname_of (e : qevent) : evname :=
  match e with
  | TextChange => text_change
  | SelectionChange _ _ => selection_change
  end.

Definition evname_eqb (a b : evname) : bool :=
  match a, b with
  | text_change, text_change | selection_change, selection_change => true
  | _, _ => false
  end.

(** The options [initQuill] builds.  [opt_toolbar] is the toolbar
    container, [None] for [toolbar: false]; the [history] block and the
    theme are constants of the source. *)
Record options : Type := {
  opt_toolbar : option value;
  opt_placeholder : option value
}.

(** Quill, as far as the adapter uses it.  A mutator returns the new
    editor and the events the instance emits to its listeners once the
    change is made. *)
Class QuillLib (Editor : Type) : Type := {
  q_new : options -> Editor;
  q_getText : Editor -> string;
  q_getSemanticHTML : Editor -> string;
  q_getContents : Editor -> list value;
  q_hasFocus : Editor -> bool;
  q_enable : bool -> Editor -> Editor * list qevent;
  q_setText : string -> Editor -> Editor * list qevent;
  q_dangerouslyPasteHTML : string -> Editor -> Editor * list qevent;
  q_setContents : value -> Editor -> Editor * list qevent;
  q_focus : Editor -> Editor * list qevent;
  q_undo : Editor -> Editor * list qevent;
  q_redo : Editor -> Editor * list qevent
}.

(** lodash: [isEqual], and the [toNumber] that [debounce] applies to its
    wait argument when it is not already a number. *)
Class Lodash : Type := {
  isEqual : value -> value -> bool;
  toNumber : value -> Z
}.

(** ** Module state and effects *)

(** The listeners the adapter registers on an editor instance.  A
    debounced listener owns one timer. *)
Inductive handler : Type :=
| StudioTextChange
| DebouncedValidate (timer : nat) (wait : nat)
| FocusOnSelection.

Inductive channel : Type :=
| UPDATED
| Named (name : string).

(** What the adapter does to the outside world, and what calls it back:
    the editor with an event, the browser with a timer that has run out. *)
Inductive effect : Type :=
| NewQuill (o : options)
| Off (ev : evname)
| On (ev : evname) (h : handler)
| Enable (b : bool)
| SetText (s : string)
| PasteHTML (s : string)
| SetContents (v : value)
| Focus
| HistoryUndo
| HistoryRedo
| ResetBody
| SetScale (scale : value)
| AwaitDom
| Send (c : channel) (payload : value)
| Callback (e : qevent)
| Timeout (timer : nat).

Inductive ready_state : Type := Loading | Interactive | Complete.

Record vstate : Type := { validated : bool; isEmpty : bool }.

(** How a handler ends. *)
Inductive outcome (A : Type) : Type :=
| Return (a : A)
| Throw.   (* a TypeError *)
Arguments Throw {A}.

Section Adapter.

Context {Editor : Type} `{QuillLib Editor} `{Lodash}.

(** A live editor: the Quill object and the listeners registered on it,
    in registration order. *)
Record instance : Type := {
  inst_id : nat;
  ed : Editor;
  listeners : list (evname * handler)
}.

Record state : Type := {
  quill : option instance;
  properties : option obj;
  shouldForceFocus : bool;
  validationState : vstate;
  (* the environment *)
  isStudio : value;            (* PandaBridge.isStudio *)
  readyState : ready_state;    (* document.readyState *)
  awaitsDom : bool;            (* initQuill listens to DOMContentLoaded *)
  now : nat;                   (* clock, in ms *)
  timers : list (nat * nat);   (* pending debounce timers: owner, deadline *)
  fresh : nat                  (* next instance or timer identity *)
}.

Definition with_quill (q : option instance) (st : state) : state :=
  {| quill := q; properties := properties st;
     shouldForceFocus := shouldForceFocus st;
     validationState := validationState st; isStudio := isStudio st;
     readyState := readyState st; awaitsDom := awaitsDom st; now := now st;
     timers := timers st; fresh := fresh st |}.

Definition with_properties (p : option obj) (st : state) : state :=
  {| quill := quill st; properties := p;
     shouldForceFocus := shouldForceFocus st;
     validationState := validationState st; isStudio := isStudio st;
     readyState := readyState st; awaitsDom := awaitsDom st; now := now st;
     timers := timers st; fresh := fresh st |}.

Definition with_shouldForceFocus (b : bool) (st : state) : state :=
  {| quill := quill st; properties := properties st;
     shouldForceFocus := b;
     validationState := validationState st; isStudio := isStudio st;
     readyState := readyState st; awaitsDom := awaitsDom st; now := now st;
     timers := timers st; fresh := fresh st |}.

Definition with_validationState (v : vstate) (st : state) : state :=
  {| quill := quill st; properties := properties st;
     shouldForceFocus := shouldForceFocus st;
     validationState := v; isStudio := isStudio st;
     readyState := readyState st; awaitsDom := awaitsDom st; now := now st;
     timers := timers st; fresh := fresh st |}.

Definition with_readyState (r : ready_state) (st : state) : state :=
  {| quill := quill st; properties := properties st;
     shouldForceFocus := shouldForceFocus st;
     validationState := validationState st; isStudio := isStudio st;
     readyState := r; awaitsDom := awaitsDom st; now := now st;
     timers := timers st; fresh := fresh st |}.

Definition with_awaitsDom (b : bool) (st : state) : state :=
  {| quill := quill st; properties := properties st;
     shouldForceFocus := shouldForceFocus st;
     validationState := validationState st; isStudio := isStudio st;
     readyState := readyState st; awaitsDom := b; now := now st;
     timers := timers st; fresh := fresh st |}.

Definition with_now (t : nat) (st : state) : state :=
  {| quill := quill st; properties := properties st;
     shouldForceFocus := shouldForceFocus st;
     validationState := validationState st; isStudio := isStudio st;
     readyState := readyState st; awaitsDom := awaitsDom st; now := t;
     timers := timers st; fresh := fresh st |}.

Definition with_timers (ts : list (nat * nat)) (st : state) : state :=
  {| quill := quill st; properties := properties st;
     shouldForceFocus := shouldForceFocus st;
     validationState := validationState st; isStudio := isStudio st;
     readyState := readyState st; awaitsDom := awaitsDom st; now := now st;
     timers := ts; fresh := fresh st |}.

Definition with_fresh (n : nat) (st : state) : state :=
  {| quill := quill st; properties := properties st;
     shouldForceFocus := shouldForceFocus st;
     validationState := validationState st; isStudio := isStudio st;
     readyState := readyState st; awaitsDom := awaitsDom st; now := now st;
     timers := timers st; fresh := n |}.

(** *** The handler monad *)

Definition M (A : Type) : Type := state -> outcome A * state * list effect.

Definition ret {A} (a : A) : M A := fun st => (Return a, st, []).

(** The effects [e1] happened before those of [x]. *)
Definition after {B} (e1 : list effect) (x : outcome B * state * list effect)
  : outcome B * state * list effect :=
  match x with (r, st2, e2) => (r, st2, e1 ++ e2) end.

Definition bind {A B} (m : M A) (k : A -> M B) : M B :=
  fun st =>
    match m st with
    | (Return a, st1, e1) => after e1 (k a st1)
    | (Throw, st1, e1) => (Throw, st1, e1)
    end.

Definition throw {A} : M A := fun st => (Throw, st, []).

Definition gets {A} (f : state -> A) : M A := fun st => (Return (f st), st, []).

Definition modify (f : state -> state) : M unit :=
  fun st => (Return tt, f st, []).

Definition perform (e : effect) : M unit := fun st => (Return tt, st, [e]).

Definition when (b : bool) (m : M unit) : M unit := if b then m else ret tt.

(** An uncaught exception ends the running task only. *)
Definition task (m : M unit) : M unit :=
  fun st => match m st with (_, st1, e1) => (Return tt, st1, e1) end.

Fixpoint for_each {A} (l : list A) (f : A -> M unit) : M unit :=
  match l with
  | [] => ret tt
  | a :: l' => bind (f a) (fun _ => for_each l' f)
  end.

Notation "x <- m ;; k" := (bind m (fun x => k))
  (at level 61, m at next level, right associativity).
Notation "m ;; k" := (bind m (fun _ => k))
  (at level 61, right associativity).

(** Dereferencing [quill] or [properties] while it is [null]. *)
Definition the_quill : M instance :=
  fun st =>
    match quill st with
    | Some q => (Return q, st, [])
    | None => (Throw, st, [])
    end.

Definition the_properties : M obj :=
  fun st =>
    match properties st with
    | Some p => (Return p, st, [])
    | None => (Throw, st, [])
    end.

Definition is_some {A} (o : option A) : bool :=
  match o with Some _ => true | None => false end.

(** [a || b] *)
Definition or_else (a b : value) : value := if truthy a then a else b.

(** [PandaBridge.send] *)
Definition send (c : channel) (payload : value) : M unit :=
  perform (Send c payload).

(** *** The source, function by function *)

Definition mutableProperties : obj :=
  [("content", VBool true); ("readOnly", VBool true)].

(** A Delta, the structured document of Quill. *)
Definition delta (ops : list value) : value := VObj [("ops", arr ops)].

Definition validation_value (v : vstate) : value :=
  VObj [("validated", VBool (validated v)); ("isEmpty", VBool (isEmpty v))].

Definition snapshot (q : Editor) (v : vstate) : value :=
  VObj [("text", VStr (q_getText q));
        ("html", VStr (q_getSemanticHTML q));
        ("content", delta (q_getContents q));
        ("validation", validation_value v)].

Definition getQueryable : M value :=
  q <- the_quill ;;
  v <- gets validationState ;;
  ret (snapshot (ed q) v).

(** The three listeners [initQuill] registers. *)

Definition onStudioTextChange : M unit :=
  q <- the_quill ;;
  queryable <- getQueryable ;;
  send UPDATED
    (VObj [("properties",
            arr [VObj [("id", VStr "content");
                       ("value", delta (q_getContents (ed q)))]]);
           ("queryable", queryable)]).

(** A call of a debounced function (trailing edge only): the pending
    invocation, if any, is dropped and one is due [wait] ms from now. *)
Definition schedule (timer wait : nat) : M unit :=
  modify (fun st =>
            with_timers
              ((timer, now st + wait)
                 :: filter (fun t => negb (fst t =? timer)%nat) (timers st))
              st).

Definition onFocused : M unit :=
  queryable <- getQueryable ;;
  send (Named "onFocused") (arr [queryable]) ;;
  modify (with_shouldForceFocus false).

Definition onSelectionChange (rng oldRange : option range) : M unit :=
  force <- gets shouldForceFocus ;;
  if force || (is_some rng && negb (is_some oldRange))
  then onFocused
  else ret tt.

Definition run_handler (h : handler) (e : qevent) : M unit :=
  match h, e with
  | StudioTextChange, _ => onStudioTextChange
  | DebouncedValidate timer wait, _ => schedule timer wait
  | FocusOnSelection, SelectionChange rng oldRange =>
      onSelectionChange rng oldRange
  | FocusOnSelection, TextChange => ret tt
  end.

(** The live instance emits [e]: its listeners for that event run in
    registration order. *)
Definition emit (e : qevent) : M unit :=
  perform (Callback e) ;;
  q <- the_quill ;;
  for_each
    (filter (fun l => evname_eqb (fst l) (evname_of e)) (listeners q))
    (fun l => run_handler (snd l) e).

(** A call of a mutating method of [quill]. *)
Definition quill_do (e : effect) (f : Editor -> Editor * list qevent)
  : M unit :=
  q <- the_quill ;;
  perform e ;;
  modify (with_quill
            (Some {| inst_id := inst_id q; ed := fst (f (ed q));
                     listeners := listeners q |})) ;;
  for_each (snd (f (ed q))) emit.

(** [quill.on(ev, h)] and [quill.off(ev)] *)
Definition quill_on (ev : evname) (h : handler) : M unit :=
  q <- the_quill ;;
  perform (On ev h) ;;
  modify (with_quill
            (Some {| inst_id := inst_id q; ed := ed q;
                     listeners := listeners q ++ [(ev, h)] |})).

Definition quill_off (ev : evname) : M unit :=
  q <- the_quill ;;
  perform (Off ev) ;;
  modify (with_quill
            (Some {| inst_id := inst_id q; ed := ed q;
                     listeners :=
                       filter (fun l => negb (evname_eqb (fst l) ev))
                              (listeners q) |})).

Definition fresh_id : M nat :=
  n <- gets fresh ;;
  modify (with_fresh (S n)) ;;
  ret n.

(** [quill = new Quill("#editor", options)] *)
Definition new_quill (o : options) : M unit :=
  n <- fresh_id ;;
  perform (NewQuill o) ;;
  modify (with_quill (Some {| inst_id := n; ed := q_new o; listeners := [] |})).

Definition validate : M unit :=
  q <- the_quill ;;
  let text := trim (q_getText (ed q)) in
  modify (fun st =>
            with_validationState
              {| validated := true; isEmpty := isEmpty (validationState st) |}
              st) ;;
  modify (fun st =>
            with_validationState
              {| validated := validated (validationState st);
                 isEmpty := (String.length text =? 0)%nat |}
              st) ;;
  queryable <- getQueryable ;;
  (* prevent multiple updates *)
  p <- the_properties ;;
  match set_member "ops" (member "ops" (member "content" queryable))
                   (lookup "content" p) with
  | None => throw
  | Some content => modify (with_properties (Some (assign "content" content p)))
  end ;;
  send UPDATED (VObj [("queryable", queryable)]) ;;
  send (Named "onValidated") (arr [queryable]).

Definition updateText (text : value) : M unit :=
  if negb (truthy text) then ret tt
  else
    p <- gets properties ;;
    shouldDisable <-
      (if negb (truthy (opt_member "readOnly" p))
       then q <- the_quill ;; ret (negb (q_hasFocus (ed q)))
       else ret false) ;;
    when shouldDisable (quill_do (Enable false) (q_enable false)) ;;
    match text with
    | VStr s =>
        if looks_like_html s
        then quill_do (PasteHTML s) (q_dangerouslyPasteHTML s)
        else quill_do (SetText s) (q_setText s)
    | _ => quill_do (SetContents text) (q_setContents text)
    end ;;
    when shouldDisable (quill_do (Enable true) (q_enable true)).

Definition updateQuill : M unit :=
  p <- gets properties ;;
  when (truthy (opt_member "content" p))
       (updateText (opt_member "content" p)) ;;
  _ <- the_quill ;;
  p <- the_properties ;;
  quill_do (Enable (negb (truthy (lookup "readOnly" p))))
           (q_enable (negb (truthy (lookup "readOnly" p)))).

Definition toolbar_group (p : option obj) (flag : string) (group : value)
  : list value :=
  if truthy (opt_member flag p) then [group] else [].

Definition getToolbarOptions (p : option obj) : list value :=
  toolbar_group p "toolbarHeader"
    (arr [VObj [("header",
                  arr [VNum 1; VNum 2; VNum 3; VNum 4; VNum 5; VNum 6;
                       VBool false])]])
  ++ toolbar_group p "toolbarStyle"
       (arr [VStr "bold"; VStr "italic"; VStr "underline"; VStr "strike"])
  ++ toolbar_group p "toolbarBlock" (arr [VStr "blockquote"; VStr "code-block"])
  ++ toolbar_group p "toolbarMedia"
       (arr [VStr "link"; VStr "image"; VStr "video"; VStr "formula"])
  ++ toolbar_group p "toolbarList"
       (arr [VObj [("list", VStr "ordered")]; VObj [("list", VStr "bullet")];
             VObj [("list", VStr "check")]])
  ++ toolbar_group p "toolbarScript"
       (arr [VObj [("script", VStr "sub")]; VObj [("script", VStr "super")]])
  ++ toolbar_group p "toolbarIndent"
       (arr [VObj [("indent", VStr "-1")]; VObj [("indent", VStr "+1")]])
  ++ toolbar_group p "toolbarDirection" (arr [VObj [("direction", VStr "rtl")]])
  ++ toolbar_group p "toolbarColor"
       (arr [VObj [("color", arr [])]; VObj [("background", arr [])]])
  ++ toolbar_group p "toolbarFont" (arr [VObj [("font", arr [])]])
  ++ toolbar_group p "toolbarAlign" (arr [VObj [("align", arr [])]])
  ++ toolbar_group p "toolbarClean" (arr [VStr "clean"])
  ++ toolbar_group p "toolbarHistory" (arr [VStr "undo"; VStr "redo"]).

(** The delay of [debounce(f, wait)]: [toNumber(wait)], a number being its
    own value and a negative delay being none. *)
Definition debounce_delay (wait : value) : nat :=
  Z.to_nat (match wait with VNum n => n | _ => toNumber wait end).

Definition initQuill : M unit :=
  p <- gets properties ;;
  let toolbar :=
    if truthy (opt_member "toolbar" p)
    then Some (arr (getToolbarOptions p)) else None in
  let placeholder :=
    if truthy (opt_member "placeholder" p)
    then Some (opt_member "placeholder" p) else None in
  old <- gets quill ;;
  when (is_some old)
       (quill_off text_change ;;
        quill_off selection_change ;;
        perform ResetBody) ;;
  new_quill {| opt_toolbar := toolbar; opt_placeholder := placeholder |} ;;
  studio <- gets isStudio ;;
  when (truthy studio)
       (perform (SetScale match member "scale" studio with
                          | VUndefined => VNum 1
                          | scale => scale
                          end) ;;
        quill_on text_change StudioTextChange) ;;
  when (truthy (opt_member "debounce" p))
       (timer <- fresh_id ;;
        quill_on text_change
          (DebouncedValidate timer
             (debounce_delay
                (or_else (opt_member "debounceTime" p) (VNum 300))))) ;;
  quill_on selection_change FocusOnSelection ;;
  updateQuill.

Definition onLoad (pd : obj) : M unit :=
  modify (with_properties (Some pd)) ;;
  rs <- gets readyState ;;
  match rs with
  | Complete => initQuill
  | _ => perform AwaitDom ;; modify (with_awaitsDom true)
  end.

(** [isEqual(o[key], v)] for a key known at run time and a value [v] of
    the host, which is never a function.  An own property is compared by
    its value.  An inherited method is a function, which [isEqual] finds
    equal to no such value.  The inherited [__proto__] reads as
    [Object.prototype], an object with no enumerable property of its own
    and the constructor of a plain object, which [isEqual] does not tell
    from [{}]. *)
Definition equal_at (key : string) (o : obj) (v : value) : bool :=
  if has_own key o then isEqual (lookup key o) v
  else if is_method key then false
  else if key =? "__proto__" then isEqual (VObj []) v
  else isEqual VUndefined v.

(** [Object.keys(pandaData.properties).filter(...)]: the keys are own
    keys of the update, so [pandaData.properties[key]] is an own value;
    [properties[key]] may be inherited, and reading it throws while
    [properties] is [null]. *)
Definition diffKeys (old : obj) (pd : obj) : list string :=
  filter (fun key => negb (equal_at key old (lookup key pd))) (keys pd).

Definition onUpdate (pd : obj) : M unit :=
  p <- gets properties ;;
  changed <-
    match p with
    | Some old => ret (diffKeys old pd)
    | None => match keys pd with [] => ret [] | _ :: _ => throw end
    end ;;
  if (List.length changed =? 0)%nat then ret tt
  else
    let changesIsOnlyMutable :=
      forallb (fun key => truthy_at key mutableProperties) changed in
    modify (with_properties (Some pd)) ;;
    if changesIsOnlyMutable then updateQuill else initQuill.

(** [([props]) => { const { k } = props || {}; ... }] *)
Definition destructure (k : string) (args : list value) : value :=
  member k (or_else (nth 0 args VUndefined) (VObj [])).

Definition listen (name : string) (args : list value) : M unit :=
  if name =? "validate" then validate
  else if name =? "setText" then
    q <- gets quill ;;
    when (is_some q) (updateText (destructure "text" args))
  else if name =? "setContent" then
    q <- gets quill ;;
    when (is_some q) (updateText (destructure "content" args))
  else if name =? "clearText" then
    q <- gets quill ;;
    when (is_some q) (updateText (VStr ""))
  else if name =? "focusText" then
    q <- gets quill ;;
    when (is_some q)
         (quill_do Focus q_focus ;;
          force <- gets shouldForceFocus ;;
          when force onFocused)
  else ret tt.

(** *** The event loop *)

Inductive event : Type :=
| BridgeLoad (pd : obj)
| BridgeUpdate (pd : obj)
| BridgeListen (name : string) (args : list value)
| WindowBlur
| DomContentLoaded
| WindowLoaded
| UserAction (act : Editor -> Editor * list qevent)
| ToolbarUndo
| ToolbarRedo
| TimePasses (dt : nat).

Definition is_due (t : nat) (x : nat * nat) : bool := (snd x <=? t)%nat.

(** The timers that are due fire; each one calls [validate] in a task of
    its own, so their order is immaterial. *)
Definition advance (dt : nat) : M unit :=
  modify (fun st => with_now (now st + dt) st) ;;
  t <- gets now ;;
  ts <- gets timers ;;
  modify (with_timers (filter (fun x => negb (is_due t x)) ts)) ;;
  for_each (filter (is_due t) ts)
           (fun x => perform (Timeout (fst x)) ;; task validate).

Definition handle (e : event) : M unit :=
  match e with
  | BridgeLoad pd => onLoad pd
  | BridgeUpdate pd => onUpdate pd
  | BridgeListen name args => listen name args
  | WindowBlur => modify (with_shouldForceFocus true)
  | DomContentLoaded =>
      rs <- gets readyState ;;
      match rs with
      | Loading =>
          modify (with_readyState Interactive) ;;
          waiting <- gets awaitsDom ;;
          when waiting initQuill
      | _ => ret tt
      end
  | WindowLoaded => modify (with_readyState Complete)
  | UserAction act =>
      q <- gets quill ;;
      match q with
      | Some q =>
          modify (with_quill
                    (Some {| inst_id := inst_id q; ed := fst (act (ed q));
                             listeners := listeners q |})) ;;
          for_each (snd (act (ed q))) emit
      | None => ret tt
      end
  | ToolbarUndo =>
      q <- gets quill ;;
      when (is_some q) (quill_do HistoryUndo q_undo)
  | ToolbarRedo =>
      q <- gets quill ;;
      when (is_some q) (quill_do HistoryRedo q_redo)
  | TimePasses dt => advance dt
  end.

(** One turn of the event loop: an exception that escapes the handler is
    reported nowhere. *)
Definition step (e : event) (st : state) : state * list effect :=
  match handle e st with (_, st', effs) => (st', effs) end.

Fixpoint run (evs : list event) (st : state) : state * list effect :=
  match evs with
  | [] => (st, [])
  | e :: evs' =>
      match step e st with
      | (st1, e1) =>
          match run evs' st1 with (st2, e2) => (st2, e1 ++ e2) end
      end
  end.

(** The module as it is loaded. *)
Definition initial (studio : value) (rs : ready_state) : state :=
  {| quill := None; properties := None; shouldForceFocus := false;
     validationState := {| validated := false; isEmpty := false |};
     isStudio := studio; readyState := rs; awaitsDom := false;
     now := 0; timers := []; fresh := 0 |}.

End Adapter.

Arguments instance : clear implicits.
Arguments state : clear implicits.
Arguments M : clear implicits.
Arguments event : clear implicits.

(** * What is observed

    The vocabulary of the properties below: what is read off the effects
    of a handler, the closed form of an initialisation, what a handler
    leaves alone, and what the module state must satisfy for a property to
    apply. *)

Section Observations.

Context {Editor : Type} `{QuillLib Editor} `{Lodash}.

Implicit Types (st : state Editor) (q : instance Editor).

(** ** Reading the effects *)

(** Messages to the host and callbacks of the editor and of the browser,
    as opposed to what the adapter calls on the editor and the page. *)
Definition is_callback (e : effect) : bool :=
  match e with
  | Send _ _ | Callback _ | Timeout _ => true
  | _ => false
  end.

(** What the adapter called, in order. *)
Definition calls (effs : list effect) : list effect :=
  filter (fun e => negb (is_callback e)) effs.

(** The three entry points of the editor a payload can be applied
    through. *)
Definition is_content_call (e : effect) : bool :=
  match e with
  | SetText _ | PasteHTML _ | SetContents _ => true
  | _ => false
  end.

Definition content_calls (effs : list effect) : list effect :=
  filter is_content_call effs.

(** The entry point [updateText] chooses for a payload, as a call and as
    the method of the library. *)
Definition entry_point (text : value) : effect :=
  match text with
  | VStr s => if looks_like_html s then PasteHTML s else SetText s
  | _ => SetContents text
  end.

Definition entry_method (text : value) : Editor -> Editor * list qevent :=
  match text with
  | VStr s => if looks_like_html s then q_dangerouslyPasteHTML s else q_setText s
  | _ => q_setContents text
  end.

(** The calls of an in-place refresh ([updateQuill]): the content of the
    stored properties, if there is one, applied as [updateText] does, then
    [enable(!readOnly)]. *)
Definition refresh_calls (p : obj) (had_focus : bool) : list effect :=
  (if truthy (lookup "content" p)
   then if negb (truthy (lookup "readOnly" p)) && negb had_focus
        then [Enable false; entry_point (lookup "content" p); Enable true]
        else [entry_point (lookup "content" p)]
   else [])
  ++ [Enable (negb (truthy (lookup "readOnly" p)))].

(** A value a property can be set on: an object or an array. *)
Definition is_object (v : value) : bool :=
  match v with
  | VObj _ | VArr _ _ => true
  | _ => false
  end.

(** The flags [validate] computes for the editor [q]. *)
Definition verdict q : vstate :=
  {| validated := true;
     isEmpty := (String.length (trim (q_getText (ed q))) =? 0)%nat |}.

(** [onFocused] messages, and the reports of the editor that there is a
    selection where there was none. *)
Definition is_focus_send (e : effect) : bool :=
  match e with
  | Send (Named name) _ => (name =? "onFocused")%string
  | _ => false
  end.

Definition focus_notifications (effs : list effect) : nat :=
  List.length (filter is_focus_send effs).

Definition is_emission (e : effect) : bool :=
  match e with
  | Callback _ => true
  | _ => false
  end.

Definition is_transition (e : effect) : bool :=
  match e with
  | Callback (SelectionChange (Some _) None) => true
  | _ => false
  end.

Definition transitions (effs : list effect) : nat :=
  List.length (filter is_transition effs).

(** [onValidated] messages, and the debounce timers that ran out (each
    calls [validate]). *)
Definition is_validated_send (e : effect) : bool :=
  match e with
  | Send (Named name) _ => (name =? "onValidated")%string
  | _ => false
  end.

Definition validations (effs : list effect) : nat :=
  List.length (filter is_validated_send effs).

Definition is_timeout (e : effect) : bool :=
  match e with
  | Timeout _ => true
  | _ => false
  end.

Definition timeouts (effs : list effect) : nat :=
  List.length (filter is_timeout effs).

(** Either of the two. *)
Definition validating (effs : list effect) : nat :=
  List.length (filter (fun e => is_validated_send e || is_timeout e) effs).

(** ** Events *)

Definition is_blur (e : event Editor) : bool :=
  match e with WindowBlur => true | _ => false end.

(** The user types: whatever else the editor reports, it reports a change
    of its text. *)
Definition types (act : Editor -> Editor * list qevent) : Prop :=
  forall x, In TextChange (snd (act x)).

(** The events of a burst of edits after the first one: each comes after
    a pause. *)
Definition burst (rest : list (nat * (Editor -> Editor * list qevent)))
  : list (event Editor) :=
  flat_map (fun ga => [TimePasses (fst ga); UserAction (snd ga)]) rest.

(** ** [initQuill] in closed form

    The options, the listeners, the effects and the state of the prologue
    of [initQuill], up to its final call of [updateQuill]. *)

Definition init_options (p : option obj) : options :=
  {| opt_toolbar :=
       if truthy (opt_member "toolbar" p)
       then Some (arr (getToolbarOptions p)) else None;
     opt_placeholder :=
       if truthy (opt_member "placeholder" p)
       then Some (opt_member "placeholder" p) else None |}.

Definition init_debounced st : handler :=
  DebouncedValidate (S (fresh st))
    (debounce_delay
       (or_else (opt_member "debounceTime" (properties st)) (VNum 300))).

Definition init_listeners st : list (evname * handler) :=
  (if truthy (isStudio st) then [(text_change, StudioTextChange)] else [])
  ++ (if truthy (opt_member "debounce" (properties st))
      then [(text_change, init_debounced st)] else [])
  ++ [(selection_change, FocusOnSelection)].

Definition init_effects st : list effect :=
  (if is_some (quill st)
   then [Off text_change; Off selection_change; ResetBody] else [])
  ++ [NewQuill (init_options (properties st))]
  ++ (if truthy (isStudio st)
      then [SetScale match member "scale" (isStudio st) with
                     | VUndefined => VNum 1
                     | scale => scale
                     end;
            On text_change StudioTextChange]
      else [])
  ++ (if truthy (opt_member "debounce" (properties st))
      then [On text_change (init_debounced st)] else [])
  ++ [On selection_change FocusOnSelection].

Definition init_state st : state Editor :=
  with_quill
    (Some {| inst_id := fresh st;
             ed := q_new (init_options (properties st));
             listeners := init_listeners st |})
    (with_fresh
       (if truthy (opt_member "debounce" (properties st))
        then S (S (fresh st)) else S (fresh st))
       st).

(** The delay [initQuill] passes to [debounce]. *)
Definition debounce_wait (p : obj) : nat :=
  debounce_delay (or_else (lookup "debounceTime" p) (VNum 300)).

(** ** Conditions on the module state *)

(** The live editor was created before the next identity was drawn. *)
Definition ids_below_fresh st : Prop :=
  forall q, quill st = Some q -> inst_id q < fresh st.

(** The live editor has the selection listener of [initQuill], once. *)
Definition wired st : Prop :=
  forall q, quill st = Some q ->
    filter (fun l => evname_eqb (fst l) selection_change) (listeners q)
    = [(selection_change, FocusOnSelection)].

(** One notification is owed for a window blur. *)
Definition pending st : nat := if shouldForceFocus st then 1 else 0.

Section Armed.

Variables (timer wait : nat) (p : obj).

(** The listeners of an editor initialised with the debounce flag: its
    debounced listener is on [text-change], and it is the only one. *)
Definition debounces (l : list (evname * handler)) : Prop :=
  In (text_change, DebouncedValidate timer wait) l /\
  forall ev t w, In (ev, DebouncedValidate t w) l -> t = timer /\ w = wait.

(** The editor is live and debounces its validation, the stored
    properties are [p], and no timer of an earlier editor is pending. *)
Definition armed st : Prop :=
  (exists q, quill st = Some q /\ debounces (listeners q)) /\
  properties st = Some p /\
  Forall (fun x => fst x = timer) (timers st).

(** What a listener, an emission or a user action leaves of an armed
    state: it returns, keeps the listeners, the properties and the clock,
    validates nothing, and either leaves the timers alone or leaves the
    validation due [wait] ms from now; [rescheduled] tells when the
    latter is certain. *)
Definition rearms (rescheduled : Prop) st
           (x : outcome unit * state Editor * list effect) : Prop :=
  fst (fst x) = Return tt /\
  (exists q q', quill st = Some q /\ quill (snd (fst x)) = Some q' /\
                listeners q' = listeners q) /\
  properties (snd (fst x)) = properties st /\
  now (snd (fst x)) = now st /\
  validating (snd x) = 0 /\
  (timers (snd (fst x)) = timers st \/
   timers (snd (fst x)) = [(timer, now st + wait)]) /\
  (rescheduled -> timers (snd (fst x)) = [(timer, now st + wait)]).

Definition is_debounced (h : handler) : Prop :=
  match h with DebouncedValidate _ _ => True | _ => False end.

End Armed.

(** ** Frames: what a handler leaves alone

    A frame is a relation between the state before, the state after and
    the effects in between that holds of doing nothing and composes.  A
    computation respects it when every run does, thrown or not. *)

Class Frame (R : state Editor -> state Editor -> list effect -> Prop) : Prop := {
  frame_refl : forall st, R st st [];
  frame_trans : forall a b c e1 e2, R a b e1 -> R b c e2 -> R a c (e1 ++ e2)
}.

Definition respects {A} (R : state Editor -> state Editor -> list effect -> Prop)
           (m : M Editor A) : Prop :=
  forall st, R st (snd (fst (m st))) (snd (m st)).

(** The atomic steps of the handlers.  A frame that holds of them holds of
    every handler of the source, and so of every turn of the event loop
    that is not a window blur. *)
Class Atoms (R : state Editor -> state Editor -> list effect -> Prop) : Prop := {
  at_frame :: Frame R;
  at_effect : forall e st,
    is_focus_send e = false -> is_emission e = false -> R st st [e];
  at_emit : forall e st q,
    quill st = Some q -> R st (snd (fst (emit e st))) (snd (emit e st));
  at_pending :
    respects R (bind (gets shouldForceFocus)
                     (fun force => when force onFocused));
  at_editor : forall st q ed',
    quill st = Some q ->
    R st (with_quill (Some {| inst_id := inst_id q; ed := ed';
                              listeners := listeners q |}) st) [];
  at_init : forall st, R st (init_state st) (init_effects st);
  at_properties : forall st p, R st (with_properties p st) [];
  at_validation : forall st v, R st (with_validationState v st) [];
  at_timers : forall st ts, R st (with_timers ts st) [];
  at_now : forall st t, R st (with_now t st) [];
  at_readyState : forall st r, R st (with_readyState r st) [];
  at_awaitsDom : forall st b, R st (with_awaitsDom b st) []
}.

(** Everything but the editor, the pending timers and the focus flag. *)
Definition same_env st st' : Prop :=
  properties st' = properties st /\
  validationState st' = validationState st /\
  isStudio st' = isStudio st /\
  readyState st' = readyState st /\
  awaitsDom st' = awaitsDom st /\
  now st' = now st /\
  fresh st' = fresh st.

(** On a live editor the computation returns, calls nothing and touches
    only the focus flag and the timers. *)
Definition settles {A} (m : M Editor A) : Prop :=
  forall st q, quill st = Some q ->
    exists a st' cbs,
      m st = (Return a, st', cbs) /\
      quill st' = Some q /\ same_env st st' /\ calls cbs = [].

(** Identities only grow. *)
Definition ids_frame st st' (effs : list effect) : Prop :=
  fresh st <= fresh st' /\ (ids_below_fresh st -> ids_below_fresh st').

(** The flag is only ever cleared, and a notification clears it. *)
Definition flag_frame st st' (effs : list effect) : Prop :=
  shouldForceFocus st' = true ->
  shouldForceFocus st = true /\ focus_notifications effs = 0.

(** A text change concerns none of the focus bookkeeping. *)
Definition text_frame st st' (effs : list effect) : Prop :=
  shouldForceFocus st' = shouldForceFocus st /\ quill st' = quill st /\
  focus_notifications effs = 0 /\ transitions effs = 0.

(** What the adapter keeps of its focus bookkeeping: on an editor wired
    as [initQuill] leaves it, one notification per transition, and at
    most one more, paid from the pending blur. *)
Definition focus_frame st st' (effs : list effect) : Prop :=
  flag_frame st st' effs /\
  (wired st ->
   wired st' /\
   transitions effs <= focus_notifications effs /\
   focus_notifications effs + pending st' <= transitions effs + pending st).

(** ** Beyond the entry points

    What the properties of the rest of the adapter are stated with: the
    toolbar, the editors created, the messages of the outbound protocol,
    and the assignments to the module state. *)

(** The feature flags [getToolbarOptions] reads, in the order of the
    source. *)
Definition toolbar_flags : list string :=
  ["toolbarHeader"; "toolbarStyle"; "toolbarBlock"; "toolbarMedia";
   "toolbarList"; "toolbarScript"; "toolbarIndent"; "toolbarDirection";
   "toolbarColor"; "toolbarFont"; "toolbarAlign"; "toolbarClean";
   "toolbarHistory"].

(** Editors created. *)
Definition is_new (e : effect) : bool :=
  match e with
  | NewQuill _ => true
  | _ => false
  end.

Definition new_editors (effs : list effect) : list effect :=
  filter is_new effs.

(** The calls [initQuill] tears the previous editor down with. *)
Definition teardown st : list effect :=
  if is_some (quill st)
  then [Off text_change; Off selection_change; ResetBody] else [].

(** The state in which [initQuill] runs when [DOMContentLoaded] fires
    after the host has loaded the properties [pd]. *)
Definition dom_ready (pd : obj) st : state Editor :=
  with_readyState Interactive
    (with_awaitsDom true (with_properties (Some pd) st)).

(** Events that only use the editor: the content and focus messages, what
    the user does, the toolbar buttons and the window blur. *)
Definition is_editing (e : event Editor) : bool :=
  match e with
  | BridgeListen name _ => negb (name =? "validate")
  | UserAction _ | ToolbarUndo | ToolbarRedo | WindowBlur => true
  | _ => false
  end.

(** Events that may run [validate]: the message, and a timer. *)
Definition is_validation (e : event Editor) : bool :=
  match e with
  | BridgeListen name _ => name =? "validate"
  | TimePasses _ => true
  | _ => false
  end.

(** The stored properties say read-only. *)
Definition read_only st : bool :=
  truthy (opt_member "readOnly" (properties st)).

(** *** The outbound protocol *)

Fixpoint same_keys (l1 l2 : list string) : bool :=
  match l1, l2 with
  | [], [] => true
  | k1 :: l1', k2 :: l2' => (k1 =? k2) && same_keys l1' l2'
  | _, _ => false
  end.

(** A plain object with exactly these keys, in this order. *)
Definition has_keys (ks : list string) (v : value) : bool :=
  match v with
  | VObj o => same_keys (keys o) ks
  | _ => false
  end.

Definition is_boolean (v : value) : bool :=
  match v with VBool _ => true | _ => false end.

Definition is_array (v : value) : bool :=
  match v with VArr _ _ => true | _ => false end.

(** A document: an object whose [ops] are an array. *)
Definition is_document (v : value) : bool :=
  has_keys ["ops"] v && is_array (member "ops" v).

(** The shape of a queryable snapshot:
    [{text: string, html: string, content: document,
      validation: {validated: boolean, isEmpty: boolean}}]. *)
Definition is_queryable (v : value) : bool :=
  has_keys ["text"; "html"; "content"; "validation"] v
  && is_string (member "text" v)
  && is_string (member "html" v)
  && is_document (member "content" v)
  && has_keys ["validated"; "isEmpty"] (member "validation" v)
  && is_boolean (member "validated" (member "validation" v))
  && is_boolean (member "isEmpty" (member "validation" v)).

(** [[{id: "content", value: document}]] *)
Definition is_content_update (v : value) : bool :=
  match v with
  | VArr [x] [] =>
      has_keys ["id"; "value"] x
      && match member "id" x with
         | VStr s => s =? "content"
         | _ => false
         end
      && is_document (member "value" x)
  | _ => false
  end.

Definition is_send (e : effect) : bool :=
  match e with
  | Send _ _ => true
  | _ => false
  end.

(** The messages of the protocol: [UPDATED] with a snapshot, alone or
    beside an update of the content property, and [onValidated] and
    [onFocused] with one snapshot.  Anything that is not a message
    passes. *)
Definition is_outbound (e : effect) : bool :=
  match e with
  | Send UPDATED payload =>
      (has_keys ["queryable"] payload
       || (has_keys ["properties"; "queryable"] payload
           && is_content_update (member "properties" payload)))
      && is_queryable (member "queryable" payload)
  | Send (Named name) payload =>
      ((name =? "onValidated") || (name =? "onFocused"))
      && match payload with
         | VArr [snap] [] => is_queryable snap
         | _ => false
         end
  | _ => true
  end.

(** The echo of a text change in the studio. *)
Definition is_echo (e : effect) : bool :=
  match e with
  | Send UPDATED payload => has_keys ["properties"; "queryable"] payload
  | _ => false
  end.

Definition echoes (effs : list effect) : list effect := filter is_echo effs.

Definition studio_echo (x : Editor) (v : vstate) : effect :=
  Send UPDATED
    (VObj [("properties",
            arr [VObj [("id", VStr "content");
                       ("value", delta (q_getContents x))]]);
           ("queryable", snapshot x v)]).

Definition is_text_change (e : qevent) : bool :=
  match e with
  | TextChange => true
  | _ => false
  end.

Definition is_studio (h : handler) : bool :=
  match h with
  | StudioTextChange => true
  | _ => false
  end.

(** What a listener leaves of the live editor [q], and what it echoes. *)
Definition echoing (q : instance Editor) (v : vstate) (studio : value)
           (n : list effect) (x : outcome unit * state Editor * list effect)
  : Prop :=
  fst (fst x) = Return tt /\
  quill (snd (fst x)) = Some q /\
  validationState (snd (fst x)) = v /\
  isStudio (snd (fst x)) = studio /\
  echoes (snd x) = n.

(** The live editor has the studio listener exactly in the studio. *)
Definition studio_wired st : Prop :=
  forall q, quill st = Some q ->
    filter (fun l => is_studio (snd l)) (listeners q)
    = if truthy (isStudio st) then [(text_change, StudioTextChange)] else [].

(** *** Assignments to the module state

    The steps every handler but [validate] and the timers is made of.  A
    frame that holds of them holds of each of these handlers. *)
Class Editing (R : state Editor -> state Editor -> list effect -> Prop) : Prop := {
  ed_frame :: Frame R;
  ed_call : forall e st, is_send e = false -> R st st [e];
  ed_send : forall c payload st,
    is_outbound (Send c payload) = true -> R st st [Send c payload];
  ed_editor : forall st q ed',
    quill st = Some q ->
    R st (with_quill (Some {| inst_id := inst_id q; ed := ed';
                              listeners := listeners q |}) st) [];
  ed_init : forall st, R st (init_state st) (init_effects st);
  ed_schedule : forall st q ev timer wait,
    quill st = Some q ->
    In (ev, DebouncedValidate timer wait) (listeners q) ->
    R st (snd (fst (schedule timer wait st))) [];
  ed_flag : forall st b, R st (with_shouldForceFocus b st) [];
  ed_properties : forall st p, R st (with_properties (Some p) st) [];
  ed_readyState : forall st r, R st (with_readyState r st) [];
  ed_awaitsDom : forall st, R st (with_awaitsDom true st) []
}.

(** With the steps of [validate] and of the clock, every handler. *)
Class Validating (R : state Editor -> state Editor -> list effect -> Prop) : Prop := {
  vl_editing :: Editing R;
  vl_validated : forall st,
    R st (with_validationState
            {| validated := true; isEmpty := isEmpty (validationState st) |}
            st) [];
  vl_isEmpty : forall st b,
    R st (with_validationState
            {| validated := validated (validationState st); isEmpty := b |}
            st) [];
  vl_now : forall st dt, R st (with_now (now st + dt) st) [];
  vl_due : forall st,
    R st (with_timers
            (filter (fun x => negb (is_due (now st) x)) (timers st)) st) []
}.

(** Every message sent is one of the protocol. *)
Definition protocol_frame st st' (effs : list effect) : Prop :=
  forallb is_outbound effs = true.

(** Nothing of the module state is ever taken back: an editor stays an
    editor, properties stay properties, validated stays validated. *)
Definition grows st st' (effs : list effect) : Prop :=
  (is_some (quill st) = true -> is_some (quill st') = true) /\
  (is_some (properties st) = true -> is_some (properties st') = true) /\
  (validated (validationState st) = true ->
   validated (validationState st') = true).

(** The validation flags are left alone. *)
Definition flags_frame st st' (effs : list effect) : Prop :=
  validationState st' = validationState st.

(** A pending blur is cleared by a notification only. *)
Definition paid_frame st st' (effs : list effect) : Prop :=
  shouldForceFocus st = true -> shouldForceFocus st' = false ->
  1 <= focus_notifications effs.

(** The studio listener stays where [initQuill] put it. *)
Definition studio_frame st st' (effs : list effect) : Prop :=
  isStudio st' = isStudio st /\ (studio_wired st -> studio_wired st').

(** The timers of the debounced listeners of the live editor are [n] or
    later. *)
Definition later (n : nat) st : Prop :=
  forall q ev t w,
    quill st = Some q -> In (ev, DebouncedValidate t w) (listeners q) ->
    n <= t.

(** Timers of earlier editors stay pending. *)
Definition kept_frame st st' (effs : list effect) : Prop :=
  fresh st <= fresh st' /\
  forall n, n <= fresh st -> later n st ->
    later n st' /\
    forall t, In t (timers st) -> fst t < n -> In t (timers st').

(** What a successful [validate] sends about the live editor [q]. *)
Definition validation_report q : list effect :=
  [Send UPDATED (VObj [("queryable", snapshot (ed q) (verdict q))]);
   Send (Named "onValidated") (arr [snapshot (ed q) (verdict q)])].

(** Every timer, pending or of a live listener, was drawn from [fresh]. *)
Definition timers_known st : Prop :=
  (forall t, In t (timers st) -> fst t < fresh st) /\
  (forall q ev t w,
     quill st = Some q -> In (ev, DebouncedValidate t w) (listeners q) ->
     t < fresh st).

Definition known_frame st st' (effs : list effect) : Prop :=
  fresh st <= fresh st' /\ (timers_known st -> timers_known st').

End Observations.

Arguments settles Editor {A} m.

(** ** A reference editor

    A small implementation of the two library interfaces, on which the
    adapter can be run.  The editor keeps its text, its document, whether
    it has the focus and whether it accepts input; it reports every change
    of its document with one [text-change]. *)

Module Ref.

Record editor : Type := {
  text : string;
  html : string;
  ops : list value;
  focused : bool;
  enabled : bool
}.

Definition insert (s : string) : value := VObj [("insert", VStr s)].

Definition blank : editor :=
  {| text := ""; html := ""; ops := []; focused := false; enabled := true |}.

Definition holding (s : string) : editor :=
  {| text := s; html := s; ops := [insert s]; focused := false;
     enabled := true |}.

Definition enable (b : bool) (q : editor) : editor * list qevent :=
  ({| text := text q; html := html q; ops := ops q; focused := focused q;
      enabled := b |}, []).

Definition setText (s : string) (q : editor) : editor * list qevent :=
  ({| text := s; html := s; ops := [insert s]; focused := focused q;
      enabled := enabled q |}, [TextChange]).

(** The document of [new Delta(v)]: the array itself, the [ops] of an
    object that has them, and nothing otherwise. *)
Definition delta_ops (v : value) : list value :=
  match v with
  | VArr items _ => items
  | VObj o => match lookup "ops" o with VArr items _ => items | _ => [] end
  | _ => []
  end.

(** The text of a document: its inserted strings, in order. *)
Fixpoint ops_text (l : list value) : string :=
  match l with
  | [] => ""
  | op :: l' =>
      match member "insert" op with
      | VStr s => s ++ ops_text l'
      | _ => ops_text l'
      end
  end%string.

Definition setContents (v : value) (q : editor) : editor * list qevent :=
  ({| text := ops_text (delta_ops v); html := ops_text (delta_ops v);
      ops := delta_ops v; focused := focused q; enabled := enabled q |},
   [TextChange]).

Definition focus (q : editor) : editor * list qevent :=
  ({| text := text q; html := html q; ops := ops q; focused := true;
      enabled := enabled q |},
   if focused q then []
   else [SelectionChange (Some {| range_index := 0; range_length := 0 |})
                         None]).

Definition unchanged (q : editor) : editor * list qevent := (q, []).

#[global] Instance quill_lib : QuillLib editor := {
  q_new _ := blank;
  q_getText := text;
  q_getSemanticHTML := html;
  q_getContents := ops;
  q_hasFocus := focused;
  q_enable := enable;
  q_setText := setText;
  q_dangerouslyPasteHTML := setText;
  q_setContents := setContents;
  q_focus := focus;
  q_undo := unchanged;
  q_redo := unchanged
}.

(** Structural equality: what [isEqual] answers on values whose objects
    list their keys in the same order. *)
Fixpoint value_eqb (a b : value) {struct a} : bool :=
  let fix items_eqb (l1 l2 : list value) {struct l1} : bool :=
    match l1, l2 with
    | [], [] => true
    | x :: l1', y :: l2' => value_eqb x y && items_eqb l1' l2'
    | _, _ => false
    end in
  let fix fields_eqb (l1 l2 : list (string * value)) {struct l1} : bool :=
    match l1, l2 with
    | [], [] => true
    | (k1, x) :: l1', (k2, y) :: l2' =>
        (k1 =? k2) && value_eqb x y && fields_eqb l1' l2'
    | _, _ => false
    end in
  match a, b with
  | VUndefined, VUndefined | VNull, VNull => true
  | VBool x, VBool y => Bool.eqb x y
  | VNum x, VNum y => (x =? y)%Z
  | VStr x, VStr y => x =? y
  | VArr i1 n1, VArr i2 n2 => items_eqb i1 i2 && fields_eqb n1 n2
  | VObj f1, VObj f2 => fields_eqb f1 f2
  | _, _ => false
  end.

#[global] Instance lodash : Lodash := {
  isEqual := value_eqb;
  toNumber v := match v with VNum n => n | VBool true => 1%Z | _ => 0%Z end
}.

(** The component once the host has loaded it with the properties [p],
    the page being complete, outside the studio. *)
Definition loaded (p : obj) : state editor :=
  fst (run [BridgeLoad p] (initial VUndefined Complete)).

(** Scenarios: the document "hello", as a Delta and as a string; the
    editor instance that shows it; a configuration with a toolbar; one
    with debounced validation. *)
Definition hello : value := delta [insert "hello"].

Definition shown : instance editor :=
  {| inst_id := 0; ed := holding "hello";
     listeners := [(selection_change, FocusOnSelection)] |}.

Definition as_document : obj := [("content", hello)].

Definition as_string : obj := [("content", VStr "hello")].

Definition with_toolbar : obj :=
  [("content", hello); ("readOnly", VBool false); ("toolbar", VBool true)].

Definition debounced : obj := [("content", hello); ("debounce", VBool true)].

Definition typing (s : string) : editor -> editor * list qevent := setText s.

(** More scenarios: debounced validation over a string as content; a
    debounced configuration that gains a toolbar; an update whose only
    new key is a name that every object inherits. *)
Definition debounced_string : obj :=
  [("content", VStr "hello"); ("debounce", VBool true)].

Definition restyled : obj := (debounced ++ [("toolbar", VBool true)])%list.

Definition overridden : obj := (with_toolbar ++ [("toString", VStr "x")])%list.

Definition zoomed : obj := (with_toolbar ++ [("zoom", VStr "x")])%list.

(** Three edits in a row over a string as content, each less than 300 ms
    after the one before. *)
Definition burst_over_string : list (event editor) :=
  [BridgeLoad debounced_string;
   UserAction (typing "a"); TimePasses 100;
   UserAction (typing "ab"); TimePasses 299;
   UserAction (typing "abc")].

(** Two edits 250 ms apart, the editor being re-initialised in between. *)
Definition burst_over_restyle : list (event editor) :=
  [BridgeLoad debounced;
   UserAction (typing "a");
   BridgeUpdate restyled; TimePasses 250;
   UserAction (typing "b")].

End Ref.

(** * Properties *)

(** ** The regular expression

    The matcher above decides the usual meaning of regular expressions,
    so the test of [updateText] can be read off [html_regex]. *)

Local Open Scope string_scope.

Module RegexFacts.
Import Regex.

Lemma append_nil_r s : s ++ "" = s.
Proof. induction s; simpl; congruence. Qed.

Lemma append_assoc s1 s2 s3 : (s1 ++ s2) ++ s3 = s1 ++ (s2 ++ s3).
Proof. induction s1; simpl; congruence. Qed.

Lemma append_eq_nil s1 s2 : s1 ++ s2 = "" -> s1 = "" /\ s2 = "".
Proof. destruct s1; simpl; [auto | discriminate]. Qed.

Lemma nullable_spec ic r : nullable r = true <-> matches ic r "".
Proof.
  split.
  - induction r; simpl; try discriminate; intros Hn.
    + constructor.
    + apply andb_true_iff in Hn as [H1 H2].
      change "" with ("" ++ ""). constructor; auto.
    + apply orb_true_iff in Hn as [H1 | H2];
        [apply m_alt_l | apply m_alt_r]; auto.
    + constructor.
  - intros Hm. remember "" as s eqn:Es.
    induction Hm; simpl; try discriminate; auto.
    + apply append_eq_nil in Es as [-> ->]. rewrite IHHm1, IHHm2; auto.
    + rewrite IHHm; auto.
    + rewrite IHHm; auto. apply orb_true_r.
Qed.

(** A non-empty match of a star starts with a non-empty match of its
    body. *)
Lemma star_cons_inv ic r c s :
  matches ic (Star r) (String c s) ->
  exists s1 s2, s = s1 ++ s2 /\ matches ic r (String c s1) /\
                matches ic (Star r) s2.
Proof.
  intros Hm. remember (Star r) as r' eqn:Er. remember (String c s) as s' eqn:Es.
  revert s Es.
  induction Hm; try discriminate; intros s Es.
  injection Er as ->.
  destruct s1 as [|c1 s1]; simpl in Es.
  - apply IHHm2; auto.
  - injection Es as -> <-. exists s1, s2. auto.
Qed.

Lemma deriv_spec ic c r s :
  matches ic (deriv ic c r) s <-> matches ic r (String c s).
Proof.
  revert s. induction r; intros s; simpl.
  - split; intros Hm; inversion Hm.
  - split; intros Hm; inversion Hm.
  - destruct (chr_matches ic c0 c) eqn:E; split; intros Hm; inversion Hm; subst.
    + now constructor.
    + constructor.
    + congruence.
  - destruct (range_matches ic lo hi c) eqn:E; split; intros Hm;
      inversion Hm; subst.
    + now constructor.
    + constructor.
    + congruence.
  - split; intros Hm; inversion Hm; subst; constructor.
  - destruct (nullable r1) eqn:En.
    + split; intros Hm.
      * inversion Hm as [| | | | |? ? ? Hl|? ? ? Hr| |]; subst.
        -- inversion Hl; subst.
           change (String c (s1 ++ s2)) with (String c s1 ++ s2).
           constructor; [now apply IHr1 | assumption].
        -- change (String c s) with ("" ++ String c s).
           constructor; [now apply (nullable_spec ic) | now apply IHr2].
      * inversion Hm as [| | | |? ? s1 s2 H1 H2 [Er1 Er2] Es| | | |]; subst.
        destruct s1 as [|c1 s1]; simpl in Es.
        -- subst. apply m_alt_r. now apply IHr2.
        -- injection Es as -> <-. apply m_alt_l.
           constructor; [now apply IHr1 | assumption].
    + split; intros Hm.
      * inversion Hm; subst.
        change (String c (s1 ++ s2)) with (String c s1 ++ s2).
        constructor; [now apply IHr1 | assumption].
      * inversion Hm as [| | | |? ? s1 s2 H1 H2 [Er1 Er2] Es| | | |]; subst.
        destruct s1 as [|c1 s1]; simpl in Es.
        -- apply (nullable_spec ic) in H1. congruence.
        -- injection Es as -> <-.
           constructor; [now apply IHr1 | assumption].
  - split; intros Hm; inversion Hm; subst;
      [apply m_alt_l; now apply IHr1 | apply m_alt_r; now apply IHr2
      |apply m_alt_l; now apply IHr1 | apply m_alt_r; now apply IHr2].
  - split; intros Hm.
    + inversion Hm; subst.
      change (String c (s1 ++ s2)) with (String c s1 ++ s2).
      constructor; [now apply IHr | assumption].
    + apply star_cons_inv in Hm as (s1 & s2 & -> & H1 & H2).
      constructor; [now apply IHr | assumption].
Qed.

Lemma matches_prefix_spec ic r s :
  matches_prefix ic r s = true <->
  exists s1 s2, s = s1 ++ s2 /\ matches ic r s1.
Proof.
  revert r. induction s as [|c s IH]; intros r.
  - simpl. rewrite orb_false_r. split.
    + intros Hm. exists "", "". split; [reflexivity|].
      now apply nullable_spec.
    + intros (s1 & s2 & Es & Hm). symmetry in Es.
      apply append_eq_nil in Es as [-> _]. now apply (nullable_spec ic).
  - cbn [matches_prefix]. split.
    + intros Hp. apply orb_true_iff in Hp as [Hn | Hd].
      * exists "", (String c s). split; [reflexivity|].
        now apply nullable_spec.
      * apply IH in Hd as (s1 & s2 & -> & Hm).
        exists (String c s1), s2. split; [reflexivity|]. now apply deriv_spec.
    + intros (s1 & s2 & Es & Hm). apply orb_true_iff.
      destruct s1 as [|c1 s1]; simpl in Es.
      * left. now apply (nullable_spec ic).
      * injection Es as <- ->. right. apply IH. exists s1, s2.
        split; [reflexivity|]. now apply deriv_spec.
Qed.

Lemma test_spec ic r s :
  test ic r s = true <->
  exists s0 s1 s2, s = s0 ++ s1 ++ s2 /\ matches ic r s1.
Proof.
  induction s as [|c s IH].
  - cbn [test]. rewrite orb_false_r. split.
    + intros Hp. apply matches_prefix_spec in Hp as (s1 & s2 & Es & Hm).
      exists "", s1, s2. auto.
    + intros (s0 & s1 & s2 & Es & Hm). symmetry in Es.
      apply append_eq_nil in Es as [-> Es].
      apply append_eq_nil in Es as [-> ->].
      apply matches_prefix_spec. exists "", "". auto.
  - cbn [test]. split.
    + intros Hp. apply orb_true_iff in Hp as [Hp | Hp].
      * apply matches_prefix_spec in Hp as (s1 & s2 & Es & Hm).
        exists "", s1, s2. auto.
      * apply IH in Hp as (s0 & s1 & s2 & -> & Hm).
        exists (String c s0), s1, s2. auto.
    + intros (s0 & s1 & s2 & Es & Hm). apply orb_true_iff.
      destruct s0 as [|c0 s0]; simpl in Es.
      * left. apply matches_prefix_spec. exists s1, s2. auto.
      * injection Es as <- ->. right. apply IH. exists s0, s1, s2. auto.
Qed.

Lemma range_az_ignore_case c :
  range_matches true "a" "z" c = is_letter c.
Proof.
  destruct c as [[] [] [] [] [] [] [] []]; vm_compute; reflexivity.
Qed.

Lemma star_any ic s : matches ic (Star AnyChar) s.
Proof.
  induction s as [|c s IH]; [constructor|].
  change (String c s) with (String c "" ++ s). constructor; [constructor | exact IH].
Qed.

Lemma cat_inv ic r1 r2 s :
  matches ic (Cat r1 r2) s ->
  exists s1 s2, s = s1 ++ s2 /\ matches ic r1 s1 /\ matches ic r2 s2.
Proof. intros Hm; inversion Hm; subst; eauto. Qed.

Lemma chr_inv ic x s :
  matches ic (Chr x) s -> exists c, s = String c "" /\ chr_matches ic x c = true.
Proof. intros Hm; inversion Hm; subst; eauto. Qed.

Lemma range_inv ic lo hi s :
  matches ic (Range lo hi) s ->
  exists c, s = String c "" /\ range_matches ic lo hi c = true.
Proof. intros Hm; inversion Hm; subst; eauto. Qed.

Lemma opt_inv ic r s : matches ic (Opt r) s -> matches ic r s \/ s = "".
Proof.
  unfold Opt. intros Hm; inversion Hm as [| | | | |? ? ? Hl|? ? ? Hr| |]; subst.
  - now left.
  - inversion Hr. now right.
Qed.

(** A symbol that is not a letter matches only itself, with or without
    the [i] flag. *)
Lemma symbol_matches (x c : ascii) :
  In x ["<"; "/"; ">"]%char -> chr_matches true x c = true -> c = x.
Proof.
  intros [<- | [<- | [<- | []]]];
    destruct c as [[] [] [] [] [] [] [] []]; vm_compute;
    intros Hc; try discriminate Hc; reflexivity.
Qed.

(** What [html_regex] matches: an opening angle bracket, an optional
    slash, a letter, anything, a closing angle bracket. *)
Lemma html_regex_matches s :
  matches true html_regex s <->
  exists slash c body,
    s = "<" ++ slash ++ String c (body ++ ">") /\
    (slash = "" \/ slash = "/") /\ is_letter c = true.
Proof.
  unfold html_regex. split.
  - intros Hm.
    apply cat_inv in Hm as (s1 & t1 & -> & Hlt & Hm).
    apply cat_inv in Hm as (s2 & t2 & -> & Hslash & Hm).
    apply cat_inv in Hm as (s3 & t3 & -> & Hletter & Hm).
    apply cat_inv in Hm as (s4 & t4 & -> & _ & Hgt).
    apply chr_inv in Hlt as (c1 & -> & Hc1).
    apply symbol_matches in Hc1 as ->; [|simpl; auto].
    apply range_inv in Hletter as (c & -> & Hc).
    rewrite range_az_ignore_case in Hc.
    apply chr_inv in Hgt as (c4 & -> & Hc4).
    apply symbol_matches in Hc4 as ->; [|simpl; auto].
    exists s2, c, s4. split; [reflexivity|]. split; [|exact Hc].
    apply opt_inv in Hslash as [Hslash | ->]; [|now left].
    apply chr_inv in Hslash as (c2 & -> & Hc2).
    apply symbol_matches in Hc2 as ->; [|simpl; auto]. now right.
  - intros (slash & c & body & -> & Hs & Hc).
    change ("<" ++ slash ++ String c (body ++ ">"))
      with (String "<" "" ++ (slash ++ (String c "" ++ (body ++ String ">" "")))).
    constructor; [now constructor|].
    constructor.
    + destruct Hs as [-> | ->]; [apply m_alt_r; constructor|].
      apply m_alt_l. now constructor.
    + constructor; [constructor; now rewrite range_az_ignore_case|].
      constructor; [apply star_any | now constructor].
Qed.

End RegexFacts.

(** X2: the sniffing test of [updateText], in words.  A string is taken
    for HTML exactly when it contains [<], then maybe [/], then an ASCII
    letter of either case, and further on [>]; what stands before, between
    and after is free, so that plain text such as [a <b or c> d] is pasted
    as HTML. *)
Lemma looks_like_html_spec s :
  looks_like_html s = true <->
  exists before slash c body rest,
    s = before ++ "<" ++ slash ++ String c (body ++ ">" ++ rest) /\
    (slash = "" \/ slash = "/") /\ is_letter c = true.
Proof.
  unfold looks_like_html. rewrite RegexFacts.test_spec. split.
  - intros (s0 & s1 & s2 & -> & Hm).
    apply RegexFacts.html_regex_matches in Hm as (slash & c & body & -> & Hs & Hc).
    exists s0, slash, c, body, s2. split; [|auto].
    f_equal. simpl. f_equal. rewrite RegexFacts.append_assoc. f_equal. simpl. f_equal.
    now rewrite RegexFacts.append_assoc.
  - intros (before & slash & c & body & rest & -> & Hs & Hc).
    exists before, ("<" ++ slash ++ String c (body ++ ">")), rest. split.
    + f_equal. simpl. f_equal. rewrite RegexFacts.append_assoc. f_equal. simpl. f_equal.
      now rewrite RegexFacts.append_assoc.
    + apply RegexFacts.html_regex_matches. exists slash, c, body. auto.
Qed.

(** ** [trim] *)

(** The trimmed text is empty exactly when the text is white space. *)
Lemma trim_empty s : String.length (trim s) = 0 <-> all_space s = true.
Proof.
  unfold trim. induction s as [|c s IH]; simpl.
  - split; reflexivity.
  - destruct (is_space c) eqn:Hc; simpl; [exact IH|].
    split; [|discriminate].
    destruct (trim_end s); [rewrite Hc|]; discriminate.
Qed.

Local Open Scope list_scope.

Section Laws.

Context {Editor : Type} `{QuillLib Editor} `{Lodash}.

Implicit Types (st : state Editor) (q : instance Editor).

(** ** The monad *)

Lemma after_nil {B} (x : outcome B * state Editor * list effect) : after [] x = x.
Proof. destruct x as [[r st] e]; reflexivity. Qed.

Lemma after_after {B} e1 e2 (x : outcome B * state Editor * list effect) :
  after e1 (after e2 x) = after (e1 ++ e2) x.
Proof. destruct x as [[r st] e]; simpl; now rewrite app_assoc. Qed.

Lemma bind_ret {A B} (a : A) (k : A -> M Editor B) st : bind (ret a) k st = k a st.
Proof. unfold bind, ret; apply after_nil. Qed.

Lemma bind_gets {A B} (f : state Editor -> A) (k : A -> M Editor B) st :
  bind (gets f) k st = k (f st) st.
Proof. unfold bind, gets; apply after_nil. Qed.

Lemma bind_modify {B} (f : state Editor -> state Editor) (k : unit -> M Editor B) st :
  bind (modify f) k st = k tt (f st).
Proof. unfold bind, modify; apply after_nil. Qed.

Lemma bind_perform {B} (e : effect) (k : unit -> M Editor B) st :
  bind (perform e) k st = after [e] (k tt st).
Proof. reflexivity. Qed.

Lemma bind_throw {A B} (k : A -> M Editor B) st :
  bind (@throw Editor A) k st = (Throw, st, []).
Proof. reflexivity. Qed.

Lemma bind_the_quill {B} (k : instance Editor -> M Editor B) st q :
  quill st = Some q -> bind the_quill k st = k q st.
Proof. intros Hq; unfold bind, the_quill; rewrite Hq; apply after_nil. Qed.

Lemma bind_the_quill_null {B} (k : instance Editor -> M Editor B) st :
  quill st = None -> bind the_quill k st = (Throw, st, []).
Proof. intros Hq; unfold bind, the_quill; now rewrite Hq. Qed.

Lemma bind_the_properties {B} (k : obj -> M Editor B) st p :
  properties st = Some p -> bind the_properties k st = k p st.
Proof. intros Hp; unfold bind, the_properties; rewrite Hp; apply after_nil. Qed.

Lemma bind_assoc {A B C} (m : M Editor A) (k : A -> M Editor B) (j : B -> M Editor C) st :
  bind (bind m k) j st = bind m (fun a => bind (k a) j) st.
Proof.
  unfold bind.
  destruct (m st) as [[[a|] st1] e1]; simpl; [|reflexivity].
  destruct (k a st1) as [[[b|] st2] e2]; simpl; [|reflexivity].
  destruct (j b st2) as [[r st3] e3]; simpl.
  now rewrite app_assoc.
Qed.

(** ** Frames: what a handler leaves alone

    A frame is a relation between the state before, the state after and
    the effects in between that holds of doing nothing and composes.  A
    computation respects it when every run does, thrown or not. *)

Section Respects.

Context (R : state Editor -> state Editor -> list effect -> Prop) `{!Frame R}.

Lemma respects_ret {A} (a : A) : respects R (ret a).
Proof. intro st; apply frame_refl. Qed.

Lemma respects_throw {A} : respects R (@throw Editor A).
Proof. intro st; apply frame_refl. Qed.

Lemma respects_gets {A} (f : state Editor -> A) : respects R (gets f).
Proof. intro st; apply frame_refl. Qed.

Lemma respects_the_quill : respects R the_quill.
Proof.
  intro st; unfold the_quill; destruct (quill st); apply frame_refl.
Qed.

Lemma respects_the_properties : respects R the_properties.
Proof.
  intro st; unfold the_properties; destruct (properties st); apply frame_refl.
Qed.

Lemma respects_bind {A B} (m : M Editor A) (k : A -> M Editor B) :
  respects R m -> (forall a, respects R (k a)) -> respects R (bind m k).
Proof.
  intros Hm Hk st. specialize (Hm st). unfold bind.
  destruct (m st) as [[[a|] st1] e1]; simpl in *; [|exact Hm].
  specialize (Hk a st1).
  destruct (k a st1) as [[r st2] e2]; simpl in *.
  eapply frame_trans; eassumption.
Qed.

Lemma respects_when (b : bool) (m : M Editor unit) :
  respects R m -> respects R (when b m).
Proof. destruct b; simpl; [trivial | intros _; apply respects_ret]. Qed.

Lemma respects_task (m : M Editor unit) : respects R m -> respects R (task m).
Proof.
  intros Hm st. specialize (Hm st). unfold task.
  destruct (m st) as [[r st1] e1]; exact Hm.
Qed.

Lemma respects_for_each {A} (l : list A) (f : A -> M Editor unit) :
  (forall a, respects R (f a)) -> respects R (for_each l f).
Proof.
  intros Hf; induction l as [|a l IH]; simpl.
  - apply respects_ret.
  - apply respects_bind; auto.
Qed.

End Respects.

(** ** Listeners settle

    On a live editor the three listeners return normally, call nothing on
    the editor and touch only the focus flag and the timers. *)

Lemma same_env_refl st : same_env st st.
Proof. repeat split. Qed.

Lemma same_env_trans st1 st2 st3 :
  same_env st1 st2 -> same_env st2 st3 -> same_env st1 st3.
Proof.
  unfold same_env; intros (?&?&?&?&?&?&?) (?&?&?&?&?&?&?).
  repeat split; congruence.
Qed.

Lemma calls_app e1 e2 : calls (e1 ++ e2) = calls e1 ++ calls e2.
Proof. apply filter_app. Qed.

Lemma calls_call e l : is_callback e = false -> calls (e :: l) = e :: calls l.
Proof. intros He; unfold calls; simpl; now rewrite He. Qed.

Lemma settles_ret {A} (a : A) : settles Editor (ret a).
Proof.
  intros st q Hq; exists a, st, []; auto using same_env_refl.
Qed.

Lemma settles_gets {A} (f : state Editor -> A) : settles Editor (gets f).
Proof.
  intros st q Hq; exists (f st), st, []; auto using same_env_refl.
Qed.

Lemma settles_the_quill : settles Editor the_quill.
Proof.
  intros st q Hq; exists q, st, []; unfold the_quill; rewrite Hq.
  auto using same_env_refl.
Qed.

Lemma settles_bind {A B} (m : M Editor A) (k : A -> M Editor B) :
  settles Editor m -> (forall a, settles Editor (k a)) -> settles Editor (bind m k).
Proof.
  intros Hm Hk st q Hq.
  destruct (Hm st q Hq) as (a & st1 & e1 & Em & Hq1 & Henv1 & Hc1).
  destruct (Hk a st1 q Hq1) as (b & st2 & e2 & Ek & Hq2 & Henv2 & Hc2).
  exists b, st2, (e1 ++ e2); unfold bind; rewrite Em, Ek; simpl.
  split; [reflexivity|]. split; [assumption|]. split.
  - apply (same_env_trans Henv1 Henv2).
  - now rewrite calls_app, Hc1, Hc2.
Qed.

Lemma settles_for_each {A} (l : list A) (f : A -> M Editor unit) :
  (forall a, settles Editor (f a)) -> settles Editor (for_each l f).
Proof.
  intros Hf; induction l as [|a l IH]; simpl.
  - apply settles_ret.
  - apply settles_bind; auto.
Qed.

Lemma settles_send c payload : settles Editor (send c payload).
Proof.
  intros st q Hq; exists tt, st, [Send c payload]; auto using same_env_refl.
Qed.

Lemma settles_getQueryable : settles Editor getQueryable.
Proof.
  unfold getQueryable.
  apply settles_bind; [apply settles_the_quill | intros q].
  apply settles_bind; [apply settles_gets | intros v].
  apply settles_ret.
Qed.

Lemma settles_onStudioTextChange : settles Editor onStudioTextChange.
Proof.
  unfold onStudioTextChange.
  apply settles_bind; [apply settles_the_quill | intros q].
  apply settles_bind; [apply settles_getQueryable | intros v].
  apply settles_send.
Qed.

Lemma settles_schedule timer wait : settles Editor (schedule timer wait).
Proof.
  intros st q Hq. eexists tt, _, []. unfold schedule, modify.
  split; [reflexivity|]. simpl. repeat split; assumption.
Qed.

Lemma settles_onFocused : settles Editor onFocused.
Proof.
  unfold onFocused.
  apply settles_bind; [apply settles_getQueryable | intros v].
  apply settles_bind; [apply settles_send | intros _].
  intros st q Hq. eexists tt, _, []. unfold modify.
  split; [reflexivity|]. simpl. repeat split; assumption.
Qed.

Lemma settles_onSelectionChange rng oldRange :
  settles Editor (onSelectionChange rng oldRange).
Proof.
  unfold onSelectionChange.
  apply settles_bind; [apply settles_gets | intros force].
  destruct (force || _); [apply settles_onFocused | apply settles_ret].
Qed.

Lemma settles_run_handler h e : settles Editor (run_handler h e).
Proof.
  destruct h, e; simpl;
    auto using settles_onStudioTextChange, settles_schedule,
               settles_onSelectionChange, settles_ret.
Qed.

Lemma settles_emit e : settles Editor (emit e).
Proof.
  unfold emit.
  apply settles_bind.
  - intros st q Hq; exists tt, st, [Callback e]; auto using same_env_refl.
  - intros _. apply settles_bind; [apply settles_the_quill | intros q].
    apply settles_for_each; intros l; apply settles_run_handler.
Qed.

(** A call of a mutator on a live editor: the call, then callbacks. *)
Lemma quill_do_live e f st q :
  quill st = Some q ->
  exists st' cbs,
    quill_do e f st = (Return tt, st', e :: cbs) /\
    quill st' = Some {| inst_id := inst_id q; ed := fst (f (ed q));
                        listeners := listeners q |} /\
    same_env st st' /\ calls cbs = [].
Proof.
  intros Hq. unfold quill_do.
  rewrite (bind_the_quill _ _ Hq), bind_perform, bind_modify.
  set (q' := {| inst_id := inst_id q; ed := fst (f (ed q));
                listeners := listeners q |}).
  destruct (@settles_for_each _ (snd (f (ed q))) emit settles_emit
              (with_quill (Some q') st) q' eq_refl)
    as ([] & st' & cbs & E & Hq' & Henv & Hc).
  exists st', cbs. rewrite E. simpl. repeat split; auto; apply Henv.
Qed.

Lemma bind_returned {A B} (m : M Editor A) (k : A -> M Editor B) st a st1 e1 :
  m st = (Return a, st1, e1) -> bind m k st = after e1 (k a st1).
Proof. intros E; unfold bind; now rewrite E. Qed.

(** ** [updateText] on a live editor *)

Lemma content_calls_calls effs : content_calls (calls effs) = content_calls effs.
Proof.
  unfold content_calls, calls.
  induction effs as [|e effs IH]; simpl; [reflexivity|].
  destruct e; simpl; now rewrite IH.
Qed.

Lemma entry_point_content text : is_content_call (entry_point text) = true.
Proof.
  destruct text; simpl; try reflexivity.
  destruct (looks_like_html s); reflexivity.
Qed.

Lemma entry_point_call text : is_callback (entry_point text) = false.
Proof.
  destruct text; simpl; try reflexivity.
  destruct (looks_like_html s); reflexivity.
Qed.

(** What [updateText] does with a payload that passes its guard: the
    calls it makes on the editor, in order, and the editor it leaves. *)
Lemma updateText_live text st q :
  quill st = Some q -> truthy text = true ->
  let disable :=
    negb (truthy (opt_member "readOnly" (properties st)))
    && negb (q_hasFocus (ed q)) in
  let through (b : bool) (f : Editor -> Editor * list qevent) (x : Editor) :=
    if b then fst (f x) else x in
  exists st' effs,
    updateText text st = (Return tt, st', effs) /\
    calls effs =
      (if disable then [Enable false] else [])
        ++ [entry_point text]
        ++ (if disable then [Enable true] else []) /\
    quill st' =
      Some {| inst_id := inst_id q;
              ed := through disable (q_enable true)
                      (fst (entry_method text
                              (through disable (q_enable false) (ed q))));
              listeners := listeners q |} /\
    same_env st st'.
Proof.
  intros Hq Ht disable through. unfold updateText. rewrite Ht.
  change (negb true) with false. cbv iota.
  rewrite bind_gets.
  assert (Hd : forall (k : bool -> M Editor unit),
             bind (if negb (truthy (opt_member "readOnly" (properties st)))
                   then bind the_quill
                          (fun q0 => ret (negb (q_hasFocus (ed q0))))
                   else ret false) k st = k disable st).
  { intros k. subst disable.
    destruct (truthy (opt_member "readOnly" (properties st))); simpl.
    - apply bind_ret.
    - rewrite bind_assoc, (bind_the_quill _ _ Hq). apply bind_ret. }
  rewrite Hd. clear Hd.
  assert (Hentry :
            match text with
            | VStr s =>
                if looks_like_html s
                then quill_do (PasteHTML s) (q_dangerouslyPasteHTML s)
                else quill_do (SetText s) (q_setText s)
            | _ => quill_do (SetContents text) (q_setContents text)
            end = quill_do (entry_point text) (entry_method text)).
  { destruct text; try reflexivity. simpl.
    destruct (looks_like_html s); reflexivity. }
  rewrite Hentry. clear Hentry.
  pose proof (entry_point_call text) as Hcall.
  destruct disable; simpl when; subst through; cbv beta iota.
  - destruct (quill_do_live (Enable false) (q_enable false) _ Hq)
      as (st1 & c1 & E1 & Hq1 & Henv1 & Hc1).
    destruct (quill_do_live (entry_point text) (entry_method text) _ Hq1)
      as (st2 & c2 & E2 & Hq2 & Henv2 & Hc2).
    destruct (quill_do_live (Enable true) (q_enable true) _ Hq2)
      as (st3 & c3 & E3 & Hq3 & Henv3 & Hc3).
    simpl in Hq2, Hq3.
    rewrite (bind_returned _ _ _ E1), (bind_returned _ _ _ E2), E3.
    eexists _, _. split; [reflexivity|]. split; [|split].
    + unfold after. rewrite !calls_app, !calls_call, Hc1, Hc2, Hc3 by easy.
      reflexivity.
    + exact Hq3.
    + eauto using same_env_trans.
  - destruct (quill_do_live (entry_point text) (entry_method text) _ Hq)
      as (st2 & c2 & E2 & Hq2 & Henv2 & Hc2).
    rewrite bind_ret, (bind_returned _ _ _ E2).
    eexists _, _. split; [|split; [|split]].
    + unfold ret, after. rewrite app_nil_r. reflexivity.
    + rewrite calls_call, Hc2 by easy. reflexivity.
    + exact Hq2.
    + exact Henv2.
Qed.

(** The guard of [updateText]: a falsy payload is dropped at once. *)
Lemma updateText_falsy text st :
  truthy text = false -> updateText text st = (Return tt, st, []).
Proof. intros Ht; unfold updateText; now rewrite Ht. Qed.

(** While [quill] is null, [updateText] throws as soon as it is given
    something to apply. *)
Lemma quill_do_null e f st :
  quill st = None -> quill_do e f st = (Throw, st, []).
Proof. intros Hq; unfold quill_do; now rewrite bind_the_quill_null. Qed.

(** C2: a payload that passes the guard of updateText is applied through
    exactly one entry point of the editor: a string the HTML regular
    expression matches through dangerouslyPasteHTML, any other string
    through setText, and a value that is not a string through
    setContents.  So "<b>hi</b>" is pasted as HTML and "hi" is set as
    text. *)
Theorem updateText_routes_by_shape st q text :
  quill st = Some q -> truthy text = true ->
  fst (fst (updateText text st)) = Return tt /\
  (forall s, text = VStr s -> looks_like_html s = true ->
     content_calls (snd (updateText text st)) = [PasteHTML s]) /\
  (forall s, text = VStr s -> looks_like_html s = false ->
     content_calls (snd (updateText text st)) = [SetText s]) /\
  (is_string text = false ->
     content_calls (snd (updateText text st)) = [SetContents text]) /\
  content_calls (snd (updateText (VStr "<b>hi</b>") st))
    = [PasteHTML "<b>hi</b>"] /\
  content_calls (snd (updateText (VStr "hi") st)) = [SetText "hi"].
Proof.
  intros Hq Ht.
  assert (Hroute : forall t, truthy t = true ->
            fst (fst (updateText t st)) = Return tt /\
            content_calls (snd (updateText t st)) = [entry_point t]).
  { intros t Htt.
    destruct (updateText_live t st Hq Htt) as (st' & effs & E & Hc & _).
    rewrite E; simpl. split; [reflexivity|].
    rewrite <- content_calls_calls, Hc.
    pose proof (entry_point_content t) as He.
    unfold content_calls.
    destruct (_ && _); simpl; rewrite He; reflexivity. }
  destruct (Hroute text Ht) as [Hret Hcalls].
  split; [exact Hret|].
  split; [|split; [|split; [|split]]].
  - intros s -> Hs. rewrite Hcalls. simpl. now rewrite Hs.
  - intros s -> Hs. rewrite Hcalls. simpl. now rewrite Hs.
  - intros Hs. rewrite Hcalls. destruct text; try reflexivity; discriminate.
  - apply (Hroute (VStr "<b>hi</b>")). reflexivity.
  - apply (Hroute (VStr "hi")). reflexivity.
Qed.


(** C8: the clearText listener changes nothing at all, whether or not the
    editor exists: updateText returns at once on the empty string.  No
    call reaches the editor, no message is sent, the module state is the
    same. *)
Theorem clearText_changes_nothing st args :
  listen "clearText" args st = (Return tt, st, []).
Proof.
  unfold listen; simpl. rewrite bind_gets.
  destruct (quill st); reflexivity.
Qed.

(** C10: while quill is still null, the listeners setText, setContent,
    clearText and focusText do nothing (they test quill first), and the
    validate listener, which has no such test, throws a TypeError on its
    first dereference of quill. *)
Theorem listeners_before_init st name args :
  quill st = None ->
  (In name ["setText"; "setContent"; "clearText"; "focusText"] ->
   listen name args st = (Return tt, st, [])) /\
  listen "validate" args st = (Throw, st, []).
Proof.
  intros Hq. split.
  - intros [<-|[<-|[<-|[<-|[]]]]]; unfold listen; simpl;
      rewrite bind_gets, Hq; reflexivity.
  - unfold listen; simpl. unfold validate.
    now rewrite bind_the_quill_null.
Qed.

(** ** [validate] *)

Lemma lookup_assign k v (o : obj) : lookup k (assign k v o) = v.
Proof.
  induction o as [|[k' v'] o IH]; simpl.
  - now rewrite String.eqb_refl.
  - destruct (k' =? k)%string eqn:E; simpl.
    + now rewrite String.eqb_refl.
    + now rewrite E.
Qed.

Lemma set_member_object k x v :
  is_object v = true -> exists c, set_member k x v = Some c /\ member k c = x.
Proof.
  destruct v; try discriminate; intros _; eexists; (split; [reflexivity|]);
    simpl; apply lookup_assign.
Qed.

Lemma set_member_primitive k x v : is_object v = false -> set_member k x v = None.
Proof. destruct v; try discriminate; reflexivity. Qed.

(** [validate] up to its assignment to [properties.content.ops]. *)
Lemma validate_live st q :
  quill st = Some q ->
  validate st =
    bind the_properties
      (fun p =>
         bind
           match set_member "ops" (arr (q_getContents (ed q)))
                            (lookup "content" p) with
           | None => throw
           | Some content =>
               modify (with_properties (Some (assign "content" content p)))
           end
           (fun _ =>
              bind (send UPDATED (VObj [("queryable", snapshot (ed q) (verdict q))]))
                   (fun _ => send (Named "onValidated")
                                  (arr [snapshot (ed q) (verdict q)]))))
      (with_validationState (verdict q) st).
Proof.
  intros Hq. unfold validate.
  rewrite (bind_the_quill _ _ Hq), !bind_modify.
  unfold getQueryable. rewrite bind_assoc.
  rewrite bind_the_quill with (q := q) by exact Hq.
  rewrite bind_assoc, bind_gets, bind_ret.
  reflexivity.
Qed.

Lemma validate_structured st q p :
  quill st = Some q -> properties st = Some p ->
  is_object (lookup "content" p) = true ->
  exists content,
    set_member "ops" (arr (q_getContents (ed q))) (lookup "content" p)
      = Some content /\
    validate st =
      (Return tt,
       with_properties (Some (assign "content" content p))
         (with_validationState (verdict q) st),
       [Send UPDATED (VObj [("queryable", snapshot (ed q) (verdict q))]);
        Send (Named "onValidated") (arr [snapshot (ed q) (verdict q)])]).
Proof.
  intros Hq Hp Hc.
  destruct (set_member_object "ops" (arr (q_getContents (ed q))) _ Hc)
    as (content & Hset & _).
  exists content. split; [exact Hset|].
  rewrite (validate_live _ Hq).
  rewrite bind_the_properties with (p := p) by exact Hp.
  rewrite Hset. reflexivity.
Qed.

Lemma validate_unstructured st q :
  quill st = Some q ->
  (properties st = None \/
   exists p, properties st = Some p /\ is_object (lookup "content" p) = false) ->
  validate st = (Throw, with_validationState (verdict q) st, []).
Proof.
  intros Hq Hp. rewrite (validate_live _ Hq).
  destruct Hp as [Hp | (p & Hp & Hc)].
  - unfold bind at 1, the_properties. simpl. now rewrite Hp.
  - rewrite bind_the_properties with (p := p) by exact Hp.
    now rewrite (set_member_primitive _ _ _ Hc).
Qed.

Lemma validate_null st : quill st = None -> validate st = (Throw, st, []).
Proof. intros Hq; unfold validate; now rewrite bind_the_quill_null. Qed.

Lemma validate_verdict st q :
  quill st = Some q -> validationState (snd (fst (validate st))) = verdict q.
Proof.
  intros Hq.
  destruct (properties st) as [p|] eqn:Hp.
  - destruct (is_object (lookup "content" p)) eqn:Hc.
    + destruct (validate_structured st Hq Hp Hc) as (c & _ & E).
      now rewrite E.
    + rewrite (validate_unstructured st Hq); [reflexivity|].
      right; exists p; auto.
  - rewrite (validate_unstructured st Hq); [reflexivity|]. now left.
Qed.

(** What validate does on an initialised editor: every call sets
    validationState.validated to true and validationState.isEmpty to true
    exactly when the text of the editor, trimmed, has length zero; when
    moreover the stored properties carry an object as content, validate
    returns normally and sends exactly two messages, UPDATED and
    onValidated, both carrying the snapshot with these flags. *)
Theorem validate_flags_and_events st q :
  quill st = Some q ->
  validated (validationState (snd (fst (validate st)))) = true /\
  (isEmpty (validationState (snd (fst (validate st)))) = true <->
   String.length (trim (q_getText (ed q))) = 0) /\
  (forall p,
     properties st = Some p -> is_object (lookup "content" p) = true ->
     fst (fst (validate st)) = Return tt /\
     snd (validate st) =
       [Send UPDATED
          (VObj [("queryable",
                  snapshot (ed q) (validationState (snd (fst (validate st)))))]);
        Send (Named "onValidated")
          (arr [snapshot (ed q) (validationState (snd (fst (validate st))))])]).
Proof.
  intros Hq. rewrite (validate_verdict st Hq).
  split; [reflexivity|]. split.
  - simpl. apply Nat.eqb_eq.
  - intros p Hp Hc.
    destruct (validate_structured st Hq Hp Hc) as (c & _ & E).
    rewrite E. split; reflexivity.
Qed.

(** C9: validate assigns properties.content.ops without a test.  When
    the stored content is an object the assignment succeeds: validate
    returns, and afterwards properties.content.ops is the ops of the
    content of the snapshot it sent, the current document of the editor.
    When the stored properties or their content are absent, or the
    content is a string, validate throws a TypeError and sends nothing. *)
Theorem validate_assigns_ops st :
  (forall q p,
     quill st = Some q ->
     properties st = Some p -> is_object (lookup "content" p) = true ->
     exists st' snap,
       validate st =
         (Return tt, st',
          [Send UPDATED (VObj [("queryable", snap)]);
           Send (Named "onValidated") (arr [snap])]) /\
       member "ops" (member "content" snap) = arr (q_getContents (ed q)) /\
       member "ops" (opt_member "content" (properties st'))
         = member "ops" (member "content" snap)) /\
  ((properties st = None \/
    exists p, properties st = Some p /\
              (lookup "content" p = VUndefined \/
               lookup "content" p = VNull \/
               exists s, lookup "content" p = VStr s)) ->
   fst (fst (validate st)) = Throw /\ snd (validate st) = []).
Proof.
  split.
  - intros q p Hq Hp Hc.
    destruct (validate_structured st Hq Hp Hc) as (c & Hset & E).
    destruct (set_member_object "ops" (arr (q_getContents (ed q))) _ Hc)
      as (c' & Hset' & Hops).
    assert (c' = c) by congruence; subst c'.
    eexists _, _. split; [exact E|]. split; [reflexivity|].
    simpl. now rewrite lookup_assign.
  - intros Hp. destruct (quill st) as [q|] eqn:Hq.
    + rewrite (validate_unstructured st Hq); [split; reflexivity|].
      destruct Hp as [Hp | (p & Hp & Hc)]; [now left|].
      right; exists p; split; [exact Hp|].
      destruct Hc as [-> | [-> | (s & ->)]]; reflexivity.
    + rewrite (validate_null st Hq). split; reflexivity.
Qed.

(** ** [updateQuill] *)

Lemma same_env_properties st st' :
  same_env st st' -> properties st' = properties st.
Proof. now intros [? _]. Qed.

Lemma updateQuill_live st q p :
  quill st = Some q -> properties st = Some p ->
  exists st' effs ed',
    updateQuill st = (Return tt, st', effs) /\
    calls effs = refresh_calls p (q_hasFocus (ed q)) /\
    quill st' = Some {| inst_id := inst_id q; ed := ed';
                        listeners := listeners q |} /\
    same_env st st'.
Proof.
  intros Hq Hp. unfold updateQuill, refresh_calls.
  rewrite bind_gets, Hp. simpl opt_member.
  destruct (truthy (lookup "content" p)) eqn:Hc; simpl when.
  - destruct (updateText_live _ st Hq Hc) as (st1 & e1 & E1 & Hc1 & Hq1 & Henv1).
    rewrite (bind_returned _ _ _ E1).
    rewrite bind_the_quill with (q := _) by exact Hq1.
    rewrite bind_the_properties with (p := p)
      by (rewrite (same_env_properties Henv1); exact Hp).
    destruct (quill_do_live (Enable (negb (truthy (lookup "readOnly" p))))
                (q_enable (negb (truthy (lookup "readOnly" p)))) _ Hq1)
      as (st2 & c2 & E2 & Hq2 & Henv2 & Hc2).
    rewrite E2. eexists _, _, _. split; [reflexivity|]. split; [|split].
    + rewrite calls_app, Hc1, calls_call, Hc2 by reflexivity.
      rewrite Hp. simpl opt_member.
      destruct (negb (truthy (lookup "readOnly" p)) && negb (q_hasFocus (ed q)));
        reflexivity.
    + exact Hq2.
    + eauto using same_env_trans.
  - rewrite bind_ret.
    rewrite bind_the_quill with (q := q) by exact Hq.
    rewrite bind_the_properties with (p := p) by exact Hp.
    destruct (quill_do_live (Enable (negb (truthy (lookup "readOnly" p))))
                (q_enable (negb (truthy (lookup "readOnly" p)))) _ Hq)
      as (st2 & c2 & E2 & Hq2 & Henv2 & Hc2).
    rewrite E2. eexists _, _, _. split; [reflexivity|]. split; [|split].
    + rewrite calls_call, Hc2 by reflexivity. reflexivity.
    + exact Hq2.
    + exact Henv2.
Qed.

(** Without an editor a refresh throws before it has done anything. *)
Lemma updateText_null text st :
  quill st = None -> truthy text = true ->
  updateText text st = (Throw, st, []).
Proof.
  intros Hq Ht. unfold updateText. rewrite Ht.
  change (negb true) with false. cbv iota. rewrite bind_gets.
  destruct (truthy (opt_member "readOnly" (properties st))); simpl.
  - rewrite bind_ret. simpl when. rewrite bind_ret.
    destruct text; try discriminate;
      try (unfold bind; rewrite (quill_do_null _ _ _ Hq); reflexivity).
    destruct (looks_like_html s);
      unfold bind; rewrite (quill_do_null _ _ _ Hq); reflexivity.
  - rewrite bind_assoc. now rewrite bind_the_quill_null.
Qed.

Lemma updateQuill_null st : quill st = None -> updateQuill st = (Throw, st, []).
Proof.
  intros Hq. unfold updateQuill. rewrite bind_gets.
  destruct (truthy (opt_member "content" (properties st))) eqn:Hc; simpl when.
  - unfold bind at 1. now rewrite (updateText_null _ _ Hq Hc).
  - rewrite bind_ret. now rewrite bind_the_quill_null.
Qed.

(** ** [initQuill]

    An initialisation is a fixed prologue, which cannot throw, followed by
    a refresh of the new editor. *)

Lemma bind_quill_on {B} ev h (k : unit -> M Editor B) st q :
  quill st = Some q ->
  bind (quill_on ev h) k st =
    after [On ev h]
      (k tt (with_quill
               (Some {| inst_id := inst_id q; ed := ed q;
                        listeners := listeners q ++ [(ev, h)] |}) st)).
Proof.
  intros Hq. unfold quill_on.
  rewrite bind_assoc, (bind_the_quill _ _ Hq), bind_assoc, bind_perform.
  now rewrite bind_modify.
Qed.

Lemma bind_quill_off {B} ev (k : unit -> M Editor B) st q :
  quill st = Some q ->
  bind (quill_off ev) k st =
    after [Off ev]
      (k tt (with_quill
               (Some {| inst_id := inst_id q; ed := ed q;
                        listeners :=
                          filter (fun l => negb (evname_eqb (fst l) ev))
                                 (listeners q) |}) st)).
Proof.
  intros Hq. unfold quill_off.
  rewrite bind_assoc, (bind_the_quill _ _ Hq), bind_assoc, bind_perform.
  now rewrite bind_modify.
Qed.

Lemma bind_fresh_id {B} (k : nat -> M Editor B) st :
  bind fresh_id k st = k (fresh st) (with_fresh (S (fresh st)) st).
Proof.
  unfold fresh_id.
  now rewrite bind_assoc, bind_gets, bind_assoc, bind_modify, bind_ret.
Qed.

Lemma bind_new_quill {B} o (k : unit -> M Editor B) st :
  bind (new_quill o) k st =
    after [NewQuill o]
      (k tt (with_quill
               (Some {| inst_id := fresh st; ed := q_new o; listeners := [] |})
               (with_fresh (S (fresh st)) st))).
Proof.
  unfold new_quill.
  rewrite bind_assoc, bind_fresh_id, bind_assoc, bind_perform.
  now rewrite bind_modify.
Qed.

Lemma initQuill_eq st :
  initQuill st = after (init_effects st) (updateQuill (init_state st)).
Proof.
  unfold initQuill, init_effects, init_state, init_listeners, init_debounced.
  rewrite !bind_gets.
  assert (Hold :
    forall B (k : unit -> M Editor B),
      bind (when (is_some (quill st))
              (bind (quill_off text_change)
                 (fun _ => bind (quill_off selection_change)
                             (fun _ => perform ResetBody)))) k st
      = after (if is_some (quill st)
               then [Off text_change; Off selection_change; ResetBody]
               else [])
          (k tt (with_quill
                   (option_map
                      (fun q => {| inst_id := inst_id q; ed := ed q;
                                   listeners :=
                                     filter
                                       (fun l => negb (evname_eqb (fst l)
                                                         selection_change))
                                       (filter
                                          (fun l => negb (evname_eqb (fst l)
                                                            text_change))
                                          (listeners q)) |})
                      (quill st)) st))).
  { intros B k. destruct (quill st) as [q|] eqn:Hq; simpl.
    - rewrite bind_assoc, (bind_quill_off _ _ _ Hq), bind_assoc.
      erewrite bind_quill_off by reflexivity.
      rewrite bind_perform, !after_after. reflexivity.
    - rewrite bind_ret, after_nil.
      destruct st; simpl in Hq; subst; reflexivity. }
  rewrite Hold. clear Hold.
  rewrite bind_new_quill, bind_gets. simpl isStudio.
  destruct (truthy (isStudio st)); simpl when;
    destruct (truthy (opt_member "debounce" (properties st))); simpl when;
    repeat first
      [ rewrite bind_assoc
      | rewrite bind_ret
      | rewrite bind_perform
      | rewrite bind_fresh_id
      | erewrite bind_quill_on by reflexivity ];
    rewrite !after_after, <- ?app_assoc;
    f_equal; try reflexivity; f_equal; destruct st; reflexivity.
Qed.

Lemma calls_init_effects st : calls (init_effects st) = init_effects st.
Proof.
  unfold init_effects.
  destruct (is_some (quill st)), (truthy (isStudio st)),
    (truthy (opt_member "debounce" (properties st))); reflexivity.
Qed.

Lemma initQuill_runs st p :
  properties st = Some p ->
  exists st' effs ed',
    initQuill st = (Return tt, st', effs) /\
    calls effs =
      init_effects st ++ refresh_calls p (q_hasFocus (q_new (init_options (Some p)))) /\
    quill st' = Some {| inst_id := fresh st; ed := ed';
                        listeners := init_listeners st |} /\
    properties st' = Some p.
Proof.
  intros Hp. rewrite initQuill_eq.
  destruct (@updateQuill_live (init_state st) _ p eq_refl Hp)
    as (st' & effs & ed' & E & Hc & Hq & Henv).
  rewrite E. simpl in Hc, Hq. rewrite Hp in Hc.
  eexists _, _, _. split; [reflexivity|]. split; [|split].
  - now rewrite calls_app, calls_init_effects, Hc.
  - exact Hq.
  - rewrite (same_env_properties Henv). exact Hp.
Qed.

(** ** [onUpdate] *)

(** Under its own keys, and under every name that is not inherited, an
    object is read as [lookup] reads it. *)
Lemma equal_at_own k (o : obj) v :
  has_own k o = true \/ inherited k = false ->
  equal_at k o v = isEqual (lookup k o) v.
Proof.
  unfold equal_at, inherited. destruct (has_own k o) eqn:Ho; [reflexivity|].
  intros [? | Hi]; [discriminate|].
  apply orb_false_iff in Hi as [-> ->].
  replace (lookup k o) with VUndefined; [reflexivity|].
  induction o as [|[k' x] o IH]; [reflexivity|].
  simpl in *. apply orb_false_iff in Ho as [-> Ho]. auto.
Qed.

Lemma has_own_keys k (o : obj) : has_own k o = true <-> In k (keys o).
Proof.
  induction o as [|[k' v] o IH]; simpl.
  - split; [discriminate | intros []].
  - rewrite orb_true_iff, IH, String.eqb_eq. reflexivity.
Qed.

(** What the lookup [mutableProperties[key]] finds truthy: the two keys
    of the table, and every name a plain object inherits. *)
Lemma mutable_key k :
  truthy_at k mutableProperties = true <->
  k = "content" \/ k = "readOnly" \/ inherited k = true.
Proof.
  unfold truthy_at, mutableProperties; cbn [has_own lookup].
  destruct ("content" =? k)%string eqn:E1.
  - apply String.eqb_eq in E1. cbn [orb truthy]. split; auto.
  - destruct ("readOnly" =? k)%string eqn:E2.
    + apply String.eqb_eq in E2. cbn [orb truthy]. split; auto.
    + apply String.eqb_neq in E1, E2. cbn [orb].
      split; [auto | intros [?|[?|?]]; congruence].
Qed.

Lemma only_mutable_spec l :
  forallb (fun key => truthy_at key mutableProperties) l = true <->
  Forall (fun k => k = "content" \/ k = "readOnly" \/ inherited k = true) l.
Proof.
  rewrite forallb_forall, Forall_forall.
  split; intros Hl k Hk; apply mutable_key; auto.
Qed.

Lemma only_mutable_table l :
  Forall (fun k => k = "content" \/ k = "readOnly") l ->
  forallb (fun key => truthy_at key mutableProperties) l = true.
Proof.
  intros Hl. apply only_mutable_spec.
  eapply Forall_impl; [|exact Hl]. intros k [?|?]; auto.
Qed.

Lemma onUpdate_unfold st old pd :
  properties st = Some old ->
  onUpdate pd st =
    if (List.length (diffKeys old pd) =? 0)%nat then (Return tt, st, [])
    else if forallb (fun key => truthy_at key mutableProperties)
                    (diffKeys old pd)
         then updateQuill (with_properties (Some pd) st)
         else initQuill (with_properties (Some pd) st).
Proof.
  intros Hp. unfold onUpdate. rewrite bind_gets, Hp, bind_ret.
  destruct (List.length (diffKeys old pd) =? 0)%nat; [reflexivity|].
  rewrite bind_modify.
  destruct (forallb _ _); reflexivity.
Qed.

Lemma content_calls_init_effects st : content_calls (init_effects st) = [].
Proof.
  unfold init_effects.
  destruct (is_some (quill st)), (truthy (isStudio st)),
    (truthy (opt_member "debounce" (properties st))); reflexivity.
Qed.

Lemma content_calls_refresh_falsy p b :
  truthy (lookup "content" p) = false -> content_calls (refresh_calls p b) = [].
Proof. intros Hc; unfold refresh_calls; now rewrite Hc. Qed.

Lemma content_calls_app e1 e2 :
  content_calls (e1 ++ e2) = content_calls e1 ++ content_calls e2.
Proof. apply filter_app. Qed.

Lemma onUpdate_unloaded st pd :
  properties st = None -> snd (onUpdate pd st) = [].
Proof.
  intros Hp. unfold onUpdate. rewrite bind_gets, Hp.
  destruct (keys pd); [now rewrite bind_ret | reflexivity].
Qed.

(** C5 (amended): a content payload that is absent or empty (undefined,
    null, the empty string, or another falsy value) is dropped without a
    trace by updateText and by the setText and setContent listeners: they
    return normally, the module state is unchanged, nothing is called on
    the editor and nothing is sent.  A property update whose content is
    such a value applies no content to the editor.  Nothing but presence
    is tested. *)
Theorem falsy_payload_is_dropped st text :
  truthy text = false ->
  updateText text st = (Return tt, st, []) /\
  (forall args, destructure "text" args = text ->
     listen "setText" args st = (Return tt, st, [])) /\
  (forall args, destructure "content" args = text ->
     listen "setContent" args st = (Return tt, st, [])) /\
  (forall pd, lookup "content" pd = text ->
     content_calls (snd (onUpdate pd st)) = []).
Proof.
  intros Ht. split; [now apply updateText_falsy|].
  split; [|split].
  - intros args Ha. unfold listen; simpl. rewrite bind_gets, Ha.
    destruct (quill st); simpl; [now apply updateText_falsy | reflexivity].
  - intros args Ha. unfold listen; simpl. rewrite bind_gets, Ha.
    destruct (quill st); simpl; [now apply updateText_falsy | reflexivity].
  - intros pd Hc. rewrite <- Hc in Ht.
    destruct (properties st) as [old|] eqn:Hp;
      [|now rewrite (onUpdate_unloaded _ _ Hp)].
    rewrite onUpdate_unfold with (old := old) by exact Hp.
    destruct (_ =? 0)%nat; [reflexivity|].
    destruct (forallb _ _).
    + destruct (quill st) as [q|] eqn:Hq.
      * destruct (@updateQuill_live (with_properties (Some pd) st) q pd
                    Hq eq_refl)
          as (st' & effs & ed' & E & Hcalls & _).
        rewrite E; simpl snd.
        rewrite <- content_calls_calls, Hcalls.
        now apply content_calls_refresh_falsy.
      * now rewrite updateQuill_null.
    + destruct (@initQuill_runs (with_properties (Some pd) st) pd eq_refl)
        as (st' & effs & ed' & E & Hcalls & _).
      rewrite E; simpl snd.
      rewrite <- content_calls_calls, Hcalls, content_calls_app.
      rewrite content_calls_init_effects.
      now apply content_calls_refresh_falsy.
Qed.

(** ** Frames of the whole adapter

    A frame that holds of the few atomic steps below holds of every
    handler of the source, and so of every turn of the event loop that is
    not a window blur. *)

Section Everywhere.

Context (R : state Editor -> state Editor -> list effect -> Prop)
        `{!Atoms R}.

Ltac rapply lem := apply lem; try typeclasses eauto.

Lemma frame_after {B} st st1 e1 (x : outcome B * state Editor * list effect) :
  R st st1 e1 -> R st1 (snd (fst x)) (snd x) ->
  R st (snd (fst (after e1 x))) (snd (after e1 x)).
Proof.
  destruct x as [[r s] e]; simpl. apply frame_trans.
Qed.

Lemma frame_silent st st1 st2 e :
  R st st1 [] -> R st1 st2 e -> R st st2 e.
Proof. intros H1 H2. apply (frame_trans _ _ _ _ _ H1 H2). Qed.

Lemma respects_perform e :
  is_focus_send e = false -> is_emission e = false ->
  respects R (perform e).
Proof. intros H1 H2 st. now apply at_effect. Qed.

Lemma respects_emits evs st q :
  quill st = Some q ->
  R st (snd (fst (for_each evs emit st))) (snd (for_each evs emit st)).
Proof.
  revert st. induction evs as [|e evs IH]; intros st Hq; simpl.
  - apply frame_refl.
  - destruct (settles_emit e st Hq) as ([] & st1 & e1 & E & Hq1 & _).
    pose proof (at_emit e st Hq) as He. rewrite E in He; simpl in He.
    rewrite (bind_returned _ _ _ E).
    apply frame_after with st1; auto.
Qed.

Lemma respects_quill_do e f :
  is_focus_send e = false -> is_emission e = false ->
  respects R (quill_do e f).
Proof.
  intros H1 H2 st. destruct (quill st) as [q|] eqn:Hq.
  - unfold quill_do.
    rewrite (bind_the_quill _ _ Hq), bind_perform, bind_modify.
    apply frame_after with st; [now apply at_effect|].
    eapply frame_silent;
      [apply (at_editor st (fst (f (ed q))) Hq)|].
    eapply respects_emits. reflexivity.
  - rewrite (quill_do_null _ _ _ Hq). apply frame_refl.
Qed.

Lemma respects_getQueryable : respects R getQueryable.
Proof.
  unfold getQueryable.
  rapply respects_bind; [rapply respects_the_quill | intros q].
  rapply respects_bind; [rapply respects_gets | intros v].
  rapply respects_ret.
Qed.

Lemma respects_modify_validation f :
  respects R (modify (fun st => with_validationState (f st) st)).
Proof. intro st. apply at_validation. Qed.

Lemma respects_validate : respects R validate.
Proof.
  unfold validate.
  rapply respects_bind; [rapply respects_the_quill | intros q].
  rapply respects_bind; [apply respects_modify_validation | intros _].
  rapply respects_bind; [apply respects_modify_validation | intros _].
  rapply respects_bind; [apply respects_getQueryable | intros v].
  rapply respects_bind; [rapply respects_the_properties | intros p].
  rapply respects_bind.
  - destruct (set_member _ _ _); [|rapply respects_throw].
    intro st. apply at_properties.
  - intros _. rapply respects_bind; [|intros _];
      apply respects_perform; reflexivity.
Qed.

Lemma respects_updateText text : respects R (updateText text).
Proof.
  unfold updateText.
  destruct (negb (truthy text)); [rapply respects_ret|].
  rapply respects_bind; [rapply respects_gets | intros p].
  rapply respects_bind.
  { destruct (negb _); [|rapply respects_ret].
    rapply respects_bind; [rapply respects_the_quill | intros q].
    rapply respects_ret. }
  intros d.
  rapply respects_bind;
    [rapply respects_when; now apply respects_quill_do | intros _].
  rapply respects_bind;
    [| intros _; rapply respects_when; now apply respects_quill_do].
  destruct text; try (now apply respects_quill_do).
  destruct (looks_like_html s); now apply respects_quill_do.
Qed.

Lemma respects_updateQuill : respects R updateQuill.
Proof.
  unfold updateQuill.
  rapply respects_bind; [rapply respects_gets | intros p].
  rapply respects_bind;
    [rapply respects_when; apply respects_updateText | intros _].
  rapply respects_bind; [rapply respects_the_quill | intros q].
  rapply respects_bind; [rapply respects_the_properties | intros p'].
  now apply respects_quill_do.
Qed.

Lemma respects_initQuill : respects R initQuill.
Proof.
  intro st. rewrite initQuill_eq.
  apply frame_after with (init_state st); [apply at_init|].
  apply respects_updateQuill.
Qed.

Lemma respects_onLoad pd : respects R (onLoad pd).
Proof.
  unfold onLoad.
  rapply respects_bind; [intro st; apply at_properties | intros _].
  rapply respects_bind; [rapply respects_gets | intros rs].
  destruct rs; try apply respects_initQuill;
    (rapply respects_bind;
     [now apply respects_perform | intros _; intro st; apply at_awaitsDom]).
Qed.

Lemma respects_onUpdate pd : respects R (onUpdate pd).
Proof.
  unfold onUpdate.
  rapply respects_bind; [rapply respects_gets | intros p].
  rapply respects_bind.
  { destruct p; [rapply respects_ret|].
    destruct (keys pd); [rapply respects_ret | rapply respects_throw]. }
  intros changed.
  destruct (_ =? 0)%nat; [rapply respects_ret|].
  rapply respects_bind; [intro st; apply at_properties | intros _].
  destruct (forallb _ _);
    [apply respects_updateQuill | apply respects_initQuill].
Qed.

Lemma respects_listen name args : respects R (listen name args).
Proof.
  unfold listen.
  repeat match goal with
         | |- respects R (if ?b then _ else _) => destruct b
         end;
    try apply respects_validate; try rapply respects_ret;
    (rapply respects_bind; [rapply respects_gets | intros q]);
    rapply respects_when; try apply respects_updateText.
  rapply respects_bind; [now apply respects_quill_do | intros _].
  apply at_pending.
Qed.

Lemma respects_advance dt : respects R (advance dt).
Proof.
  unfold advance.
  rapply respects_bind; [intro st; apply at_now | intros _].
  rapply respects_bind; [rapply respects_gets | intros t].
  rapply respects_bind; [rapply respects_gets | intros ts].
  rapply respects_bind; [intro st; apply at_timers | intros _].
  rapply respects_for_each; intros x.
  rapply respects_bind; [now apply respects_perform | intros _].
  rapply respects_task; apply respects_validate.
Qed.

Lemma respects_handle e : is_blur e = false -> respects R (handle e).
Proof.
  destruct e; simpl; try discriminate; intros _.
  - apply respects_onLoad.
  - apply respects_onUpdate.
  - apply respects_listen.
  - rapply respects_bind; [rapply respects_gets | intros rs].
    destruct rs; try rapply respects_ret.
    rapply respects_bind; [intro st; apply at_readyState | intros _].
    rapply respects_bind; [rapply respects_gets | intros w].
    rapply respects_when; apply respects_initQuill.
  - intro st. apply at_readyState.
  - intro st. rewrite bind_gets.
    destruct (quill st) as [q|] eqn:Hq; [|apply frame_refl].
    rewrite bind_modify.
    eapply frame_silent;
      [apply (at_editor st (fst (act (ed q))) Hq)|].
    eapply respects_emits. reflexivity.
  - rapply respects_bind; [rapply respects_gets | intros q].
    rapply respects_when. now apply respects_quill_do.
  - rapply respects_bind; [rapply respects_gets | intros q].
    rapply respects_when. now apply respects_quill_do.
  - apply respects_advance.
Qed.

Lemma respects_step e st :
  is_blur e = false -> R st (fst (step e st)) (snd (step e st)).
Proof.
  intros He. pose proof (respects_handle e He st) as Hr.
  unfold step. destruct (handle e st) as [[r s] effs]. exact Hr.
Qed.

Lemma respects_run evs st :
  Forall (fun e => is_blur e = false) evs ->
  R st (fst (run evs st)) (snd (run evs st)).
Proof.
  intros Hevs. revert st.
  induction Hevs as [|e evs He Hevs IH]; intros st; simpl.
  - apply frame_refl.
  - pose proof (respects_step e st He) as H1.
    destruct (step e st) as [st1 e1]. specialize (IH st1).
    destruct (run evs st1) as [st2 e2]. simpl in *.
    eapply frame_trans; eassumption.
Qed.

End Everywhere.

(** ** Focus notifications *)

Lemma focus_notifications_app e1 e2 :
  focus_notifications (e1 ++ e2)
  = focus_notifications e1 + focus_notifications e2.
Proof. unfold focus_notifications. now rewrite filter_app, length_app. Qed.

Lemma transitions_app e1 e2 :
  transitions (e1 ++ e2) = transitions e1 + transitions e2.
Proof. unfold transitions. now rewrite filter_app, length_app. Qed.

Lemma onFocused_live st q :
  quill st = Some q ->
  onFocused st =
    (Return tt, with_shouldForceFocus false st,
     [Send (Named "onFocused") (arr [snapshot (ed q) (validationState st)])]).
Proof.
  intros Hq. unfold onFocused, getQueryable.
  rewrite bind_assoc, (bind_the_quill _ _ Hq), bind_assoc, bind_gets, bind_ret.
  reflexivity.
Qed.

Lemma onFocused_null st : quill st = None -> onFocused st = (Throw, st, []).
Proof.
  intros Hq. unfold onFocused, getQueryable.
  now rewrite bind_assoc, bind_the_quill_null.
Qed.

Lemma onSelectionChange_live st q rng oldRange :
  quill st = Some q ->
  onSelectionChange rng oldRange st =
    if shouldForceFocus st || (is_some rng && negb (is_some oldRange))
    then (Return tt, with_shouldForceFocus false st,
          [Send (Named "onFocused")
                (arr [snapshot (ed q) (validationState st)])])
    else (Return tt, st, []).
Proof.
  intros Hq. unfold onSelectionChange. rewrite bind_gets.
  destruct (_ || _); [now apply onFocused_live | reflexivity].
Qed.

#[local] Instance flag_frame_Frame : Frame (Editor := Editor) flag_frame.
Proof.
  split; unfold flag_frame.
  - intros st Hf. now split.
  - intros a b c e1 e2 H1 H2 Hc.
    destruct (H2 Hc) as [Hb He2]. destruct (H1 Hb) as [Ha He1].
    split; [exact Ha|]. rewrite focus_notifications_app. lia.
Qed.

Lemma flag_frame_onFocused : respects flag_frame onFocused.
Proof.
  intros st. destruct (quill st) as [q|] eqn:Hq.
  - rewrite (onFocused_live _ Hq). intros Hf. discriminate.
  - rewrite (onFocused_null _ Hq). apply frame_refl.
Qed.

Lemma flag_frame_run_handler h e : respects flag_frame (run_handler h e).
Proof.
  destruct h; simpl.
  - unfold onStudioTextChange.
    apply respects_bind; [exact _ | apply respects_the_quill; exact _ | intros q].
    apply respects_bind; [exact _ | | intros v].
    + unfold getQueryable.
      apply respects_bind; [exact _ | apply respects_the_quill; exact _ | intros q'].
      apply respects_bind; [exact _ | apply respects_gets; exact _ | intros v].
      apply respects_ret; exact _.
    + intros st Hf. now split.
  - intros st Hf. now split.
  - destruct e; [apply respects_ret; exact _|].
    unfold onSelectionChange.
    apply respects_bind; [exact _ | apply respects_gets; exact _ | intros force].
    destruct (_ || _); [apply flag_frame_onFocused | apply respects_ret; exact _].
Qed.

Lemma flag_frame_emit e : respects flag_frame (emit e).
Proof.
  unfold emit.
  apply respects_bind; [exact _ | | intros _].
  - intros st Hf. now split.
  - apply respects_bind; [exact _ | apply respects_the_quill; exact _ | intros q].
    apply respects_for_each; [exact _|]. intros l. apply flag_frame_run_handler.
Qed.

#[local] Instance text_frame_Frame : Frame (Editor := Editor) text_frame.
Proof.
  split; unfold text_frame.
  - intros st. repeat split.
  - intros a b c e1 e2 (F1 & Q1 & N1 & T1) (F2 & Q2 & N2 & T2).
    rewrite focus_notifications_app, transitions_app.
    repeat split; try congruence; lia.
Qed.

Lemma text_frame_emit : respects text_frame (emit TextChange).
Proof.
  unfold emit.
  apply respects_bind; [exact _ | | intros _].
  - intros st. repeat split.
  - apply respects_bind; [exact _ | apply respects_the_quill; exact _ | intros q].
    apply respects_for_each; [exact _|]. intros [ev h].
    destruct h; simpl.
    + unfold onStudioTextChange.
      apply respects_bind;
        [exact _ | apply respects_the_quill; exact _ | intros q0].
      apply respects_bind; [exact _ | | intros v].
      * unfold getQueryable.
        apply respects_bind;
          [exact _ | apply respects_the_quill; exact _ | intros q'].
        apply respects_bind; [exact _ | apply respects_gets; exact _ | intros v].
        apply respects_ret; exact _.
      * intros st. repeat split.
    + intros st. repeat split.
    + apply respects_ret; exact _.
Qed.

Lemma emit_selection_wired st q rng oldRange :
  quill st = Some q -> wired st ->
  emit (SelectionChange rng oldRange) st =
    after [Callback (SelectionChange rng oldRange)]
          (onSelectionChange rng oldRange st).
Proof.
  intros Hq Hw. unfold emit.
  rewrite bind_perform, (bind_the_quill _ _ Hq).
  simpl evname_of. rewrite (Hw q Hq). simpl.
  f_equal. unfold bind.
  destruct (onSelectionChange rng oldRange st) as [[[[]|] s] e]; simpl;
    [now rewrite app_nil_r | reflexivity].
Qed.

Lemma focus_frame_silent st st' :
  shouldForceFocus st' = shouldForceFocus st -> (wired st -> wired st') ->
  focus_frame st st' [].
Proof.
  intros Hf Hq. split.
  - intros Hf'. split; [congruence | reflexivity].
  - intros Hw. split; [|split].
    + auto.
    + apply Nat.le_refl.
    + unfold pending. rewrite Hf. apply Nat.le_refl.
Qed.

Lemma wired_same_quill st st' : quill st' = quill st -> wired st -> wired st'.
Proof. intros Hq Hw q Hq'. apply Hw. congruence. Qed.

Lemma wired_init_state st : wired (init_state st).
Proof.
  intros q Hq. unfold init_state in Hq. simpl in Hq.
  injection Hq as <-. simpl. unfold init_listeners.
  destruct (truthy (isStudio st)),
    (truthy (opt_member "debounce" (properties st))); reflexivity.
Qed.

Lemma init_effects_silent st :
  focus_notifications (init_effects st) = 0 /\ transitions (init_effects st) = 0.
Proof.
  unfold init_effects.
  destruct (is_some (quill st)), (truthy (isStudio st)),
    (truthy (opt_member "debounce" (properties st))); split; reflexivity.
Qed.

#[local] Instance focus_frame_Frame : Frame (Editor := Editor) focus_frame.
Proof.
  split.
  - intros st. now apply focus_frame_silent.
  - intros a b c e1 e2 [F1 W1] [F2 W2]. split.
    + apply (frame_trans _ _ _ _ _ F1 F2).
    + intros Hw. destruct (W1 Hw) as (Hb & L1 & U1).
      destruct (W2 Hb) as (Hc & L2 & U2).
      rewrite focus_notifications_app, transitions_app.
      split; [exact Hc|]. lia.
Qed.

#[local] Instance focus_frame_Atoms : Atoms (Editor := Editor) focus_frame.
Proof.
  split.
  - exact _.
  - intros e st Hf He. split.
    + intros Hs. split; [exact Hs|].
      unfold focus_notifications; simpl. now rewrite Hf.
    + intros Hw. split; [exact Hw|].
      assert (Ht : is_transition e = false)
        by (destruct e; try reflexivity; discriminate).
      unfold focus_notifications, transitions; simpl. rewrite Hf, Ht.
      simpl. lia.
  - intros e st q Hq. split; [apply flag_frame_emit|].
    intros Hw. destruct e as [|rng oldRange].
    + destruct (text_frame_emit st) as (F & Q & N & T).
      split; [exact (wired_same_quill _ Q Hw)|].
      unfold pending. rewrite F, N, T. lia.
    + rewrite (emit_selection_wired _ _ Hq Hw).
      rewrite (onSelectionChange_live _ _ _ Hq).
      unfold pending.
      destruct (shouldForceFocus st) eqn:Hf, rng, oldRange; simpl;
        (split; [exact Hw|]);
        unfold transitions, focus_notifications; simpl; try rewrite Hf; lia.
  - intros st. rewrite bind_gets.
    destruct (shouldForceFocus st) eqn:Hf; simpl when; [|apply frame_refl].
    destruct (quill st) as [q|] eqn:Hq.
    + rewrite (onFocused_live _ Hq). split.
      * intros Hs; discriminate.
      * intros Hw. split; [exact Hw|].
        unfold transitions, focus_notifications, pending; simpl.
        rewrite Hf. lia.
    + rewrite (onFocused_null _ Hq). apply frame_refl.
  - intros st q ed' Hq. apply focus_frame_silent; [reflexivity|].
    intros Hw q' Hq'. simpl in Hq'. injection Hq' as <-. simpl.
    now apply Hw.
  - intros st. destruct (init_effects_silent st) as [N T]. split.
    + intros Hs. split; [exact Hs | exact N].
    + intros _. split; [apply wired_init_state|].
      unfold pending; simpl. rewrite N, T. lia.
  - intros st p. now apply focus_frame_silent.
  - intros st v. now apply focus_frame_silent.
  - intros st ts. now apply focus_frame_silent.
  - intros st t. now apply focus_frame_silent.
  - intros st r. now apply focus_frame_silent.
  - intros st b. now apply focus_frame_silent.
Qed.

Lemma wired_initial studio rs : wired (@initial Editor studio rs).
Proof. intros q Hq; discriminate. Qed.

Lemma wired_step e st : wired st -> wired (fst (step e st)).
Proof.
  intros Hw. destruct (is_blur e) eqn:He.
  - destruct e; try discriminate. exact Hw.
  - now apply (respects_step (R := focus_frame) e st He).
Qed.

Lemma wired_run evs st : wired st -> wired (fst (run evs st)).
Proof.
  revert st. induction evs as [|e evs IH]; intros st Hw; simpl; [exact Hw|].
  pose proof (wired_step e Hw) as H1.
  destruct (step e st) as [st1 e1]. specialize (IH st1 H1).
  destruct (run evs st1) as [st2 e2]. exact IH.
Qed.

(** C4: focus notifications.  (1) A selection change from no selection to
    some selection makes the listener of initQuill send exactly one
    onFocused and clear the pending-focus flag.  (2) The window blur
    listener sets the flag and does nothing else.  (3) No other turn of
    the event loop sets the flag, and a turn that sends onFocused leaves
    it cleared.  (4) So over any sequence of events without a window blur,
    from any state the component can reach, the onFocused notifications
    are one per such transition reported by the editor, plus at most one
    for a blur that was pending at the start. *)
Theorem focus_notified_once :
  (forall st q rng,
     quill st = Some q ->
     onSelectionChange (Some rng) None st =
       (Return tt, with_shouldForceFocus false st,
        [Send (Named "onFocused")
              (arr [snapshot (ed q) (validationState st)])])) /\
  (forall st, handle WindowBlur st = (Return tt, with_shouldForceFocus true st, [])) /\
  (forall e st,
     is_blur e = false ->
     shouldForceFocus (fst (step e st)) = true ->
     shouldForceFocus st = true /\ focus_notifications (snd (step e st)) = 0) /\
  (forall studio rs history evs,
     Forall (fun e => is_blur e = false) evs ->
     transitions (snd (run evs (fst (run history (initial studio rs)))))
       <= focus_notifications
            (snd (run evs (fst (run history (initial studio rs))))) /\
     focus_notifications (snd (run evs (fst (run history (initial studio rs)))))
       <= transitions (snd (run evs (fst (run history (initial studio rs)))))
          + pending (fst (run history (initial studio rs)))).
Proof.
  split; [|split; [|split]].
  - intros st q rng Hq. rewrite (onSelectionChange_live _ _ _ Hq).
    simpl. now rewrite orb_true_r.
  - reflexivity.
  - intros e st He. apply (respects_step (R := focus_frame) e st He).
  - intros studio rs history evs Hevs.
    set (st := fst (run history (initial studio rs))).
    assert (Hw : wired st) by apply wired_run, wired_initial.
    destruct (respects_run (R := focus_frame) st Hevs) as [_ Hb].
    destruct (Hb Hw) as (_ & L & U). split; [exact L|]. lia.
Qed.

(** ** Editor identities *)

Lemma ids_frame_same st st' effs :
  fresh st' = fresh st ->
  (forall q', quill st' = Some q' ->
     exists q, quill st = Some q /\ inst_id q' = inst_id q) ->
  ids_frame st st' effs.
Proof.
  intros Hf Hq. split; [now rewrite Hf|].
  intros Hi q' Hq'. destruct (Hq q' Hq') as (q & Hq0 & ->).
  rewrite Hf. now apply Hi.
Qed.

#[local] Instance ids_frame_Frame : Frame (Editor := Editor) ids_frame.
Proof.
  split.
  - intros st. apply ids_frame_same; eauto.
  - intros a b c e1 e2 [L1 I1] [L2 I2]. split; [lia | auto].
Qed.

#[local] Instance ids_frame_Atoms : Atoms (Editor := Editor) ids_frame.
Proof.
  split.
  - exact _.
  - intros e st _ _. apply ids_frame_same; eauto.
  - intros e st q Hq.
    destruct (settles_emit e st Hq) as ([] & st' & cbs & E & Hq' & Henv & _).
    rewrite E. simpl. apply ids_frame_same; [apply Henv|].
    intros q' Hq''. exists q. split; congruence.
  - intros st. rewrite bind_gets.
    destruct (shouldForceFocus st); simpl when; [|apply frame_refl].
    destruct (quill st) as [q|] eqn:Hq.
    + rewrite (onFocused_live _ Hq). apply ids_frame_same; eauto.
    + rewrite (onFocused_null _ Hq). apply frame_refl.
  - intros st q ed' Hq. apply ids_frame_same; [reflexivity|].
    intros q' Hq'. simpl in Hq'. injection Hq' as <-. eauto.
  - intros st. split.
    + simpl. destruct (truthy _); lia.
    + intros _ q Hq. simpl in Hq. injection Hq as <-. simpl.
      destruct (truthy _); lia.
  - intros st p. apply ids_frame_same; eauto.
  - intros st v. apply ids_frame_same; eauto.
  - intros st ts. apply ids_frame_same; eauto.
  - intros st t. apply ids_frame_same; eauto.
  - intros st r. apply ids_frame_same; eauto.
  - intros st b. apply ids_frame_same; eauto.
Qed.

Lemma ids_below_fresh_run evs st :
  ids_below_fresh st -> ids_below_fresh (fst (run evs st)).
Proof.
  revert st. induction evs as [|e evs IH]; intros st Hi; simpl; [exact Hi|].
  assert (H1 : ids_below_fresh (fst (step e st))).
  { destruct (is_blur e) eqn:He.
    - destruct e; try discriminate. exact Hi.
    - now apply (respects_step (R := ids_frame) e st He). }
  destruct (step e st) as [st1 e1]. specialize (IH st1 H1).
  destruct (run evs st1) as [st2 e2]. exact IH.
Qed.

(** How a property update is reconciled against the stored properties.
    If no key of the update has a value that differs (by isEqual) from the
    stored one, nothing happens: same state, no effect.  If every changed
    key is one that the lookup mutableProperties[key] finds truthy, the
    update is stored and updateQuill runs: the editor instance and its
    listeners are kept, and the only calls are those of the content and
    read-only refresh.  These keys are content and readOnly, and also
    every name a plain object inherits (toString, constructor, ...).
    Otherwise the update is stored and initQuill runs: a new editor
    instance is created, whose identity is a fresh one (in every state
    the component can reach, the identity of the live editor is below the
    next fresh one). *)
Theorem onUpdate_reconciles st old pd :
  properties st = Some old ->
  (diffKeys old pd = [] -> onUpdate pd st = (Return tt, st, [])) /\
  (diffKeys old pd <> [] ->
   Forall (fun k => k = "content" \/ k = "readOnly" \/ inherited k = true)
          (diffKeys old pd) ->
   onUpdate pd st = updateQuill (with_properties (Some pd) st) /\
   forall q, quill st = Some q ->
     exists st' effs ed',
       onUpdate pd st = (Return tt, st', effs) /\
       properties st' = Some pd /\
       quill st' = Some {| inst_id := inst_id q; ed := ed';
                           listeners := listeners q |} /\
       calls effs = refresh_calls pd (q_hasFocus (ed q))) /\
  (diffKeys old pd <> [] ->
   ~ Forall (fun k => k = "content" \/ k = "readOnly" \/ inherited k = true)
            (diffKeys old pd) ->
   onUpdate pd st = initQuill (with_properties (Some pd) st) /\
   exists st' effs ed',
     onUpdate pd st = (Return tt, st', effs) /\
     properties st' = Some pd /\
     quill st' = Some {| inst_id := fresh st; ed := ed';
                         listeners :=
                           init_listeners (with_properties (Some pd) st) |} /\
     In (NewQuill (init_options (Some pd))) (calls effs)) /\
  (forall studio rs history q,
     quill (fst (run history (initial studio rs))) = Some q ->
     inst_id q < fresh (fst (run history (initial studio rs)))).
Proof.
  intros Hp. split; [|split; [|split]];
    [| | |intros studio rs history; apply ids_below_fresh_run;
           intros q Hq; discriminate];
    rewrite onUpdate_unfold with (old := old) by exact Hp.
  - intros ->. reflexivity.
  - intros Hne Hmut.
    destruct (diffKeys old pd) as [|k l] eqn:Hd; [congruence|].
    simpl Nat.eqb. cbv iota.
    apply only_mutable_spec in Hmut. rewrite Hmut.
    split; [reflexivity|].
    intros q Hq.
    destruct (@updateQuill_live (with_properties (Some pd) st) q pd Hq eq_refl)
      as (st' & effs & ed' & E & Hc & Hq' & Henv).
    exists st', effs, ed'. split; [exact E|]. split; [|split]; auto.
    apply (same_env_properties Henv).
  - intros Hne Hmut.
    destruct (diffKeys old pd) as [|k l] eqn:Hd; [congruence|].
    simpl Nat.eqb. cbv iota.
    destruct (forallb _ (k :: l)) eqn:Hf.
    { exfalso. apply Hmut. now apply only_mutable_spec. }
    split; [reflexivity|].
    destruct (@initQuill_runs (with_properties (Some pd) st) pd eq_refl)
      as (st' & effs & ed' & E & Hc & Hq' & Hp').
    exists st', effs, ed'. split; [exact E|]. split; [exact Hp'|].
    split; [exact Hq'|].
    rewrite Hc. apply in_or_app. left.
    unfold init_effects. apply in_or_app. right. now left.
Qed.

(** ** Debounced validation *)

Lemma validating_app e1 e2 :
  validating (e1 ++ e2) = validating e1 + validating e2.
Proof. unfold validating. now rewrite filter_app, length_app. Qed.

Lemma validating_none effs :
  validating effs = 0 -> validations effs = 0 /\ timeouts effs = 0.
Proof.
  unfold validating, validations, timeouts.
  induction effs as [|e effs IH]; simpl; [auto|].
  destruct (is_validated_send e), (is_timeout e); simpl;
    try discriminate; auto.
Qed.

Section Debounce.

Variables (timer wait : nat) (p : obj).

Lemma schedule_armed st :
  Forall (fun x => fst x = timer) (timers st) ->
  timers (snd (fst (schedule timer wait st))) = [(timer, now st + wait)].
Proof.
  intros Hall. unfold schedule, modify; simpl. f_equal.
  induction Hall as [|x l Hx Hl IH]; simpl; [reflexivity|].
  rewrite Hx, Nat.eqb_refl. exact IH.
Qed.

Lemma armed_next st st' :
  armed timer wait p st ->
  (exists q q', quill st = Some q /\ quill st' = Some q' /\
                listeners q' = listeners q) ->
  properties st' = properties st ->
  (timers st' = timers st \/ exists t, timers st' = [(timer, t)]) ->
  armed timer wait p st'.
Proof.
  intros ((q0 & Hq0 & Hd) & Hp & Hall) (q & q' & Hq & Hq' & Hl) Hp' Ht.
  split; [|split].
  - exists q'. split; [exact Hq'|]. rewrite Hl.
    assert (q = q0) by congruence. now subst.
  - congruence.
  - destruct Ht as [-> | (t & ->)]; [exact Hall|].
    constructor; [reflexivity | constructor].
Qed.

Lemma run_handler_armed ev h e st q :
  quill st = Some q -> In (ev, h) (listeners q) -> armed timer wait p st ->
  rearms timer wait (is_debounced h) st (run_handler h e st).
Proof.
  intros Hq Hin ((q0 & Hq0 & _ & Honly) & Hp & Hall).
  assert (q0 = q) by congruence; subst q0.
  destruct h as [|t w|]; simpl run_handler.
  - unfold onStudioTextChange, getQueryable, send.
    rewrite (bind_the_quill _ _ Hq), bind_assoc, (bind_the_quill _ _ Hq).
    rewrite bind_assoc, bind_gets, bind_ret.
    repeat split; simpl; eauto. contradiction.
  - destruct (Honly _ _ _ Hin) as [-> ->].
    pose proof (schedule_armed st Hall) as Hs.
    unfold schedule, modify in *; simpl in *.
    repeat split; simpl; eauto.
  - destruct e as [|rng oldRange].
    + repeat split; simpl; eauto. contradiction.
    + rewrite (onSelectionChange_live _ _ _ Hq).
      destruct (_ || _); repeat split; simpl; eauto; contradiction.
Qed.

Lemma rearms_then (P1 P2 : Prop) st1 st2 e1 x :
  rearms timer wait P1 st1 (Return tt, st2, e1) ->
  rearms timer wait P2 st2 x ->
  rearms timer wait (P1 \/ P2) st1 (after e1 x).
Proof.
  destruct x as [[r st3] e2].
  intros (_ & (q1 & q2 & Hq1 & Hq2 & Hl) & Hp & Hn & Hv & Ht & Hr)
         (Hret & (q2' & q3 & Hq2' & Hq3 & Hl') & Hp' & Hn' & Hv' & Ht' & Hr').
  simpl in *. assert (q2' = q2) by congruence; subst q2'.
  unfold rearms, after; simpl.
  split; [exact Hret|]. split; [|split; [|split; [|split; [|split]]]].
  - exists q1, q3. repeat split; congruence.
  - congruence.
  - congruence.
  - rewrite validating_app. lia.
  - rewrite Hn in Ht'. destruct Ht' as [E|E]; [|now right].
    rewrite E. exact Ht.
  - rewrite Hn in Ht', Hr'. intros [H1|H2].
    + destruct Ht' as [E|E]; [|exact E]. rewrite E. now apply Hr.
    + now apply Hr'.
Qed.

Lemma rearms_idle st q :
  quill st = Some q -> rearms timer wait False st (Return tt, st, []).
Proof. intros Hq. repeat split; simpl; eauto. contradiction. Qed.

Lemma rearms_weaken (P Q : Prop) st x :
  (Q -> P) -> rearms timer wait P st x -> rearms timer wait Q st x.
Proof.
  intros HPQ (H1 & H2 & H3 & H4 & H5 & H6 & H7).
  repeat split; auto.
Qed.

Lemma rearms_armed P st r st' effs :
  armed timer wait p st -> rearms timer wait P st (r, st', effs) -> armed timer wait p st'.
Proof.
  intros Ha (_ & Hq & Hp & _ & _ & Ht & _). simpl in *.
  eapply armed_next; [exact Ha | exact Hq | exact Hp |].
  destruct Ht as [E|E]; [now left | right; eauto].
Qed.

Lemma handlers_armed e l st q :
  quill st = Some q -> incl l (listeners q) -> armed timer wait p st ->
  rearms timer wait (exists x, In x l /\ is_debounced (snd x)) st
        (for_each l (fun x => run_handler (snd x) e) st).
Proof.
  revert st q. induction l as [|[ev h] l IH]; intros st q Hq Hincl Ha.
  - simpl. apply rearms_weaken with False; [|now apply rearms_idle with q].
    intros (x & [] & _).
  - simpl for_each.
    pose proof (@run_handler_armed ev h e st q Hq
                  (Hincl _ (or_introl eq_refl)) Ha) as Hh.
    destruct (run_handler h e st) as [[r st1] e1] eqn:E.
    pose proof Hh as (Hret & (q1 & q1' & Hq1 & Hq1' & Hl1) & _).
    simpl in Hret, Hq1'. subst r.
    rewrite (bind_returned _ _ _ E).
    assert (Ha1 : armed timer wait p st1) by exact (rearms_armed Ha Hh).
    assert (Hincl1 : incl l (listeners q1')).
    { rewrite Hl1. assert (q1 = q) by congruence. subst q1.
      intros x Hx. apply Hincl. now right. }
    pose proof (IH st1 q1' Hq1' Hincl1 Ha1) as Hrest.
    eapply rearms_weaken; [|exact (rearms_then Hh Hrest)].
    intros (x & [<- | Hx] & Hd); [left; exact Hd | right; eauto].
Qed.

Lemma rearms_effect e st q :
  quill st = Some q -> is_validated_send e || is_timeout e = false ->
  rearms timer wait False st (Return tt, st, [e]).
Proof.
  intros Hq He. unfold rearms, validating; simpl. rewrite He.
  repeat split; eauto. contradiction.
Qed.

Lemma emit_armed e st :
  armed timer wait p st -> rearms timer wait (e = TextChange) st (emit e st).
Proof.
  intros Ha. pose proof Ha as ((q & Hq & Hin & _) & _).
  unfold emit. rewrite bind_perform, (bind_the_quill _ _ Hq).
  assert (Hincl : incl (filter (fun l => evname_eqb (fst l) (evname_of e))
                               (listeners q)) (listeners q))
    by (intros x Hx; apply filter_In in Hx; tauto).
  pose proof (@handlers_armed e _ st q Hq Hincl Ha) as Hh.
  pose proof (@rearms_effect (Callback e) st q Hq eq_refl) as Hc.
  eapply rearms_weaken; [|exact (rearms_then Hc Hh)].
  intros ->. right.
  exists (text_change, DebouncedValidate timer wait).
  split; [|exact I]. apply filter_In. now split.
Qed.

Lemma emits_armed evs st :
  armed timer wait p st -> rearms timer wait (In TextChange evs) st (for_each evs emit st).
Proof.
  revert st. induction evs as [|e evs IH]; intros st Ha.
  - pose proof Ha as ((q & Hq & _) & _). simpl.
    apply rearms_weaken with False; [intros [] | now apply rearms_idle with q].
  - simpl for_each. pose proof (emit_armed e Ha) as He.
    destruct (emit e st) as [[r st1] e1] eqn:E.
    pose proof He as (Hret & _). simpl in Hret. subst r.
    rewrite (bind_returned _ _ _ E).
    pose proof (IH st1 (rearms_armed Ha He)) as Hrest.
    eapply rearms_weaken; [|exact (rearms_then He Hrest)].
    intros [<- | Hin]; [now left | now right].
Qed.

Lemma armed_with_quill st q ed' :
  armed timer wait p st -> quill st = Some q ->
  armed timer wait p (with_quill (Some {| inst_id := inst_id q; ed := ed';
                             listeners := listeners q |}) st).
Proof.
  intros Ha Hq. eapply armed_next; [exact Ha | | reflexivity | now left].
  eexists _, _. split; [exact Hq|]. split; reflexivity.
Qed.

Lemma rearms_with_quill P st q ed' x :
  quill st = Some q ->
  rearms timer wait P (with_quill (Some {| inst_id := inst_id q; ed := ed';
                               listeners := listeners q |}) st) x ->
  rearms timer wait P st x.
Proof.
  intros Hq (H1 & (q1 & q2 & Hq1 & Hq2 & Hl) & H3 & H4 & H5 & H6 & H7).
  simpl in *. injection Hq1 as <-. simpl in Hl.
  repeat split; auto. exists q, q2. auto.
Qed.

Lemma quill_do_armed e f st :
  armed timer wait p st -> is_validated_send e || is_timeout e = false ->
  rearms timer wait False st (quill_do e f st).
Proof.
  intros Ha He. pose proof Ha as ((q & Hq & _) & _).
  unfold quill_do.
  rewrite (bind_the_quill _ _ Hq), bind_perform, bind_modify.
  pose proof (@rearms_effect e st q Hq He) as Hc.
  pose proof (emits_armed (snd (f (ed q)))
                (armed_with_quill (fst (f (ed q))) Ha Hq)) as Hrest.
  eapply rearms_with_quill in Hrest; [|exact Hq].
  eapply rearms_weaken; [|exact (rearms_then Hc Hrest)].
  intros [].
Qed.

Lemma rearms_bind (P : Prop) m (k : unit -> M Editor unit) st :
  armed timer wait p st -> rearms timer wait False st (m st) ->
  (forall st1, armed timer wait p st1 -> rearms timer wait P st1 (k tt st1)) ->
  rearms timer wait P st (bind m k st).
Proof.
  intros Ha Hm Hk.
  destruct (m st) as [[r st1] e1] eqn:E.
  pose proof Hm as (Hret & _). simpl in Hret. subst r.
  rewrite (bind_returned _ _ _ E).
  eapply rearms_weaken; [|exact (rearms_then Hm (Hk st1 (rearms_armed Ha Hm)))].
  now right.
Qed.

Lemma when_armed (b : bool) m st :
  armed timer wait p st -> (armed timer wait p st -> rearms timer wait False st (m st)) ->
  rearms timer wait False st (when b m st).
Proof.
  intros Ha Hm. pose proof Ha as ((q & Hq & _) & _).
  destruct b; simpl; [auto | now apply rearms_idle with q].
Qed.

Lemma updateText_armed text st :
  armed timer wait p st -> rearms timer wait False st (updateText text st).
Proof.
  intros Ha. pose proof Ha as ((q & Hq & _) & _).
  unfold updateText.
  destruct (negb (truthy text)); [now apply rearms_idle with q|].
  rewrite bind_gets.
  assert (Hd : exists d, forall (k : bool -> M Editor unit),
             bind (if negb (truthy (opt_member "readOnly" (properties st)))
                   then bind the_quill
                          (fun q0 => ret (negb (q_hasFocus (ed q0))))
                   else ret false) k st = k d st).
  { destruct (negb _).
    - eexists. intros k.
      rewrite bind_assoc, (bind_the_quill _ _ Hq). apply bind_ret.
    - eexists. intros k. apply bind_ret. }
  destruct Hd as (d & ->).
  apply rearms_bind; [exact Ha | |].
  { apply when_armed; [exact Ha | intros _]. now apply quill_do_armed. }
  intros st1 Ha1. apply rearms_bind; [exact Ha1 | |].
  { destruct text; try (now apply quill_do_armed).
    destruct (looks_like_html s); now apply quill_do_armed. }
  intros st2 Ha2. apply when_armed; [exact Ha2 | intros _].
  now apply quill_do_armed.
Qed.

Lemma updateQuill_armed st : armed timer wait p st -> rearms timer wait False st (updateQuill st).
Proof.
  intros Ha. unfold updateQuill. rewrite bind_gets.
  apply rearms_bind; [exact Ha | |].
  { apply when_armed; [exact Ha | intros _]. now apply updateText_armed. }
  intros st1 Ha1. pose proof Ha1 as ((q & Hq & _) & Hp & _).
  rewrite (bind_the_quill _ _ Hq).
  rewrite bind_the_properties with (p := p) by exact Hp.
  now apply quill_do_armed.
Qed.

(** A user action on an armed timer wait p editor leaves the validation due [wait]
    ms later, and validates nothing. *)
Lemma user_step act st :
  armed timer wait p st -> types act ->
  armed timer wait p (fst (step (UserAction act) st)) /\
  timers (fst (step (UserAction act) st)) = [(timer, now st + wait)] /\
  now (fst (step (UserAction act) st)) = now st /\
  validating (snd (step (UserAction act) st)) = 0.
Proof.
  intros Ha Ht. pose proof Ha as ((q & Hq & _) & _).
  unfold step, handle. rewrite bind_gets, Hq, bind_modify.
  pose proof (emits_armed (snd (act (ed q)))
                (armed_with_quill (fst (act (ed q))) Ha Hq)) as Hrest.
  eapply rearms_with_quill in Hrest; [|exact Hq].
  destruct (for_each _ emit _) as [[r st'] effs].
  pose proof (rearms_armed Ha Hrest) as Ha'.
  destruct Hrest as (_ & _ & _ & Hn & Hv & _ & Hr). simpl in *.
  split; [exact Ha'|]. split; [apply Hr, Ht|]. split; assumption.
Qed.

(** Time passes, but less than the delay: nothing happens. *)
Lemma gap_step gap st :
  armed timer wait p st -> timers st = [(timer, now st + wait)] -> gap < wait ->
  armed timer wait p (fst (step (TimePasses gap) st)) /\
  snd (step (TimePasses gap) st) = [].
Proof.
  intros Ha Ht Hgap. unfold step, handle, advance.
  rewrite bind_modify, !bind_gets, bind_modify. simpl.
  rewrite Ht. unfold is_due; simpl.
  destruct (Nat.leb_spec (now st + wait) (now st + gap)); [lia|].
  simpl. split; [|reflexivity].
  eapply armed_next; [exact Ha | | reflexivity |].
  - destruct Ha as ((q & Hq & _) & _). exists q, q. auto.
  - left. simpl. now rewrite Ht.
Qed.

(** The delay has passed: the timer runs out, [validate] is called, and
    nothing remains pending. *)
Lemma due_step d st :
  armed timer wait p st -> timers st = [(timer, now st + wait)] -> wait <= d ->
  timers (fst (step (TimePasses d) st)) = [] /\
  timeouts (snd (step (TimePasses d) st)) = 1 /\
  (is_object (lookup "content" p) = true ->
   validations (snd (step (TimePasses d) st)) = 1).
Proof.
  intros Ha Ht Hd. pose proof Ha as ((q & Hq & _) & Hp & _).
  unfold step, handle, advance.
  rewrite bind_modify, !bind_gets, bind_modify. simpl.
  rewrite Ht. unfold is_due; simpl.
  destruct (Nat.leb_spec (now st + wait) (now st + d)); [|lia].
  simpl. unfold bind, task, perform, after.
  destruct (is_object (lookup "content" p)) eqn:Hc.
  - match goal with
    | |- context [validate ?s] =>
        destruct (@validate_structured s q p Hq Hp Hc) as (c & _ & E);
        rewrite E
    end.
    simpl. repeat split; reflexivity.
  - match goal with
    | |- context [validate ?s] =>
        rewrite (@validate_unstructured s q Hq)
          by (right; exists p; split; [exact Hp | exact Hc])
    end.
    simpl. repeat split; try reflexivity. discriminate.
Qed.

Lemma burst_run rest st :
  armed timer wait p st -> timers st = [(timer, now st + wait)] ->
  Forall (fun ga => fst ga < wait /\ types (snd ga)) rest ->
  armed timer wait p (fst (run (burst rest) st)) /\
  timers (fst (run (burst rest) st))
    = [(timer, now (fst (run (burst rest) st)) + wait)] /\
  validating (snd (run (burst rest) st)) = 0.
Proof.
  intros Ha Ht Hrest. revert st Ha Ht.
  induction Hrest as [|[gap act] rest [Hgap Hact] Hrest IH];
    intros st Ha Ht; simpl.
  - auto.
  - simpl in Hgap, Hact.
    destruct (gap_step Ha Ht Hgap) as (Ha1 & He1).
    destruct (step (TimePasses gap) st) as [st1 e1]. simpl in Ha1, He1.
    destruct (user_step Ha1 Hact) as (Ha2 & Ht2 & Hn2 & Hv2).
    destruct (step (UserAction act) st1) as [st2 e2]. simpl in *.
    rewrite <- Hn2 in Ht2.
    destruct (IH st2 Ha2 Ht2) as (Ha3 & Ht3 & Hv3).
    fold (burst rest) in *.
    destruct (run (burst rest) st2) as [st3 e3]. simpl in *.
    subst e1. simpl. rewrite validating_app.
    split; [exact Ha3|]. split; [exact Ht3 | lia].
Qed.

End Debounce.

Lemma initQuill_arms st p :
  properties st = Some p -> truthy (lookup "debounce" p) = true ->
  timers st = [] ->
  fst (fst (initQuill st)) = Return tt /\
  armed (S (fresh st)) (debounce_wait p) p (snd (fst (initQuill st))).
Proof.
  intros Hp Hd Ht. rewrite initQuill_eq.
  assert (Ha : armed (S (fresh st)) (debounce_wait p) p (init_state st)).
  { split; [|split].
    - eexists. split; [reflexivity|]. simpl.
      unfold init_listeners, init_debounced, debounce_wait.
      rewrite Hp. simpl opt_member. rewrite Hd.
      destruct (truthy (isStudio st)); unfold debounces;
        (split; [simpl; auto|]);
        intros ev t w Hin; simpl in Hin;
        repeat match goal with
               | Hx : _ \/ _ |- _ => destruct Hx as [Hx | Hx]
               | Hx : (_, _) = (_, _) |- _ => inversion Hx; clear Hx
               | Hx : False |- _ => destruct Hx
               end; auto.
    - exact Hp.
    - simpl. rewrite Ht. constructor. }
  pose proof (updateQuill_armed Ha) as Hu.
  destruct (updateQuill (init_state st)) as [[r st'] effs] eqn:E.
  pose proof (rearms_armed Ha Hu) as Ha'.
  destruct Hu as (Hret & _). simpl in *. auto.
Qed.

(** The window is debounceTime: a number other than zero is the delay of
    the listener, in milliseconds. *)
Lemma debounce_wait_number p n :
  lookup "debounceTime" p = VNum n -> n <> 0%Z ->
  debounce_wait p = Z.to_nat n.
Proof.
  intros E Hn. unfold debounce_wait, or_else. rewrite E.
  assert (Ht : truthy (VNum n) = true) by (simpl; now destruct n).
  now rewrite Ht.
Qed.

(** Debounced validation where it works.  (1) Initialising the editor
    with the debounce flag set (and no timer of an earlier editor pending)
    installs one debounced listener on text-change, whose delay is
    debounceTime, or 300 ms when debounceTime is absent or zero.  (2) From then on, when
    the user edits the text several times in a row, each edit less than
    the delay after the previous one, no timer runs out and no validation
    is sent during the burst; once the delay has passed after the last
    edit, exactly one timer runs out and calls validate, nothing remains
    pending, and (the stored content being an object, so that validate
    succeeds) exactly one onValidated is sent. *)
Theorem debounced_validation_once :
  (forall st p,
     properties st = Some p -> truthy (lookup "debounce" p) = true ->
     timers st = [] ->
     fst (fst (initQuill st)) = Return tt /\
     armed (S (fresh st)) (debounce_wait p) p (snd (fst (initQuill st))) /\
     (truthy (lookup "debounceTime" p) = false -> debounce_wait p = 300)) /\
  (forall timer wait p st first rest d,
     armed timer wait p st ->
     types first ->
     Forall (fun ga => fst ga < wait /\ types (snd ga)) rest ->
     wait <= d ->
     timeouts (snd (run (UserAction first :: burst rest) st)) = 0 /\
     validations (snd (run (UserAction first :: burst rest) st)) = 0 /\
     timeouts
       (snd (step (TimePasses d)
               (fst (run (UserAction first :: burst rest) st)))) = 1 /\
     timers
       (fst (step (TimePasses d)
               (fst (run (UserAction first :: burst rest) st)))) = [] /\
     (is_object (lookup "content" p) = true ->
      validations
        (snd (step (TimePasses d)
                (fst (run (UserAction first :: burst rest) st)))) = 1)).
Proof.
  split.
  - intros st p Hp Hd Ht.
    destruct (initQuill_arms st Hp Hd Ht) as [Hret Ha].
    split; [exact Hret|]. split; [exact Ha|].
    intros Hf. unfold debounce_wait, or_else. now rewrite Hf.
  - intros timer wait p st first rest d Ha Hfirst Hrest Hd.
    simpl run.
    destruct (user_step Ha Hfirst) as (Ha1 & Ht1 & Hn1 & Hv1).
    destruct (step (UserAction first) st) as [st1 e1]. simpl in *.
    rewrite <- Hn1 in Ht1.
    destruct (burst_run Ha1 Ht1 Hrest) as (Ha2 & Ht2 & Hv2).
    destruct (run (burst rest) st1) as [st2 e2]. simpl in *.
    destruct (due_step Ha2 Ht2 Hd) as (Ht3 & Hf3 & Hv3).
    assert (Hquiet : validating (e1 ++ e2) = 0)
      by (rewrite validating_app; lia).
    destruct (validating_none _ Hquiet) as [Hv Hf].
    split; [exact Hf|]. split; [exact Hv|].
    split; [exact Hf3|]. split; assumption.
Qed.

(** * The rest of the adapter *)

(** ** The toolbar *)

Lemma toolbar_group_length p flag group :
  List.length (toolbar_group p flag group)
  = List.length (filter (fun f => truthy (opt_member f p)) [flag]).
Proof. unfold toolbar_group; simpl. now destruct (truthy _). Qed.

Lemma toolbar_group_flag p p' flag group :
  truthy (opt_member flag p') = truthy (opt_member flag p) ->
  toolbar_group p' flag group = toolbar_group p flag group.
Proof. intros E; unfold toolbar_group; now rewrite E. Qed.

Lemma toolbar_group_in p flag group x :
  In x (toolbar_group p flag group) <->
  truthy (opt_member flag p) = true /\ x = group.
Proof.
  unfold toolbar_group. destruct (truthy _); simpl.
  - split; [intros [<-|[]]; auto | intros [_ ->]; auto].
  - split; [intros [] | intros [? _]; discriminate].
Qed.

(** X1: the toolbar container follows the thirteen feature flags and
    nothing else.  It holds one group of buttons per flag that is truthy;
    two configurations that agree on which flags are truthy get the same
    container; it is empty when no flag is truthy, as it is while
    properties is null; and the undo and redo buttons are there exactly
    when toolbarHistory is truthy. *)
Theorem toolbar_follows_flags p :
  List.length (getToolbarOptions p)
    = List.length (filter (fun flag => truthy (opt_member flag p))
                          toolbar_flags) /\
  (forall p',
     (forall flag, In flag toolbar_flags ->
        truthy (opt_member flag p') = truthy (opt_member flag p)) ->
     getToolbarOptions p' = getToolbarOptions p) /\
  ((forall flag, In flag toolbar_flags ->
      truthy (opt_member flag p) = false) ->
   getToolbarOptions p = []) /\
  (In (arr [VStr "undo"; VStr "redo"]) (getToolbarOptions p) <->
   truthy (opt_member "toolbarHistory" p) = true).
Proof.
  split; [|split; [|split]].
  - unfold getToolbarOptions, toolbar_flags.
    rewrite !length_app, !toolbar_group_length.
    simpl filter.
    repeat match goal with
           | |- context [truthy ?x] => destruct (truthy x)
           end; reflexivity.
  - intros p' Hp. unfold getToolbarOptions.
    repeat (f_equal; [apply toolbar_group_flag, Hp; simpl; tauto|]).
    apply toolbar_group_flag, Hp; simpl; tauto.
  - intros Hp. unfold getToolbarOptions, toolbar_group.
    rewrite !Hp by (simpl; tauto). reflexivity.
  - unfold getToolbarOptions. rewrite !in_app_iff, !toolbar_group_in.
    split.
    + intros Hin.
      repeat match type of Hin with
             | _ \/ _ => destruct Hin as [[_ Hin] | Hin]; [discriminate|]
             end.
      apply Hin.
    + intros Ht. repeat right. auto.
Qed.

(** ** [validate], repeated *)

Lemma assign_assign k v w (o : obj) : assign k v (assign k w o) = assign k v o.
Proof.
  induction o as [|[k' v'] o IH]; simpl.
  - now rewrite String.eqb_refl.
  - destruct (k' =? k)%string eqn:E; simpl.
    + now rewrite String.eqb_refl.
    + now rewrite E, IH.
Qed.

Lemma set_member_again k x v c :
  set_member k x v = Some c -> set_member k x c = Some c /\ is_object c = true.
Proof.
  destruct v; try discriminate; simpl; intros [= <-]; simpl;
    now rewrite assign_assign.
Qed.

(** X3: validate is idempotent.  With an object as stored content, a
    second call that follows the first with nothing in between returns as
    the first did, sends the same two messages and leaves the module
    state as the first call left it: the assignment to
    properties.content.ops writes what is already there. *)
Theorem validate_twice st q p :
  quill st = Some q -> properties st = Some p ->
  is_object (lookup "content" p) = true ->
  fst (fst (validate st)) = Return tt /\
  validate (snd (fst (validate st))) = validate st.
Proof.
  intros Hq Hp Hc.
  destruct (validate_structured st Hq Hp Hc) as (content & Hset & E).
  rewrite E. simpl. split; [reflexivity|].
  destruct (set_member_again _ _ _ Hset) as [Hset' Hc'].
  set (st1 := with_properties (Some (assign "content" content p))
                (with_validationState (verdict q) st)).
  assert (Hc1 : is_object (lookup "content" (assign "content" content p)) = true)
    by now rewrite lookup_assign.
  destruct (@validate_structured st1 q _ Hq eq_refl Hc1) as (content' & Hs & E1).
  rewrite lookup_assign, Hset' in Hs. injection Hs as <-.
  rewrite E1, assign_assign. subst st1.
  destruct st; reflexivity.
Qed.

(** ** [onUpdate] at its edges *)

Lemma diffKeys_nil old pd :
  diffKeys old pd = [] <->
  forall k, In k (keys pd) -> equal_at k old (lookup k pd) = true.
Proof.
  unfold diffKeys. induction (keys pd) as [|k l IH]; simpl.
  - split; [intros _ k [] | reflexivity].
  - destruct (equal_at k old (lookup k pd)) eqn:E; simpl.
    + rewrite IH. split.
      * intros Hl k' [<-|Hk]; auto.
      * intros Hl k' Hk. apply Hl. now right.
    + split; [discriminate|].
      intros Hl. specialize (Hl k (or_introl eq_refl)). congruence.
Qed.

(** X4: onUpdate at its edges.  Before the first onLoad an update with at
    least one key throws a TypeError at properties[key] and changes
    nothing, and an update without keys is ignored.  After it, the update
    is compared key by key over its own keys only: when each of them has
    an equal stored value (as properties[key] reads it) the update is
    ignored and the stored properties stay, keys the update has dropped
    included; for keys that the stored properties have themselves, or
    that are no name every object inherits, properties[key] reads the
    stored value or undefined.  And an update that changes only content
    or readOnly while no editor exists yet is stored and then throws a
    TypeError without calling anything. *)
Theorem onUpdate_edges st pd :
  (properties st = None -> keys pd <> [] -> onUpdate pd st = (Throw, st, [])) /\
  (keys pd = [] -> onUpdate pd st = (Return tt, st, [])) /\
  (forall old,
     properties st = Some old ->
     (forall k, In k (keys pd) -> equal_at k old (lookup k pd) = true) ->
     onUpdate pd st = (Return tt, st, [])) /\
  (forall old,
     properties st = Some old ->
     (forall k, In k (keys pd) ->
                (has_own k old = true \/ inherited k = false) /\
                isEqual (lookup k old) (lookup k pd) = true) ->
     onUpdate pd st = (Return tt, st, [])) /\
  (forall old,
     properties st = Some old -> quill st = None ->
     diffKeys old pd <> [] ->
     Forall (fun k => k = "content" \/ k = "readOnly") (diffKeys old pd) ->
     onUpdate pd st = (Throw, with_properties (Some pd) st, [])).
Proof.
  split; [|split; [|split; [|split]]].
  - intros Hp Hk. unfold onUpdate. rewrite bind_gets, Hp.
    destruct (keys pd); [congruence | reflexivity].
  - intros Hk. unfold onUpdate, diffKeys. rewrite bind_gets, Hk.
    destruct (properties st); reflexivity.
  - intros old Hp Hk. apply diffKeys_nil in Hk.
    rewrite onUpdate_unfold with (old := old) by exact Hp.
    now rewrite Hk.
  - intros old Hp Hk.
    assert (Hd : diffKeys old pd = []).
    { apply diffKeys_nil. intros k Hin. destruct (Hk k Hin) as [Ho He].
      now rewrite (equal_at_own k old (lookup k pd) Ho). }
    rewrite onUpdate_unfold with (old := old) by exact Hp.
    now rewrite Hd.
  - intros old Hp Hq Hne Hmut.
    rewrite onUpdate_unfold with (old := old) by exact Hp.
    destruct (diffKeys old pd) as [|k l] eqn:Hd; [congruence|].
    simpl Nat.eqb. cbv iota.
    rewrite (only_mutable_table Hmut).
    now apply updateQuill_null.
Qed.

(** ** [initQuill], whatever the state *)

Lemma new_editors_app e1 e2 :
  new_editors (e1 ++ e2) = new_editors e1 ++ new_editors e2.
Proof. apply filter_app. Qed.

Lemma new_editors_calls effs : new_editors (calls effs) = new_editors effs.
Proof.
  unfold new_editors, calls.
  induction effs as [|e effs IH]; simpl; [reflexivity|].
  destruct e; simpl; now rewrite IH.
Qed.

Lemma new_editors_refresh p b : new_editors (refresh_calls p b) = [].
Proof.
  unfold refresh_calls.
  assert (He : is_new (entry_point (lookup "content" p)) = false).
  { destruct (lookup "content" p); try reflexivity. simpl.
    destruct (looks_like_html s); reflexivity. }
  destruct (truthy _); [destruct (_ && _)|]; unfold new_editors; simpl;
    now rewrite ?He.
Qed.

Lemma updateQuill_unloaded st q :
  quill st = Some q -> properties st = None ->
  updateQuill st = (Throw, st, []).
Proof.
  intros Hq Hp. unfold updateQuill. rewrite bind_gets, Hp. simpl.
  rewrite bind_ret, (bind_the_quill _ _ Hq).
  unfold bind, the_properties. now rewrite Hp.
Qed.

(** What follows the creation of the editor in [initQuill]. *)
Lemma init_effects_split st :
  exists wiring,
    init_effects st
    = teardown st ++ NewQuill (init_options (properties st)) :: wiring /\
    new_editors wiring = [].
Proof.
  unfold init_effects, teardown. eexists. split; [reflexivity|].
  destruct (truthy (isStudio st)),
    (truthy (opt_member "debounce" (properties st))); reflexivity.
Qed.

Lemma initQuill_effects st :
  exists rest,
    snd (initQuill st)
    = teardown st ++ NewQuill (init_options (properties st)) :: rest /\
    new_editors rest = [].
Proof.
  destruct (init_effects_split st) as (wiring & Hi & Hw).
  rewrite initQuill_eq.
  destruct (properties st) as [p|] eqn:Hp.
  - destruct (@updateQuill_live (init_state st) _ p eq_refl Hp)
      as (st' & effs & ed' & E & Hc & _).
    rewrite E. simpl. exists (wiring ++ effs). split.
    + rewrite Hi, <- app_assoc. reflexivity.
    + rewrite new_editors_app, Hw, <- new_editors_calls, Hc.
      apply new_editors_refresh.
  - rewrite (@updateQuill_unloaded (init_state st) _ eq_refl Hp).
    simpl. rewrite app_nil_r. now exists wiring.
Qed.

(** X5: initQuill installs a new editor whatever the state.  It makes its
    calls in this order: the teardown of the previous editor (its two
    listeners removed, the page body reset) when there is one, then the
    creation of the one new editor, with the toolbar and placeholder of
    the stored properties, then the rest.  Afterwards the live editor is
    the new one, with the listeners of this initialisation only.  The
    call returns normally exactly when properties is not null; when it
    is, the editor is created and wired all the same, and the final
    refresh throws a TypeError at properties.readOnly. *)
Theorem initQuill_installs st :
  (exists rest,
     snd (initQuill st)
       = teardown st ++ NewQuill (init_options (properties st)) :: rest /\
     new_editors rest = []) /\
  (exists ed',
     quill (snd (fst (initQuill st)))
       = Some {| inst_id := fresh st; ed := ed';
                 listeners := init_listeners st |}) /\
  (fst (fst (initQuill st)) = Return tt <-> properties st <> None) /\
  (properties st = None ->
   initQuill st = (Throw, init_state st, init_effects st)).
Proof.
  split; [apply initQuill_effects|].
  rewrite initQuill_eq.
  destruct (properties st) as [p|] eqn:Hp.
  - destruct (@updateQuill_live (init_state st) _ p eq_refl Hp)
      as (st' & effs & ed' & E & _ & Hq & _).
    rewrite E. simpl. split; [|split].
    + now exists ed'.
    + split; [discriminate | reflexivity].
    + discriminate.
  - rewrite (@updateQuill_unloaded (init_state st) _ eq_refl Hp).
    simpl. rewrite app_nil_r. split; [|split].
    + eexists. reflexivity.
    + split; [discriminate | congruence].
    + reflexivity.
Qed.

(** ** [onLoad] and the page *)

Lemma run_app evs1 evs2 st :
  run (evs1 ++ evs2) st
  = (fst (run evs2 (fst (run evs1 st))),
     snd (run evs1 st) ++ snd (run evs2 (fst (run evs1 st)))).
Proof.
  revert st. induction evs1 as [|e evs1 IH]; intros st; simpl.
  - now destruct (run evs2 st).
  - destruct (step e st) as [st1 e1]. rewrite IH.
    destruct (run evs1 st1) as [st2 e2]. simpl.
    now rewrite app_assoc.
Qed.

Lemma onLoad_loading pd st :
  readyState st <> Complete ->
  onLoad pd st
  = (Return tt, with_awaitsDom true (with_properties (Some pd) st), [AwaitDom]).
Proof.
  intros Hr. unfold onLoad. rewrite bind_modify, bind_gets. simpl.
  destruct (readyState st); [reflexivity | reflexivity | congruence].
Qed.

Lemma loads_while_loading pds st :
  readyState st = Loading ->
  run (map (@BridgeLoad Editor) pds) st
  = (match rev pds with
     | [] => st
     | pd :: _ => with_awaitsDom true (with_properties (Some pd) st)
     end,
     repeat AwaitDom (List.length pds)).
Proof.
  revert st. induction pds as [|pd pds IH]; intros st Hr; [reflexivity|].
  simpl. unfold step. simpl handle.
  rewrite onLoad_loading by (rewrite Hr; discriminate).
  rewrite IH by exact Hr. f_equal.
  destruct (rev pds) as [|pd' l]; simpl; [reflexivity|].
  destruct (l ++ [pd]); destruct st; reflexivity.
Qed.

Lemma dom_content_loaded pd st :
  readyState st = Loading ->
  step DomContentLoaded (with_awaitsDom true (with_properties (Some pd) st))
  = (snd (fst (initQuill (dom_ready pd st))),
     snd (initQuill (dom_ready pd st))).
Proof.
  intros Hr. unfold step. simpl handle. rewrite bind_gets.
  change (readyState (with_awaitsDom true (with_properties (Some pd) st)))
    with (readyState st).
  rewrite Hr, bind_modify, bind_gets.
  change (when _ initQuill) with (@initQuill Editor _ _).
  change (with_readyState Interactive _) with (dom_ready pd st).
  now destruct (initQuill (dom_ready pd st)) as [[r s] effs].
Qed.

(** X6: onLoad and the state of the page.  On a complete page onLoad
    stores the properties and initialises the editor at once.  While the
    page is loading it stores them and waits; however many loads the
    host sends meanwhile, DOMContentLoaded then runs initQuill once, with
    the properties of the last load, and one editor is created. *)
Theorem onLoad_waits_for_the_page st pds pd :
  (readyState st = Complete ->
   onLoad pd st = initQuill (with_properties (Some pd) st)) /\
  (readyState st = Loading ->
   run (map (@BridgeLoad Editor) pds ++ [BridgeLoad pd; DomContentLoaded]) st
   = (snd (fst (initQuill (dom_ready pd st))),
      repeat AwaitDom (S (List.length pds))
        ++ snd (initQuill (dom_ready pd st))) /\
   new_editors
     (snd (run (map (@BridgeLoad Editor) pds
                  ++ [BridgeLoad pd; DomContentLoaded]) st))
   = [NewQuill (init_options (Some pd))]).
Proof.
  split.
  - intros Hr. unfold onLoad. rewrite bind_modify, bind_gets. simpl.
    now rewrite Hr.
  - intros Hr.
    assert (E : run (map (@BridgeLoad Editor) pds
                       ++ [BridgeLoad pd; DomContentLoaded]) st
                = (snd (fst (initQuill (dom_ready pd st))),
                   repeat AwaitDom (S (List.length pds))
                     ++ snd (initQuill (dom_ready pd st)))).
    { change (map (@BridgeLoad Editor) pds ++ [BridgeLoad pd; DomContentLoaded])
        with (map (@BridgeLoad Editor) pds
                ++ map (@BridgeLoad Editor) [pd] ++ [DomContentLoaded]).
      rewrite app_assoc, <- map_app, run_app.
      rewrite loads_while_loading by exact Hr.
      rewrite rev_app_distr, length_app. simpl rev. cbn [app fst snd].
      cbn [run]. rewrite dom_content_loaded by exact Hr.
      cbn [fst snd]. rewrite app_nil_r. f_equal.
      rewrite Nat.add_comm. reflexivity. }
    split; [exact E|]. rewrite E. cbn [snd].
    destruct (initQuill_effects (dom_ready pd st)) as (rest & Hs & Hn).
    rewrite new_editors_app, Hs, new_editors_app.
    assert (Hr0 : forall n, new_editors (repeat AwaitDom n) = []).
    { induction n; simpl; auto. }
    rewrite Hr0. unfold teardown.
    destruct (is_some _); simpl; now rewrite Hn.
Qed.

(** ** Events that only use the editor *)

Lemma listen_focusText args :
  listen "focusText" args
  = bind (gets quill)
      (fun q : option (instance Editor) =>
         when (is_some q)
              (bind (quill_do Focus q_focus)
                 (fun _ => bind (gets shouldForceFocus)
                             (fun force => when force onFocused)))).
Proof. reflexivity. Qed.

#[local] Instance paid_frame_Frame : Frame (Editor := Editor) paid_frame.
Proof.
  split; unfold paid_frame.
  - intros st H1 H2. congruence.
  - intros a b c e1 e2 H1 H2 Ha Hc. rewrite focus_notifications_app.
    destruct (shouldForceFocus b) eqn:Hb.
    + specialize (H2 eq_refl Hc). lia.
    + specialize (H1 Ha eq_refl). lia.
Qed.

Lemma paid_frame_same st st' effs :
  shouldForceFocus st' = shouldForceFocus st -> paid_frame st st' effs.
Proof. unfold paid_frame. congruence. Qed.

Lemma paid_frame_onFocused : respects paid_frame onFocused.
Proof.
  intros st. destruct (quill st) as [q|] eqn:Hq.
  - rewrite (onFocused_live _ Hq). intros _ _. apply Nat.le_refl.
  - rewrite (onFocused_null _ Hq). apply frame_refl.
Qed.

(** The listeners, for a frame that holds of what they are made of. *)
Lemma respects_listeners (R : state Editor -> state Editor -> list effect -> Prop)
      `{!Frame R} :
  (forall e st, is_focus_send e = false -> R st st [e]) ->
  (forall timer wait, respects R (schedule timer wait)) ->
  respects R onFocused ->
  forall e, respects R (emit e).
Proof.
  intros Heff Hsched Hfocus e. unfold emit.
  apply respects_bind; [exact _ | intros st; now apply Heff | intros _].
  apply respects_bind; [exact _ | apply respects_the_quill; exact _ | intros q].
  apply respects_for_each; [exact _|]. intros [ev h].
  destruct h; simpl.
  - unfold onStudioTextChange.
    apply respects_bind; [exact _ | apply respects_the_quill; exact _ | intros q0].
    apply respects_bind; [exact _ | | intros v; intros st; now apply Heff].
    unfold getQueryable.
    apply respects_bind; [exact _ | apply respects_the_quill; exact _ | intros q'].
    apply respects_bind; [exact _ | apply respects_gets; exact _ | intros v].
    apply respects_ret; exact _.
  - apply Hsched.
  - destruct e; [apply respects_ret; exact _|].
    unfold onSelectionChange.
    apply respects_bind; [exact _ | apply respects_gets; exact _ | intros force].
    destruct (_ || _); [exact Hfocus | apply respects_ret; exact _].
Qed.

#[local] Instance paid_frame_Atoms : Atoms (Editor := Editor) paid_frame.
Proof.
  split.
  - exact _.
  - intros e st _ _. now apply paid_frame_same.
  - intros e st q _. revert st. apply respects_listeners.
    + exact _.
    + intros e0 st _. now apply paid_frame_same.
    + intros timer wait st. now apply paid_frame_same.
    + apply paid_frame_onFocused.
  - apply respects_bind; [exact _ | apply respects_gets; exact _ | intros force].
    apply respects_when; [exact _ | apply paid_frame_onFocused].
  - intros st q ed' _. now apply paid_frame_same.
  - intros st. now apply paid_frame_same.
  - intros st p. now apply paid_frame_same.
  - intros st v. now apply paid_frame_same.
  - intros st ts. now apply paid_frame_same.
  - intros st t. now apply paid_frame_same.
  - intros st r. now apply paid_frame_same.
  - intros st b. now apply paid_frame_same.
Qed.

Lemma focus_notifications_calls e effs :
  is_focus_send e = false ->
  focus_notifications (e :: effs) = focus_notifications effs.
Proof. intros He. unfold focus_notifications; simpl. now rewrite He. Qed.

(** What [focusText] keeps, as every listener that only uses the editor. *)
Lemma focusText_keeps st q args :
  quill st = Some q ->
  exists st' cbs,
    listen "focusText" args st = (Return tt, st', Focus :: cbs) /\
    calls cbs = [] /\
    same_env st st' /\
    quill st' = Some {| inst_id := inst_id q; ed := fst (q_focus (ed q));
                        listeners := listeners q |}.
Proof.
  intros Hq. rewrite listen_focusText, bind_gets, Hq. simpl when.
  destruct (quill_do_live Focus q_focus st Hq)
    as (st1 & cbs & E1 & Hq1 & Henv1 & Hc1).
  assert (Hp : settles Editor
                 (bind (gets shouldForceFocus)
                       (fun force => when force onFocused))).
  { apply settles_bind; [apply settles_gets | intros force].
    destruct force; [apply settles_onFocused | apply settles_ret]. }
  destruct (Hp st1 _ Hq1) as ([] & st2 & e2 & E2 & Hq2 & Henv2 & Hc2).
  rewrite (bind_returned _ _ _ E1), E2. simpl.
  exists st2, (cbs ++ e2). split; [reflexivity|].
  split; [now rewrite calls_app, Hc1, Hc2|].
  split; [exact (same_env_trans Henv1 Henv2) | exact Hq2].
Qed.

(** X8: focusText on a live editor.  The listener returns normally; its
    one call on the editor is focus(); afterwards the pending-focus flag
    is clear, whatever it was; and when a blur was pending, at least one
    onFocused has been sent, by the selection listener if the editor
    reported a selection change, by focusText itself otherwise.  The
    editor instance, its listeners, the properties and the validation
    flags are as before. *)
Theorem focusText_clears_pending st q args :
  quill st = Some q ->
  exists st' effs,
    listen "focusText" args st = (Return tt, st', effs) /\
    calls effs = [Focus] /\
    shouldForceFocus st' = false /\
    (shouldForceFocus st = true -> 1 <= focus_notifications effs) /\
    same_env st st' /\
    quill st' = Some {| inst_id := inst_id q; ed := fst (q_focus (ed q));
                        listeners := listeners q |}.
Proof.
  intros Hq. rewrite listen_focusText, bind_gets, Hq. simpl when.
  destruct (quill_do_live Focus q_focus st Hq)
    as (st1 & cbs & E1 & Hq1 & Henv1 & Hc1).
  pose proof (respects_quill_do (R := paid_frame) Focus q_focus
                eq_refl eq_refl st) as Hpaid.
  rewrite E1 in Hpaid. simpl in Hpaid.
  rewrite (bind_returned _ _ _ E1), bind_gets.
  destruct (shouldForceFocus st1) eqn:Hf1; simpl when.
  - rewrite (onFocused_live _ Hq1). simpl.
    eexists _, _. split; [reflexivity|].
    split; [|split; [|split; [|split]]].
    + rewrite calls_call, calls_app, Hc1 by reflexivity. reflexivity.
    + reflexivity.
    + intros _. rewrite focus_notifications_calls by reflexivity.
      rewrite focus_notifications_app.
      unfold focus_notifications at 2. simpl. lia.
    + destruct Henv1 as (?&?&?&?&?&?&?). repeat split; assumption.
    + exact Hq1.
  - eexists _, _. split; [reflexivity|].
    split; [|split; [|split; [|split]]].
    + rewrite app_nil_r, calls_call, Hc1 by reflexivity. reflexivity.
    + exact Hf1.
    + intros Hf. rewrite app_nil_r. now apply Hpaid.
    + exact Henv1.
    + exact Hq1.
Qed.

(** X9: a pending blur is never dropped silently.  Over every sequence of
    events, from every state: if the pending-focus flag is set at the
    start and clear at the end, at least one onFocused has been sent in
    between.  (A turn that finds no editor leaves the flag set.) *)
Theorem pending_blur_is_notified evs st :
  shouldForceFocus st = true ->
  shouldForceFocus (fst (run evs st)) = false ->
  1 <= focus_notifications (snd (run evs st)).
Proof.
  revert st. induction evs as [|e evs IH]; intros st Hs He; simpl in *.
  - congruence.
  - assert (H1 : paid_frame st (fst (step e st)) (snd (step e st))).
    { destruct (is_blur e) eqn:Hb.
      - destruct e; discriminate.
      - now apply (respects_step (R := paid_frame) e st Hb). }
    destruct (step e st) as [st1 e1]. specialize (IH st1).
    destruct (run evs st1) as [st2 e2]. simpl in *.
    rewrite focus_notifications_app.
    destruct (shouldForceFocus st1) eqn:Hf1.
    + assert (1 <= focus_notifications e2) by (apply IH; congruence). lia.
    + assert (1 <= focus_notifications e1) by (apply H1; congruence). lia.
Qed.

Lemma instance_eta q :
  q = {| inst_id := inst_id q; ed := ed q; listeners := listeners q |}.
Proof. now destruct q. Qed.

Lemma updateText_keeps text st q :
  quill st = Some q ->
  exists st' effs ed',
    updateText text st = (Return tt, st', effs) /\
    same_env st st' /\
    quill st' = Some {| inst_id := inst_id q; ed := ed';
                        listeners := listeners q |}.
Proof.
  intros Hq. destruct (truthy text) eqn:Ht.
  - destruct (updateText_live text st Hq Ht) as (st' & effs & E & _ & Hq' & Henv).
    eexists _, _, _. split; [exact E|]. split; [exact Henv | exact Hq'].
  - rewrite (updateText_falsy _ _ Ht).
    exists st, [], (ed q). split; [reflexivity|].
    split; [apply same_env_refl|]. rewrite Hq. f_equal. apply instance_eta.
Qed.

Lemma listen_editing name args st :
  (name =? "validate") = false ->
  same_env st (snd (fst (listen name args st))) /\
  (quill st = None -> listen name args st = (Return tt, st, [])) /\
  (forall q, quill st = Some q ->
     exists ed',
       quill (snd (fst (listen name args st)))
       = Some {| inst_id := inst_id q; ed := ed'; listeners := listeners q |}).
Proof.
  intros Hname.
  assert (Hupd : forall text,
            let m := bind (gets quill)
                       (fun q : option (instance Editor) =>
                          when (is_some q) (updateText text)) in
            same_env st (snd (fst (m st))) /\
            (quill st = None -> m st = (Return tt, st, [])) /\
            (forall q, quill st = Some q ->
               exists ed',
                 quill (snd (fst (m st)))
                 = Some {| inst_id := inst_id q; ed := ed';
                           listeners := listeners q |})).
  { intros text m. subst m. rewrite bind_gets.
    destruct (quill st) as [q|] eqn:Hq; simpl when.
    - destruct (updateText_keeps text _ Hq) as (st' & effs & ed' & E & Henv & Hq').
      rewrite E. simpl. split; [exact Henv|]. split; [discriminate|].
      intros q0 [= <-]. now exists ed'.
    - split; [apply same_env_refl|]. split; [reflexivity | discriminate]. }
  unfold listen. rewrite Hname.
  destruct (name =? "setText"); [apply Hupd|].
  destruct (name =? "setContent"); [apply Hupd|].
  destruct (name =? "clearText"); [apply Hupd|].
  destruct (name =? "focusText") eqn:Hfocus.
  - apply String.eqb_eq in Hfocus. subst name.
    destruct (quill st) as [q|] eqn:Hq.
    + destruct (@focusText_keeps st q args Hq) as (st' & cbs & E & _ & Henv & Hq').
      unfold listen in E. simpl in E. rewrite E. simpl.
      split; [exact Henv|]. split; [discriminate|].
      intros q0 [= <-]. eexists; exact Hq'.
    + rewrite bind_gets, Hq. simpl.
      split; [apply same_env_refl|]. split; [reflexivity | discriminate].
  - split; [apply same_env_refl|]. split; [reflexivity|].
    intros q Hq. simpl. rewrite Hq. exists (ed q). f_equal. apply instance_eta.
Qed.

(** X7: the events that only use the editor leave everything else alone.
    The setText, setContent, clearText and focusText messages, what the
    user does in the editor, the undo and redo buttons and the window
    blur never create or replace the editor: the instance and its
    listeners are the ones that were there, and the stored properties,
    the validation flags, the page state and the clock are unchanged.
    While there is no editor, they call and send nothing. *)
Theorem editing_keeps_the_editor e st :
  is_editing e = true ->
  same_env st (fst (step e st)) /\
  (quill st = None ->
   quill (fst (step e st)) = None /\ snd (step e st) = []) /\
  (forall q, quill st = Some q ->
     exists ed',
       quill (fst (step e st))
       = Some {| inst_id := inst_id q; ed := ed'; listeners := listeners q |}).
Proof.
  assert (Hdo : forall x f,
            let m := bind (gets quill)
                       (fun q : option (instance Editor) =>
                          when (is_some q) (quill_do x f)) in
            same_env st (snd (fst (m st))) /\
            (quill st = None ->
             quill (snd (fst (m st))) = None /\ snd (m st) = []) /\
            (forall q, quill st = Some q ->
               exists ed',
                 quill (snd (fst (m st)))
                 = Some {| inst_id := inst_id q; ed := ed';
                           listeners := listeners q |})).
  { intros x f m. subst m. rewrite bind_gets.
    destruct (quill st) as [q|] eqn:Hq; simpl when.
    - destruct (quill_do_live x f _ Hq) as (st' & cbs & E & Hq' & Henv & _).
      rewrite E. simpl. split; [exact Henv|]. split; [discriminate|].
      intros q0 [= <-]. eexists; exact Hq'.
    - simpl. split; [apply same_env_refl|]. split; [now split | discriminate]. }
  assert (Hstep : forall m : M Editor unit,
            handle e = m ->
            fst (step e st) = snd (fst (m st)) /\ snd (step e st) = snd (m st)).
  { intros m <-. unfold step. now destruct (handle e st) as [[r s] effs]. }
  destruct e; simpl; try discriminate; intros He.
  - apply negb_true_iff in He.
    destruct (Hstep _ eq_refl) as [-> ->]. simpl handle.
    destruct (listen_editing name args st He) as (Henv & Hnull & Hlive).
    split; [exact Henv|]. split; [|exact Hlive].
    intros Hq. rewrite (Hnull Hq). now split.
  - unfold step. simpl. split; [repeat split|]. split; [auto|].
    intros q Hq. exists (ed q). rewrite Hq. f_equal. apply instance_eta.
  - destruct (Hstep _ eq_refl) as [-> ->]. simpl handle. rewrite bind_gets.
    destruct (quill st) as [q|] eqn:Hq.
    + rewrite bind_modify.
      set (q' := {| inst_id := inst_id q; ed := fst (act (ed q));
                    listeners := listeners q |}).
      destruct (@settles_for_each _ (snd (act (ed q))) emit settles_emit
                  (with_quill (Some q') st) q' eq_refl)
        as ([] & st' & cbs & E & Hq' & Henv & _).
      rewrite E. simpl. split; [apply Henv|]. split; [discriminate|].
      intros q0 [= <-]. eexists; exact Hq'.
    + simpl. split; [apply same_env_refl|]. split; [now split | discriminate].
  - destruct (Hstep _ eq_refl) as [-> ->]. apply Hdo.
  - destruct (Hstep _ eq_refl) as [-> ->]. apply Hdo.
Qed.

(** ** The studio listener *)

#[local] Instance studio_frame_Frame : Frame (Editor := Editor) studio_frame.
Proof.
  split.
  - intros st. split; auto.
  - intros a b c e1 e2 [E1 W1] [E2 W2]. split; [congruence | auto].
Qed.

Lemma studio_frame_same st st' effs :
  isStudio st' = isStudio st ->
  (forall q', quill st' = Some q' ->
     exists q, quill st = Some q /\ listeners q' = listeners q) ->
  studio_frame st st' effs.
Proof.
  intros Hs Hq. split; [exact Hs|].
  intros Hw q' Hq'. destruct (Hq q' Hq') as (q & Hq0 & ->).
  rewrite Hs. now apply Hw.
Qed.

#[local] Instance studio_frame_Atoms : Atoms (Editor := Editor) studio_frame.
Proof.
  split.
  - exact _.
  - intros e st _ _. apply studio_frame_same; eauto.
  - intros e st q Hq.
    destruct (settles_emit e st Hq) as ([] & st' & cbs & E & Hq' & Henv & _).
    rewrite E. simpl. apply studio_frame_same; [apply Henv|].
    intros q' Hq''. exists q. split; congruence.
  - intros st. rewrite bind_gets.
    destruct (shouldForceFocus st); simpl when; [|apply frame_refl].
    destruct (quill st) as [q|] eqn:Hq.
    + rewrite (onFocused_live _ Hq). apply studio_frame_same; eauto.
    + rewrite (onFocused_null _ Hq). apply frame_refl.
  - intros st q ed' Hq. apply studio_frame_same; [reflexivity|].
    intros q' Hq'. simpl in Hq'. injection Hq' as <-. eauto.
  - intros st. split; [reflexivity|].
    intros _ q Hq. simpl in Hq. injection Hq as <-. simpl.
    unfold init_listeners.
    destruct (truthy (isStudio st)),
      (truthy (opt_member "debounce" (properties st))); reflexivity.
  - intros st p. apply studio_frame_same; eauto.
  - intros st v. apply studio_frame_same; eauto.
  - intros st ts. apply studio_frame_same; eauto.
  - intros st t. apply studio_frame_same; eauto.
  - intros st r. apply studio_frame_same; eauto.
  - intros st b. apply studio_frame_same; eauto.
Qed.

Lemma studio_wired_run evs st :
  studio_wired st ->
  studio_wired (fst (run evs st)) /\ isStudio (fst (run evs st)) = isStudio st.
Proof.
  revert st. induction evs as [|e evs IH]; intros st Hw; simpl; [now split|].
  assert (H1 : studio_frame st (fst (step e st)) (snd (step e st))).
  { destruct (is_blur e) eqn:He.
    - destruct e; try discriminate. apply studio_frame_same; eauto.
    - now apply (respects_step (R := studio_frame) e st He). }
  destruct (step e st) as [st1 e1]. destruct H1 as [E1 W1].
  destruct (IH st1 (W1 Hw)) as [W2 E2].
  destruct (run evs st1) as [st2 e2]. simpl in *.
  split; [exact W2 | congruence].
Qed.

Lemma onStudioTextChange_live st q :
  quill st = Some q ->
  onStudioTextChange st
  = (Return tt, st, [studio_echo (ed q) (validationState st)]).
Proof.
  intros Hq. unfold onStudioTextChange, getQueryable.
  rewrite (bind_the_quill _ _ Hq), bind_assoc, (bind_the_quill _ _ Hq).
  rewrite bind_assoc, bind_gets, bind_ret. reflexivity.
Qed.

Lemma echoes_app e1 e2 : echoes (e1 ++ e2) = echoes e1 ++ echoes e2.
Proof. apply filter_app. Qed.

Lemma echoing_then q v studio n1 n2 (m : M Editor unit)
      (k : unit -> M Editor unit) st :
  echoing q v studio n1 (m st) ->
  (forall st1, quill st1 = Some q -> validationState st1 = v ->
               isStudio st1 = studio -> echoing q v studio n2 (k tt st1)) ->
  echoing q v studio (n1 ++ n2) (bind m k st).
Proof.
  intros (R1 & Q1 & V1 & S1 & N1) Hk. unfold bind.
  destruct (m st) as [[[[]|] st1] e1]; cbn [fst snd] in *; [|discriminate].
  destruct (Hk st1 Q1 V1 S1) as (R2 & Q2 & V2 & S2 & N2).
  destruct (k tt st1) as [[r st2] e2]; cbn [fst snd after] in *.
  split; [exact R2|]. split; [exact Q2|]. split; [exact V2|].
  split; [exact S2|]. cbn [fst snd]. rewrite echoes_app. congruence.
Qed.

Lemma run_handler_echoing h e st q :
  quill st = Some q ->
  echoing q (validationState st) (isStudio st)
    (if is_studio h then [studio_echo (ed q) (validationState st)] else [])
    (run_handler h e st).
Proof.
  intros Hq. destruct h; simpl.
  - rewrite (onStudioTextChange_live _ Hq). now repeat split.
  - now repeat split.
  - destruct e as [|rng oldRange]; [now repeat split|].
    rewrite (onSelectionChange_live _ _ _ Hq).
    destruct (_ || _); now repeat split.
Qed.

Lemma handlers_echoing e (l : list (evname * handler)) st q :
  quill st = Some q ->
  echoing q (validationState st) (isStudio st)
    (map (fun _ => studio_echo (ed q) (validationState st))
         (filter (fun x => is_studio (snd x)) l))
    (for_each l (fun x => run_handler (snd x) e) st).
Proof.
  revert st. induction l as [|[ev h] l IH]; intros st Hq; simpl.
  - now repeat split.
  - replace (map _ (if is_studio h then _ else _))
      with ((if is_studio h
             then [studio_echo (ed q) (validationState st)] else [])
              ++ map (fun _ => studio_echo (ed q) (validationState st))
                     (filter (fun l => is_studio (snd l)) l))
      by (destruct (is_studio h); reflexivity).
    apply echoing_then; [now apply run_handler_echoing|].
    intros st1 Q1 V1 S1. specialize (IH st1 Q1).
    now rewrite V1, S1 in IH.
Qed.

Lemma filter_comm {A} (f g : A -> bool) l :
  filter f (filter g l) = filter g (filter f l).
Proof.
  induction l as [|a l IH]; simpl; [reflexivity|].
  destruct (f a) eqn:Ef, (g a) eqn:Eg; simpl; rewrite ?Ef, ?Eg, IH; reflexivity.
Qed.

Lemma emit_echoing e st q :
  quill st = Some q -> studio_wired st ->
  echoing q (validationState st) (isStudio st)
    (if is_text_change e && truthy (isStudio st)
     then [studio_echo (ed q) (validationState st)] else [])
    (emit e st).
Proof.
  intros Hq Hw. unfold emit.
  rewrite bind_perform, (bind_the_quill _ _ Hq).
  destruct (handlers_echoing e
              (filter (fun l => evname_eqb (fst l) (evname_of e)) (listeners q))
              _ Hq) as (R1 & Q1 & V1 & S1 & N1).
  destruct (for_each _ _ st) as [[r st1] e1]; simpl in *.
  repeat split; auto.
  unfold echoes in *. simpl. unfold echoes in N1. rewrite N1.
  rewrite filter_comm, (Hw q Hq).
  destruct (truthy (isStudio st)), e; simpl; reflexivity.
Qed.

Lemma emits_echoing evs st q :
  quill st = Some q -> studio_wired st ->
  echoing q (validationState st) (isStudio st)
    (if truthy (isStudio st)
     then map (fun _ => studio_echo (ed q) (validationState st))
              (filter is_text_change evs)
     else [])
    (for_each evs emit st).
Proof.
  revert st. induction evs as [|e evs IH]; intros st Hq Hw; simpl.
  - destruct (truthy _); now repeat split.
  - replace (if truthy (isStudio st) then _ else _)
      with ((if is_text_change e && truthy (isStudio st)
             then [studio_echo (ed q) (validationState st)] else [])
              ++ (if truthy (isStudio st)
                  then map (fun _ => studio_echo (ed q) (validationState st))
                           (filter is_text_change evs)
                  else []))
      by (destruct (is_text_change e), (truthy (isStudio st)); reflexivity).
    apply echoing_then; [now apply emit_echoing|].
    intros st1 Q1 V1 S1.
    assert (Hw1 : studio_wired st1).
    { intros q1 Hq1. rewrite S1.
      assert (q1 = q) by congruence. subst q1. now apply Hw. }
    specialize (IH st1 Q1 Hw1). now rewrite V1, S1 in IH.
Qed.

Lemma studio_wired_initial studio rs : studio_wired (@initial Editor studio rs).
Proof. intros q Hq; discriminate. Qed.

(** X13: the echo of the studio.  In every state the component can
    reach, when the user changes the document, the studio listener sends
    one UPDATED message with the content property per text change the
    editor reports, each carrying the document as it is after the change
    and the snapshot; selection changes are not echoed, and outside the
    studio nothing is. *)
Theorem studio_echoes_text_changes studio rs history act q :
  quill (fst (run history (initial studio rs))) = Some q ->
  echoes (snd (step (UserAction act) (fst (run history (initial studio rs)))))
  = if truthy studio
    then map (fun _ =>
                studio_echo (fst (act (ed q)))
                  (validationState (fst (run history (initial studio rs)))))
             (filter is_text_change (snd (act (ed q))))
    else [].
Proof.
  destruct (@studio_wired_run history (initial studio rs)
              (@studio_wired_initial studio rs)) as [Hw Hs].
  simpl in Hs.
  set (st := fst (run history (initial studio rs))) in *.
  intros Hq. unfold step. simpl handle. rewrite bind_gets, Hq, bind_modify.
  set (q' := {| inst_id := inst_id q; ed := fst (act (ed q));
                listeners := listeners q |}).
  assert (Hw' : studio_wired (with_quill (Some q') st)).
  { intros q0 [= <-]. simpl. now apply Hw. }
  destruct (@emits_echoing (snd (act (ed q))) (with_quill (Some q') st) q'
              eq_refl Hw') as (_ & _ & _ & _ & N).
  simpl in N. rewrite Hs in N.
  now destruct (for_each _ emit _) as [[r s] effs].
Qed.

(** ** Every handler, step by step *)

Lemma is_queryable_snapshot (x : Editor) v : is_queryable (snapshot x v) = true.
Proof. reflexivity. Qed.

Lemma onStudioTextChange_null st :
  quill st = None -> onStudioTextChange st = (Throw, st, []).
Proof.
  intros Hq. unfold onStudioTextChange. now rewrite bind_the_quill_null.
Qed.

Section Throughout.

Context (R : state Editor -> state Editor -> list effect -> Prop)
        `{!Editing R}.

Lemma editing_call e : is_send e = false -> respects R (perform e).
Proof. intros He st. now apply ed_call. Qed.

Lemma editing_onFocused : respects R onFocused.
Proof.
  intros st. destruct (quill st) as [q|] eqn:Hq.
  - rewrite (onFocused_live _ Hq). simpl.
    apply (frame_trans st st (with_shouldForceFocus false st)
             [Send (Named "onFocused")
                   (arr [snapshot (ed q) (validationState st)])] []).
    + now apply ed_send.
    + apply ed_flag.
  - rewrite (onFocused_null _ Hq). apply frame_refl.
Qed.

Lemma editing_run_handler ev h e st q :
  quill st = Some q -> In (ev, h) (listeners q) ->
  R st (snd (fst (run_handler h e st))) (snd (run_handler h e st)).
Proof.
  intros Hq Hin. destruct h; simpl.
  - rewrite (onStudioTextChange_live _ Hq). now apply ed_send.
  - eapply ed_schedule; eassumption.
  - destruct e as [|rng oldRange]; [apply frame_refl|].
    unfold onSelectionChange. rewrite bind_gets.
    destruct (_ || _); [apply editing_onFocused | apply frame_refl].
Qed.

Lemma editing_handlers e (l : list (evname * handler)) st q :
  quill st = Some q -> incl l (listeners q) ->
  R st (snd (fst (for_each l (fun x => run_handler (snd x) e) st)))
       (snd (for_each l (fun x => run_handler (snd x) e) st)).
Proof.
  revert st. induction l as [|[ev h] l IH]; intros st Hq Hl; simpl.
  - apply frame_refl.
  - destruct (settles_run_handler h e st Hq) as ([] & st1 & e1 & E & Hq1 & _).
    pose proof (@editing_run_handler ev h e st q Hq (Hl _ (or_introl eq_refl)))
      as Hh.
    rewrite E in Hh. simpl in Hh.
    rewrite (bind_returned _ _ _ E).
    assert (Hl' : incl l (listeners q)) by (intros x Hx; apply Hl; now right).
    specialize (IH st1 Hq1 Hl').
    destruct (for_each l _ st1) as [[r st2] e2]. simpl in *.
    eapply frame_trans; eassumption.
Qed.

Lemma editing_emit e st q :
  quill st = Some q -> R st (snd (fst (emit e st))) (snd (emit e st)).
Proof.
  intros Hq. unfold emit. rewrite bind_perform, (bind_the_quill _ _ Hq).
  assert (Hl : incl (filter (fun l => evname_eqb (fst l) (evname_of e))
                            (listeners q)) (listeners q))
    by (intros x Hx; now apply filter_In in Hx).
  pose proof (editing_handlers e st Hq Hl) as Hh.
  destruct (for_each _ _ st) as [[r st1] e1]. simpl in *.
  apply (frame_trans st st st1 [Callback e] e1); [now apply ed_call | exact Hh].
Qed.

Lemma editing_emits evs st q :
  quill st = Some q ->
  R st (snd (fst (for_each evs emit st))) (snd (for_each evs emit st)).
Proof.
  revert st. induction evs as [|e evs IH]; intros st Hq; simpl.
  - apply frame_refl.
  - destruct (settles_emit e st Hq) as ([] & st1 & e1 & E & Hq1 & _).
    pose proof (editing_emit e st Hq) as He. rewrite E in He. simpl in He.
    rewrite (bind_returned _ _ _ E).
    specialize (IH st1 Hq1).
    destruct (for_each evs emit st1) as [[r st2] e2]. simpl in *.
    eapply frame_trans; eassumption.
Qed.

Lemma editing_quill_do e f : is_send e = false -> respects R (quill_do e f).
Proof.
  intros He st. destruct (quill st) as [q|] eqn:Hq.
  - unfold quill_do.
    rewrite (bind_the_quill _ _ Hq), bind_perform, bind_modify.
    set (st1 := with_quill _ st).
    pose proof (@editing_emits (snd (f (ed q))) st1 _ eq_refl) as Hs.
    destruct (for_each _ emit st1) as [[r st2] e2]. simpl in *.
    apply (frame_trans st st st2 [e] e2); [now apply ed_call|].
    apply (frame_trans st st1 st2 [] e2); [|exact Hs].
    apply (ed_editor st (fst (f (ed q))) Hq).
  - rewrite (quill_do_null _ _ _ Hq). apply frame_refl.
Qed.

Ltac walk :=
  repeat match goal with
         | |- respects _ (ret _) => apply respects_ret; exact _
         | |- respects _ (gets _) => apply respects_gets; exact _
         | |- respects _ throw => apply respects_throw; exact _
         | |- respects _ the_quill => apply respects_the_quill; exact _
         | |- respects _ the_properties =>
             apply respects_the_properties; exact _
         | |- respects _ (quill_do _ _) => apply editing_quill_do; reflexivity
         | |- respects _ (perform _) => apply editing_call; reflexivity
         | |- respects _ (when _ _) => apply respects_when; [exact _|]
         | |- respects _ (bind _ _) => apply respects_bind; [exact _ | | intro]
         end.

Lemma editing_updateText text : respects R (updateText text).
Proof.
  unfold updateText. destruct (negb (truthy text)); walk.
  - destruct (negb _); walk.
  - destruct text; walk. destruct (looks_like_html s); walk.
Qed.

Lemma editing_updateQuill : respects R updateQuill.
Proof. unfold updateQuill. walk. apply editing_updateText. Qed.

Lemma editing_initQuill : respects R initQuill.
Proof.
  intro st. rewrite initQuill_eq.
  pose proof (editing_updateQuill (init_state st)) as Hu.
  destruct (updateQuill (init_state st)) as [[r st1] e1]. simpl in *.
  apply (frame_trans st (init_state st) st1); [apply ed_init | exact Hu].
Qed.

Lemma editing_onLoad pd : respects R (onLoad pd).
Proof.
  unfold onLoad.
  apply respects_bind; [exact _ | intro st; apply ed_properties | intros _].
  apply respects_bind; [exact _ | apply respects_gets; exact _ | intros rs].
  destruct rs; try apply editing_initQuill;
    (apply respects_bind;
     [exact _ | now apply editing_call | intros _; intro st; apply ed_awaitsDom]).
Qed.

Lemma editing_onUpdate pd : respects R (onUpdate pd).
Proof.
  unfold onUpdate.
  apply respects_bind; [exact _ | apply respects_gets; exact _ | intros p].
  apply respects_bind; [exact _ | | intros changed].
  { destruct p; walk. destruct (keys pd); walk. }
  destruct (_ =? 0)%nat; walk.
  - intro st; apply ed_properties.
  - destruct (forallb _ _);
      [apply editing_updateQuill | apply editing_initQuill].
Qed.

(** Every event but the ones that may run [validate]. *)
Lemma editing_quiet e : is_validation e = false -> respects R (handle e).
Proof.
  destruct e; simpl is_validation; simpl handle; try discriminate; intros He.
  - apply editing_onLoad.
  - apply editing_onUpdate.
  - unfold listen. rewrite He.
    repeat match goal with
           | |- respects R (if ?b then _ else _) => destruct b
           end;
      walk; try apply editing_updateText; apply editing_onFocused.
  - intro st. apply ed_flag.
  - apply respects_bind; [exact _ | apply respects_gets; exact _ | intros rs].
    destruct rs; walk; [intro st; apply ed_readyState | apply editing_initQuill].
  - intro st. apply ed_readyState.
  - intro st. rewrite bind_gets.
    destruct (quill st) as [q|] eqn:Hq; [|apply frame_refl].
    rewrite bind_modify. set (st1 := with_quill _ st).
    pose proof (@editing_emits (snd (act (ed q))) st1 _ eq_refl) as Hs.
    destruct (for_each _ emit st1) as [[r st2] e2]. simpl in *.
    apply (frame_trans st st1 st2 [] e2); [|exact Hs].
    apply (ed_editor st (fst (act (ed q))) Hq).
  - walk.
  - walk.
Qed.

(** And those too, for a frame that [validate] and the clock respect. *)
Lemma editing_handle e :
  respects R validate -> (forall dt, respects R (advance dt)) ->
  respects R (handle e).
Proof.
  intros Hv Hc. destruct (is_validation e) eqn:He;
    [|now apply editing_quiet].
  destruct e; try discriminate; simpl in *.
  - unfold listen. now rewrite He.
  - apply Hc.
Qed.

End Throughout.

Section Always.

Context (R : state Editor -> state Editor -> list effect -> Prop)
        `{!Validating R}.

Lemma validating_validate : respects R validate.
Proof.
  intros st. destruct (quill st) as [q|] eqn:Hq;
    [|rewrite (validate_null _ Hq); apply frame_refl].
  rewrite (validate_live _ Hq).
  set (st1 := with_validationState (verdict q) st).
  assert (H1 : R st st1 []).
  { apply (frame_trans st _ st1 [] [] (vl_validated st)).
    apply (vl_isEmpty
             (with_validationState
                {| validated := true; isEmpty := isEmpty (validationState st) |}
                st)). }
  assert (H2 : respects R
                 (bind the_properties
                    (fun p =>
                       bind
                         match set_member "ops" (arr (q_getContents (ed q)))
                                 (lookup "content" p) with
                         | None => throw
                         | Some content =>
                             modify (with_properties
                                       (Some (assign "content" content p)))
                         end
                         (fun _ =>
                            bind (send UPDATED
                                    (VObj [("queryable",
                                            snapshot (ed q) (verdict q))]))
                                 (fun _ =>
                                    send (Named "onValidated")
                                         (arr [snapshot (ed q) (verdict q)])))))).
  { apply respects_bind;
      [exact _ | apply respects_the_properties; exact _ | intros p].
    apply respects_bind; [exact _ | | intros _].
    - destruct (set_member _ _ _); [|apply respects_throw; exact _].
      intro s. apply ed_properties.
    - apply respects_bind; [exact _ | | intros _]; intro s; now apply ed_send. }
  specialize (H2 st1).
  destruct (bind the_properties _ st1) as [[r st2] e2]. simpl in *.
  apply (frame_trans st st1 st2 [] e2 H1 H2).
Qed.

Lemma validating_advance dt : respects R (advance dt).
Proof.
  intros st. unfold advance.
  rewrite bind_modify, !bind_gets, bind_modify.
  set (st1 := with_now (now st + dt) st).
  set (st2 := with_timers _ st1).
  assert (H12 : R st st2 []).
  { apply (frame_trans st st1 st2 [] [] (vl_now st dt)). apply (vl_due st1). }
  assert (Hf : respects R
                 (for_each (filter (is_due (now st1)) (timers st1))
                    (fun x => bind (perform (Timeout (fst x)))
                                   (fun _ => task validate)))).
  { apply respects_for_each; [exact _|]. intros x.
    apply respects_bind;
      [exact _ | apply editing_call; [exact _ | reflexivity] | intros _].
    apply respects_task; try exact _. apply validating_validate. }
  specialize (Hf st2).
  destruct (for_each _ _ st2) as [[r st3] e3]. simpl in *.
  apply (frame_trans st st2 st3 [] e3 H12 Hf).
Qed.

Lemma validating_step e st : R st (fst (step e st)) (snd (step e st)).
Proof.
  pose proof (@editing_handle R _ e validating_validate validating_advance st)
    as Hr.
  unfold step. destruct (handle e st) as [[r s] effs]. exact Hr.
Qed.

Lemma validating_run evs st : R st (fst (run evs st)) (snd (run evs st)).
Proof.
  revert st. induction evs as [|e evs IH]; intros st; simpl.
  - apply frame_refl.
  - pose proof (validating_step e st) as H1.
    destruct (step e st) as [st1 e1]. specialize (IH st1).
    destruct (run evs st1) as [st2 e2]. simpl in *.
    eapply frame_trans; eassumption.
Qed.

End Always.

(** ** The outbound protocol *)

#[local] Instance protocol_frame_Frame : Frame (Editor := Editor) protocol_frame.
Proof.
  split; unfold protocol_frame.
  - reflexivity.
  - intros a b c e1 e2 H1 H2. now rewrite forallb_app, H1, H2.
Qed.

Lemma init_effects_outbound st : forallb is_outbound (init_effects st) = true.
Proof.
  unfold init_effects.
  destruct (is_some (quill st)), (truthy (isStudio st)),
    (truthy (opt_member "debounce" (properties st))); reflexivity.
Qed.

#[local] Instance protocol_frame_Editing : Editing (Editor := Editor) protocol_frame.
Proof.
  split; unfold protocol_frame; try reflexivity.
  - exact _.
  - intros e st He. destruct e; try discriminate; reflexivity.
  - intros c payload st Hs. cbn [forallb]. now rewrite Hs.
  - intros st. apply init_effects_outbound.
Qed.

#[local] Instance protocol_frame_Validating :
  Validating (Editor := Editor) protocol_frame.
Proof. split; unfold protocol_frame; try reflexivity. exact _. Qed.

(** X10: the outbound protocol.  Over every sequence of events, from
    every state, each message the adapter sends to the host is one of
    these: UPDATED with a queryable snapshot, alone (validate) or beside
    an update of the content property that carries a document (the
    studio listener); onValidated or onFocused with an array of one
    queryable snapshot.  A snapshot has exactly the keys text, html,
    content and validation, with two strings, a document and the two
    boolean flags.  No other event name is ever sent. *)
Theorem outbound_protocol evs st :
  forallb is_outbound (snd (run evs st)) = true.
Proof. apply (validating_run (R := protocol_frame)). Qed.

(** ** What is never taken back *)

#[local] Instance grows_Frame : Frame (Editor := Editor) grows.
Proof.
  split; unfold grows.
  - intros st. auto.
  - intros a b c e1 e2 (Q1 & P1 & V1) (Q2 & P2 & V2). auto.
Qed.

#[local] Instance grows_Editing : Editing (Editor := Editor) grows.
Proof.
  split; unfold grows; try (intros; simpl; auto; fail).
  exact _.
Qed.

#[local] Instance grows_Validating : Validating (Editor := Editor) grows.
Proof.
  split; unfold grows; try (intros; simpl; auto; fail).
  exact _.
Qed.

(** X11: the module state only grows.  Over every sequence of events:
    once an editor exists, one exists ever after (initQuill replaces it,
    nothing sets quill back to null), so the null checks of the
    listeners matter before the first initialisation only; and once
    properties have been loaded they are never null again. *)
Theorem editor_is_never_lost evs st :
  (is_some (quill st) = true -> is_some (quill (fst (run evs st))) = true) /\
  (is_some (properties st) = true ->
   is_some (properties (fst (run evs st))) = true).
Proof.
  destruct (validating_run (R := grows) evs st) as (Q & P & _). now split.
Qed.

#[local] Instance flags_frame_Frame : Frame (Editor := Editor) flags_frame.
Proof.
  split; unfold flags_frame.
  - reflexivity.
  - intros a b c e1 e2 H1 H2. congruence.
Qed.

#[local] Instance flags_frame_Editing : Editing (Editor := Editor) flags_frame.
Proof.
  split; unfold flags_frame; try reflexivity.
  exact _.
Qed.

(** X12: the validation flags belong to validate.  An event that is
    neither the validate message nor the passing of time leaves both
    flags as they are: loading and updating the properties and
    re-creating the editor do not reset them, so that the snapshots of a
    new editor carry the flags computed on the old one.  And over every
    sequence of events, validated, once true, stays true. *)
Theorem validation_flags_persist :
  (forall e st,
     is_validation e = false ->
     validationState (fst (step e st)) = validationState st) /\
  (forall evs st,
     validated (validationState st) = true ->
     validated (validationState (fst (run evs st))) = true).
Proof.
  split.
  - intros e st He.
    pose proof (editing_quiet (R := flags_frame) e He st) as Hr.
    unfold step. now destruct (handle e st) as [[r s] effs].
  - intros evs st. now destruct (validating_run (R := grows) evs st) as (_ & _ & V).
Qed.

(** ** Timers across initialisations *)

#[local] Instance kept_frame_Frame : Frame (Editor := Editor) kept_frame.
Proof.
  split; unfold kept_frame.
  - intros st. split; [apply Nat.le_refl|]. intros n _ Hl. now split.
  - intros a b c e1 e2 [F1 K1] [F2 K2]. split; [lia|].
    intros n Hn Hl. destruct (K1 n Hn Hl) as [Hl1 T1].
    destruct (K2 n ltac:(lia) Hl1) as [Hl2 T2]. split; auto.
Qed.

Lemma kept_frame_same st st' effs :
  fresh st' = fresh st -> timers st' = timers st ->
  (forall q', quill st' = Some q' ->
     exists q, quill st = Some q /\ listeners q' = listeners q) ->
  kept_frame st st' effs.
Proof.
  intros Hf Ht Hq. split; [rewrite Hf; apply Nat.le_refl|].
  intros n _ Hl. split; [|now rewrite Ht].
  intros q' ev t w Hq' Hin. destruct (Hq q' Hq') as (q & Hq0 & E).
  rewrite E in Hin. eapply Hl; eassumption.
Qed.

Lemma init_listeners_timer st ev t w :
  In (ev, DebouncedValidate t w) (init_listeners st) ->
  t = S (fresh st) /\ truthy (opt_member "debounce" (properties st)) = true.
Proof.
  unfold init_listeners, init_debounced.
  destruct (truthy (isStudio st)),
    (truthy (opt_member "debounce" (properties st))); simpl;
    intros Hin;
    repeat match type of Hin with
           | _ \/ _ => destruct Hin as [Hin | Hin]
           end;
    try discriminate; try contradiction;
    injection Hin as _ <- _; now split.
Qed.

#[local] Instance kept_frame_Editing : Editing (Editor := Editor) kept_frame.
Proof.
  split.
  - exact _.
  - intros e st _. apply kept_frame_same; eauto.
  - intros c payload st _. apply kept_frame_same; eauto.
  - intros st q ed' Hq. apply kept_frame_same; try reflexivity.
    intros q' [= <-]. eauto.
  - intros st. split; [simpl; destruct (truthy _); lia|].
    intros n Hn _. split; [|auto].
    intros q ev t w [= <-] Hin. simpl in Hin.
    apply init_listeners_timer in Hin as [-> _]. lia.
  - intros st q ev timer wait Hq Hin. split; [apply Nat.le_refl|].
    intros n _ Hl. split; [exact Hl|].
    intros t Ht Hn. simpl. right. apply filter_In. split; [exact Ht|].
    apply negb_true_iff, Nat.eqb_neq.
    specialize (Hl q ev timer wait Hq Hin). lia.
  - intros st b. apply kept_frame_same; eauto.
  - intros st p. apply kept_frame_same; eauto.
  - intros st r. apply kept_frame_same; eauto.
  - intros st. apply kept_frame_same; eauto.
Qed.

#[local] Instance known_frame_Frame : Frame (Editor := Editor) known_frame.
Proof.
  split; unfold known_frame.
  - intros st. split; auto.
  - intros a b c e1 e2 [F1 K1] [F2 K2]. split; [lia | auto].
Qed.

Lemma known_frame_same st st' effs :
  fresh st' = fresh st ->
  (forall t, In t (timers st') -> In t (timers st)) ->
  (forall q', quill st' = Some q' ->
     exists q, quill st = Some q /\ listeners q' = listeners q) ->
  known_frame st st' effs.
Proof.
  intros Hf Ht Hq. split; [rewrite Hf; apply Nat.le_refl|].
  intros [T L]. unfold timers_known. rewrite Hf. split.
  - intros t Hin. apply T, Ht, Hin.
  - intros q' ev t w Hq' Hin. destruct (Hq q' Hq') as (q & Hq0 & E).
    rewrite E in Hin. eapply L; eassumption.
Qed.

#[local] Instance known_frame_Editing : Editing (Editor := Editor) known_frame.
Proof.
  split.
  - exact _.
  - intros e st _. apply known_frame_same; eauto.
  - intros c payload st _. apply known_frame_same; eauto.
  - intros st q ed' Hq. apply known_frame_same; try reflexivity; auto.
    intros q' [= <-]. eauto.
  - intros st. split; [simpl; destruct (truthy _); lia|].
    intros [T L]. split.
    + intros t Hin. simpl in *. specialize (T t Hin).
      destruct (truthy _); lia.
    + intros q ev t w [= <-] Hin. simpl in Hin.
      apply init_listeners_timer in Hin as [-> Hd]. simpl. rewrite Hd. lia.
  - intros st q ev timer wait Hq Hin. split; [apply Nat.le_refl|].
    intros [T L]. split; [|exact L].
    intros t [<- | Ht]; simpl.
    + eapply L; eassumption.
    + apply filter_In in Ht. now apply T.
  - intros st b. apply known_frame_same; eauto.
  - intros st p. apply known_frame_same; eauto.
  - intros st r. apply known_frame_same; eauto.
  - intros st. apply known_frame_same; eauto.
Qed.

#[local] Instance known_frame_Validating :
  Validating (Editor := Editor) known_frame.
Proof.
  split.
  - exact _.
  - intros st. apply known_frame_same; eauto.
  - intros st b. apply known_frame_same; eauto.
  - intros st dt. apply known_frame_same; eauto.
  - intros st. apply known_frame_same; try reflexivity; eauto.
    intros t Hin. simpl in Hin. now apply filter_In in Hin.
Qed.

Lemma timers_known_initial studio rs : timers_known (@initial Editor studio rs).
Proof. split; [intros t [] | intros q ev t w Hq; discriminate]. Qed.

Lemma timeout_fires (l : list (nat * nat)) x st :
  In x l ->
  In (Timeout (fst x))
     (snd (for_each l
             (fun x => bind (perform (Timeout (fst x)))
                            (fun _ => task validate)) st)).
Proof.
  assert (E : forall (a : nat * nat) (s : state Editor),
            bind (perform (Timeout (fst a))) (fun _ => task validate) s
            = (Return tt, snd (fst (validate s)),
               Timeout (fst a) :: snd (validate s))).
  { intros a s. rewrite bind_perform. unfold task.
    now destruct (validate s) as [[r s1] e1]. }
  revert st. induction l as [|a l IH]; intros st Hin; [contradiction|].
  cbn [for_each]. rewrite (bind_returned _ _ _ (E a st)).
  destruct (in_inv Hin) as [-> | Hin'].
  - destruct (for_each l _ _) as [[r2 st2] e2]. now left.
  - specialize (IH (snd (fst (validate st))) Hin').
    destruct (for_each l _ _) as [[r2 st2] e2]. cbn [after snd] in *.
    right. apply in_or_app. now right.
Qed.

Lemma timers_survive_init studio rs history t :
  In t (timers (fst (run history (initial studio rs)))) ->
  In t (timers (snd (fst (initQuill (fst (run history (initial studio rs))))))).
Proof.
  destruct (validating_run (R := known_frame) history (initial studio rs))
    as [_ Hk].
  specialize (Hk (@timers_known_initial studio rs)).
  set (st := fst (run history (initial studio rs))) in *.
  intros Hin. destruct Hk as [T _].
  rewrite initQuill_eq.
  pose proof (editing_updateQuill (R := kept_frame) (init_state st)) as [_ Hu].
  destruct (updateQuill (init_state st)) as [[r st1] e1]. simpl in *.
  apply (Hu (fresh st)).
  - destruct (truthy _); lia.
  - intros q ev t0 w [= <-] Hl. simpl in Hl.
    apply init_listeners_timer in Hl as [-> _]. lia.
  - exact Hin.
  - now apply T.
Qed.

(** [validate] on a live editor: it is this editor that is validated, and
    with an object as stored content its report is sent. *)
Lemma validate_on_live st q :
  quill st = Some q ->
  quill (snd (fst (validate st))) = Some q /\
  validationState (snd (fst (validate st))) = verdict q /\
  filter is_timeout (snd (validate st)) = [] /\
  (forall p,
     properties st = Some p -> is_object (lookup "content" p) = true ->
     snd (validate st) = validation_report q /\
     exists p',
       properties (snd (fst (validate st))) = Some p' /\
       is_object (lookup "content" p') = true).
Proof.
  intros Hq.
  destruct (properties st) as [p|] eqn:Hp.
  - destruct (is_object (lookup "content" p)) eqn:Hc.
    + destruct (validate_structured st Hq Hp Hc) as (c & Hset & E).
      rewrite E. cbn [fst snd].
      split; [exact Hq|]. split; [reflexivity|]. split; [reflexivity|].
      intros p0 [= <-] _. split; [reflexivity|].
      eexists. split; [reflexivity|]. rewrite lookup_assign.
      now destruct (set_member_again _ _ _ Hset).
    + rewrite (validate_unstructured st Hq) by (right; exists p; auto).
      cbn [fst snd].
      split; [exact Hq|]. split; [reflexivity|]. split; [reflexivity|].
      intros p0 [= <-] Hc0. congruence.
  - rewrite (validate_unstructured st Hq) by now left.
    cbn [fst snd].
    split; [exact Hq|]. split; [reflexivity|]. split; [reflexivity|].
    discriminate.
Qed.

(** The timers that run out together each validate the live editor. *)
Lemma timers_fire (l : list (nat * nat)) st q :
  quill st = Some q ->
  quill (snd (fst (for_each l
     (fun x => bind (perform (Timeout (fst x))) (fun _ => task validate)) st)))
    = Some q /\
  filter is_timeout (snd (for_each l
     (fun x => bind (perform (Timeout (fst x))) (fun _ => task validate)) st))
    = map (fun x => Timeout (fst x)) l /\
  validationState (snd (fst (for_each l
     (fun x => bind (perform (Timeout (fst x))) (fun _ => task validate)) st)))
    = match l with [] => validationState st | _ :: _ => verdict q end /\
  (forall p,
     properties st = Some p -> is_object (lookup "content" p) = true ->
     snd (for_each l
       (fun x => bind (perform (Timeout (fst x))) (fun _ => task validate)) st)
     = flat_map (fun x => Timeout (fst x) :: validation_report q) l).
Proof.
  assert (E : forall (a : nat * nat) (s : state Editor),
            bind (perform (Timeout (fst a))) (fun _ => task validate) s
            = (Return tt, snd (fst (validate s)),
               Timeout (fst a) :: snd (validate s))).
  { intros a s. rewrite bind_perform. unfold task.
    now destruct (validate s) as [[r s1] e1]. }
  revert st. induction l as [|x l IH]; intros st Hq.
  - cbn [for_each]. unfold ret. cbn [fst snd]. repeat split; auto.
  - cbn [for_each]. rewrite (bind_returned _ _ _ (E x st)).
    destruct (validate_on_live st Hq) as (Q & V & T & O).
    destruct (IH _ Q) as (Q1 & T1 & V1 & O1).
    destruct (for_each l _ (snd (fst (validate st)))) as [[r st2] e2].
    cbn [after fst snd] in *.
    split; [exact Q1|]. split; [|split].
    + rewrite <- app_comm_cons. cbn [filter is_timeout map].
      rewrite filter_app, T, T1. reflexivity.
    + rewrite V1. destruct l; [exact V | reflexivity].
    + intros p Hp Hc. destruct (O p Hp Hc) as (E1 & p' & Hp' & Hc').
      cbn [flat_map]. rewrite E1, (O1 p' Hp' Hc').
      rewrite <- app_comm_cons. reflexivity.
Qed.

(** What the passing of time does, as one loop over the timers that have
    run out. *)
Lemma step_time dt st :
  step (TimePasses dt) st
  = (snd (fst (for_each (filter (is_due (now st + dt)) (timers st))
        (fun x => bind (perform (Timeout (fst x))) (fun _ => task validate))
        (with_timers (filter (fun x => negb (is_due (now st + dt) x)) (timers st))
           (with_now (now st + dt) st)))),
     snd (for_each (filter (is_due (now st + dt)) (timers st))
        (fun x => bind (perform (Timeout (fst x))) (fun _ => task validate))
        (with_timers (filter (fun x => negb (is_due (now st + dt) x)) (timers st))
           (with_now (now st + dt) st)))).
Proof.
  unfold step. simpl handle. unfold advance.
  rewrite bind_modify, !bind_gets, bind_modify.
  cbn [now timers with_now].
  now destruct (for_each _ _ _) as [[r s] effs].
Qed.

(** A timer that has run out validates the live editor. *)
Lemma time_validates st q t dt :
  quill st = Some q -> In t (timers st) -> snd t <= now st + dt ->
  quill (fst (step (TimePasses dt) st)) = Some q /\
  validationState (fst (step (TimePasses dt) st)) = verdict q /\
  In (Timeout (fst t)) (snd (step (TimePasses dt) st)) /\
  (forall p,
     properties st = Some p -> is_object (lookup "content" p) = true ->
     snd (step (TimePasses dt) st)
     = flat_map (fun x => Timeout (fst x) :: validation_report q)
         (filter (is_due (now st + dt)) (timers st))).
Proof.
  intros Hq Hin Hdue. rewrite step_time. cbn [fst snd].
  assert (Hd : In t (filter (is_due (now st + dt)) (timers st))).
  { apply filter_In. split; [exact Hin|]. unfold is_due. now apply Nat.leb_le. }
  destruct (@timers_fire (filter (is_due (now st + dt)) (timers st))
              (with_timers
                 (filter (fun x => negb (is_due (now st + dt) x)) (timers st))
                 (with_now (now st + dt) st)) q Hq)
    as (Q & T & V & O).
  split; [exact Q|]. split; [|split].
  - rewrite V. destruct (filter _ _); [contradiction | reflexivity].
  - assert (Hm : In (Timeout (fst t))
                   (map (fun x : nat * nat => Timeout (fst x))
                      (filter (is_due (now st + dt)) (timers st))))
      by (apply in_map_iff; exists t; auto).
    rewrite <- T in Hm. now apply filter_In in Hm.
  - intros p Hp Hc. now apply (O p).
Qed.

(** X14: a pending debounced validation survives the editor it was
    armed on, and validates the editor that replaced it.  In every state
    the component can reach, initQuill cancels no pending timer: each one
    is still pending when the new editor is in place.  A pending timer
    fires as soon as its deadline has passed, whatever editor is live
    then.  When it fires, validate runs on the editor that is live at that
    moment: the editor stays in place, the validation flags become those
    of its text, and with an object as stored content the passing of time
    produces, for each timer that ran out, the timeout followed by the
    UPDATED message and the onValidated event that carry the snapshot of
    this editor, and nothing else.  Hence after a re-initialisation in a
    reachable state with properties, a timer armed on the old editor
    fires on the new one, the instance initQuill has just created: the
    flags are those of the new editor's text and, with an object as
    stored content, onValidated carries the new editor's snapshot. *)
Theorem pending_validation_survives :
  (forall studio rs history t,
     In t (timers (fst (run history (initial studio rs)))) ->
     In t (timers
             (snd (fst (initQuill (fst (run history (initial studio rs)))))))) /\
  (forall st t dt,
     In t (timers st) -> snd t <= now st + dt ->
     In (Timeout (fst t)) (snd (step (TimePasses dt) st))) /\
  (forall st q t dt,
     quill st = Some q -> In t (timers st) -> snd t <= now st + dt ->
     quill (fst (step (TimePasses dt) st)) = Some q /\
     validationState (fst (step (TimePasses dt) st)) = verdict q /\
     (forall p,
        properties st = Some p -> is_object (lookup "content" p) = true ->
        snd (step (TimePasses dt) st)
        = flat_map (fun x => Timeout (fst x) :: validation_report q)
            (filter (is_due (now st + dt)) (timers st)))) /\
  (forall studio rs history p t dt,
     properties (fst (run history (initial studio rs))) = Some p ->
     In t (timers (fst (run history (initial studio rs)))) ->
     snd t
       <= now (snd (fst (initQuill (fst (run history (initial studio rs))))))
          + dt ->
     exists q',
       quill (snd (fst (initQuill (fst (run history (initial studio rs))))))
         = Some q' /\
       inst_id q' = fresh (fst (run history (initial studio rs))) /\
       In (Timeout (fst t))
          (snd (step (TimePasses dt)
                  (snd (fst (initQuill
                               (fst (run history (initial studio rs)))))))) /\
       validationState
         (fst (step (TimePasses dt)
                 (snd (fst (initQuill
                              (fst (run history (initial studio rs))))))))
         = verdict q' /\
       (is_object (lookup "content" p) = true ->
        In (Send (Named "onValidated") (arr [snapshot (ed q') (verdict q')]))
           (snd (step (TimePasses dt)
                   (snd (fst (initQuill
                                (fst (run history (initial studio rs)))))))))).
Proof.
  split; [|split; [|split]].
  - intros studio rs history t. apply timers_survive_init.
  - intros st t dt Hin Hdue. rewrite step_time. cbn [snd].
    apply timeout_fires. apply filter_In. split; [exact Hin|].
    unfold is_due. now apply Nat.leb_le.
  - intros st q t dt Hq Hin Hdue.
    destruct (@time_validates st q t dt Hq Hin Hdue) as (Q & V & _ & O). auto.
  - intros studio rs history p t dt Hp Hin Hdue.
    pose proof (timers_survive_init studio rs history t Hin) as Hin'.
    destruct (initQuill_runs (fst (run history (initial studio rs))) Hp)
      as (st' & effs & ed' & E & _ & Hq' & Hp').
    rewrite E in *. cbn [fst snd] in *.
    eexists. split; [exact Hq'|]. split; [reflexivity|].
    destruct (@time_validates _ _ t dt Hq' Hin' Hdue) as (Q & V & F & O).
    split; [exact F|]. split; [exact V|].
    intros Hc. rewrite (O p Hp' Hc). apply in_flat_map.
    exists t. split.
    + apply filter_In. split; [exact Hin'|]. unfold is_due. now apply Nat.leb_le.
    + right. right. now left.
Qed.

(** ** A read-only editor *)

Lemma enable_in_calls effs : In (Enable true) effs -> In (Enable true) (calls effs).
Proof. intros Hin. apply filter_In. now split. Qed.

Lemma entry_point_enable text : entry_point text <> Enable true.
Proof.
  destruct text; simpl; try discriminate.
  destruct (looks_like_html s); discriminate.
Qed.

Lemma refresh_calls_read_only p b :
  truthy (lookup "readOnly" p) = true -> ~ In (Enable true) (refresh_calls p b).
Proof.
  intros Hr. unfold refresh_calls. rewrite Hr. simpl.
  pose proof (entry_point_enable (lookup "content" p)) as He.
  destruct (truthy (lookup "content" p)); simpl; intros Hin;
    repeat match type of Hin with
           | _ \/ _ => destruct Hin as [Hin | Hin]
           end;
    try discriminate; try contradiction.
Qed.

Lemma init_effects_enable st : ~ In (Enable true) (init_effects st).
Proof.
  unfold init_effects.
  destruct (is_some (quill st)), (truthy (isStudio st)),
    (truthy (opt_member "debounce" (properties st))); simpl; intros Hin;
    repeat match type of Hin with
           | _ \/ _ => destruct Hin as [Hin | Hin]
           end;
    try discriminate; try contradiction.
Qed.

Lemma validate_calls st : calls (snd (validate st)) = [].
Proof.
  destruct (quill st) as [q|] eqn:Hq;
    [|now rewrite (validate_null _ Hq)].
  destruct (properties st) as [p|] eqn:Hp.
  - destruct (is_object (lookup "content" p)) eqn:Hc.
    + destruct (validate_structured st Hq Hp Hc) as (c & _ & E). now rewrite E.
    + rewrite (validate_unstructured st Hq); [reflexivity|].
      right; exists p; auto.
  - rewrite (validate_unstructured st Hq); [reflexivity | now left].
Qed.

Lemma timeouts_calls (l : list (nat * nat)) st :
  calls (snd (for_each l
                (fun x => bind (perform (Timeout (fst x)))
                               (fun _ => task validate)) st)) = [].
Proof.
  assert (E : forall (a : nat * nat) (s : state Editor),
            bind (perform (Timeout (fst a))) (fun _ => task validate) s
            = (Return tt, snd (fst (validate s)),
               Timeout (fst a) :: snd (validate s))).
  { intros a s. rewrite bind_perform. unfold task.
    now destruct (validate s) as [[r s1] e1]. }
  revert st. induction l as [|a l IH]; intros st; [reflexivity|].
  cbn [for_each]. rewrite (bind_returned _ _ _ (E a st)).
  specialize (IH (snd (fst (validate st)))).
  destruct (for_each l _ _) as [[r2 st2] e2]. cbn [after snd] in *.
  change (Timeout (fst a) :: snd (validate st))
    with ([Timeout (fst a)] ++ snd (validate st)).
  now rewrite !calls_app, validate_calls, IH.
Qed.

Lemma initQuill_unloaded st :
  properties st = None -> initQuill st = (Throw, init_state st, init_effects st).
Proof.
  intros Hp. rewrite initQuill_eq.
  rewrite (@updateQuill_unloaded (init_state st) _ eq_refl Hp).
  simpl. now rewrite app_nil_r.
Qed.

Lemma updateText_read_only text st :
  read_only (snd (fst (updateText text st))) = true ->
  ~ In (Enable true) (snd (updateText text st)).
Proof.
  destruct (truthy text) eqn:Ht;
    [|rewrite (updateText_falsy _ _ Ht); intros _ []].
  destruct (quill st) as [q|] eqn:Hq;
    [|rewrite (updateText_null _ _ Hq Ht); intros _ []].
  destruct (updateText_live text st Hq Ht) as (st' & effs & E & Hc & _ & Henv).
  rewrite E. simpl. unfold read_only.
  rewrite (same_env_properties Henv). intros Hr Hin.
  apply enable_in_calls in Hin. rewrite Hc, Hr in Hin. simpl in Hin.
  destruct Hin as [Hin | []]. now apply (entry_point_enable text).
Qed.

Lemma updateQuill_read_only st :
  read_only (snd (fst (updateQuill st))) = true ->
  ~ In (Enable true) (snd (updateQuill st)).
Proof.
  destruct (quill st) as [q|] eqn:Hq;
    [|rewrite (updateQuill_null _ Hq); intros _ []].
  destruct (properties st) as [p|] eqn:Hp;
    [|rewrite (updateQuill_unloaded _ Hq Hp); intros _ []].
  destruct (updateQuill_live st Hq Hp) as (st' & effs & ed' & E & Hc & _ & Henv).
  rewrite E. simpl. unfold read_only.
  rewrite (same_env_properties Henv), Hp. simpl. intros Hr Hin.
  apply enable_in_calls in Hin. rewrite Hc in Hin.
  exact (@refresh_calls_read_only _ _ Hr Hin).
Qed.

Lemma initQuill_read_only st :
  read_only (snd (fst (initQuill st))) = true ->
  ~ In (Enable true) (snd (initQuill st)).
Proof.
  destruct (properties st) as [p|] eqn:Hp.
  - destruct (initQuill_runs st Hp) as (st' & effs & ed' & E & Hc & _ & Hp').
    rewrite E. simpl. unfold read_only. rewrite Hp'. simpl. intros Hr Hin.
    apply enable_in_calls in Hin. rewrite Hc in Hin.
    apply in_app_or in Hin as [Hin | Hin].
    + now apply (init_effects_enable st).
    + exact (@refresh_calls_read_only _ _ Hr Hin).
  - rewrite (initQuill_unloaded _ Hp). simpl. intros _.
    apply init_effects_enable.
Qed.

(** X15: a read-only editor is never enabled.  Whatever the event, if
    the properties stored when its handler ends say readOnly, the handler
    has not called enable(true): a load or an update that makes or keeps
    the editor read-only ends with enable(false) and does not toggle the
    editor while it applies the content, and content messages, focus,
    validation, timers and user actions do not enable it either. *)
Theorem read_only_is_never_enabled e st :
  read_only (fst (step e st)) = true ->
  ~ In (Enable true) (snd (step e st)).
Proof.
  assert (Hstep : forall m : M Editor unit,
            handle e = m ->
            (read_only (snd (fst (m st))) = true ->
             ~ In (Enable true) (snd (m st))) ->
            read_only (fst (step e st)) = true ->
            ~ In (Enable true) (snd (step e st))).
  { intros m <-. unfold step. now destruct (handle e st) as [[r s] effs]. }
  assert (Hnone : forall (x : outcome unit * state Editor * list effect),
            calls (snd x) = [] ->
            read_only (snd (fst x)) = true -> ~ In (Enable true) (snd x)).
  { intros x Hc _ Hin. apply enable_in_calls in Hin. now rewrite Hc in Hin. }
  assert (Hdo : forall x f,
            x <> Enable true -> is_callback x = false ->
            forall s : state Editor,
              read_only (snd (fst (quill_do x f s))) = true ->
              ~ In (Enable true) (snd (quill_do x f s))).
  { intros x f Hx Hcb s _ Hin.
    destruct (quill s) as [q|] eqn:Hq;
      [|now rewrite (quill_do_null _ _ _ Hq) in Hin].
    destruct (quill_do_live x f _ Hq) as (s' & cbs & E & _ & _ & Hc).
    rewrite E in Hin. cbn [snd] in Hin. apply enable_in_calls in Hin.
    rewrite calls_call, Hc in Hin by exact Hcb.
    destruct Hin as [Hin | []]. now apply Hx. }
  destruct e; apply (Hstep _ eq_refl); simpl handle.
  - unfold onLoad. rewrite bind_modify, bind_gets.
    destruct (readyState _); try (intros _ [[=]|[]]).
    apply initQuill_read_only.
  - destruct (properties st) as [old|] eqn:Hp.
    + rewrite onUpdate_unfold with (old := old) by exact Hp.
      destruct (_ =? 0)%nat; [intros _ []|].
      destruct (forallb _ _);
        [apply updateQuill_read_only | apply initQuill_read_only].
    + rewrite (onUpdate_unloaded _ _ Hp).
      destruct (onUpdate pd st) as [[r s] effs] eqn:E.
      pose proof (onUpdate_unloaded st pd Hp) as He. rewrite E in He.
      simpl in *. subst effs. intros _ [].
  - unfold listen.
    destruct (name =? "validate"); [apply Hnone, validate_calls|].
    assert (Hupd : forall text,
              read_only
                (snd (fst (bind (gets quill)
                             (fun q : option (instance Editor) =>
                                when (is_some q) (updateText text)) st))) = true ->
              ~ In (Enable true)
                  (snd (bind (gets quill)
                          (fun q : option (instance Editor) =>
                             when (is_some q) (updateText text)) st))).
    { intros text. rewrite bind_gets.
      destruct (quill st); simpl when;
        [apply updateText_read_only | intros _ []]. }
    destruct (name =? "setText"); [apply Hupd|].
    destruct (name =? "setContent"); [apply Hupd|].
    destruct (name =? "clearText"); [apply Hupd|].
    destruct (name =? "focusText"); [|intros _ []].
    rewrite bind_gets.
    destruct (quill st) as [q|] eqn:Hq; simpl when; [|intros _ []].
    destruct (@focusText_keeps st q args Hq) as (st' & cbs & E & Hc & _).
    rewrite listen_focusText, bind_gets, Hq in E. simpl when in E.
    rewrite E. cbn [fst snd]. intros _ Hin.
    apply enable_in_calls in Hin.
    rewrite calls_call, Hc in Hin by reflexivity.
    destruct Hin as [Hin | []]. discriminate.
  - intros _ [].
  - rewrite bind_gets. destruct (readyState st); try (intros _ []).
    rewrite bind_modify, bind_gets.
    destruct (awaitsDom _); simpl when; [apply initQuill_read_only | intros _ []].
  - intros _ [].
  - rewrite bind_gets.
    destruct (quill st) as [q|] eqn:Hq; [|intros _ []].
    rewrite bind_modify.
    set (q' := {| inst_id := inst_id q; ed := fst (act (ed q));
                  listeners := listeners q |}).
    destruct (@settles_for_each _ (snd (act (ed q))) emit settles_emit
                (with_quill (Some q') st) q' eq_refl)
      as ([] & st' & cbs & E & _ & _ & Hc).
    apply Hnone. now rewrite E.
  - rewrite bind_gets. destruct (quill st); simpl when; [|intros _ []].
    apply Hdo; [discriminate | reflexivity].
  - rewrite bind_gets. destruct (quill st); simpl when; [|intros _ []].
    apply Hdo; [discriminate | reflexivity].
  - apply Hnone. unfold advance.
    rewrite bind_modify, !bind_gets, bind_modify. apply timeouts_calls.
Qed.

(** ** Updates, repeated and echoed *)

Lemma refresh_keeps_properties st pd (only_mutable : bool) :
  properties
    (snd (fst ((if only_mutable then updateQuill else initQuill)
                 (with_properties (Some pd) st)))) = Some pd.
Proof.
  set (st0 := with_properties (Some pd) st).
  destruct only_mutable.
  - destruct (quill st0) as [q|] eqn:Hq.
    + destruct (@updateQuill_live st0 q pd Hq eq_refl)
        as (st' & effs & ed' & E & _ & _ & Henv).
      rewrite E. simpl. now rewrite (same_env_properties Henv).
    + now rewrite (updateQuill_null _ Hq).
  - destruct (@initQuill_runs st0 pd eq_refl) as (st' & effs & ed' & E & _ & _ & Hp).
    now rewrite E.
Qed.

(** X16: onUpdate is idempotent.  Once properties are loaded, an update
    that is delivered a second time is ignored the second time: whatever
    the first delivery did (nothing, a refresh, a new editor, even a
    TypeError for want of an editor), it left stored what the second one
    compares equal, as long as isEqual finds each value of the update
    equal to itself. *)
Theorem onUpdate_twice st old pd :
  properties st = Some old ->
  (forall k, In k (keys pd) -> isEqual (lookup k pd) (lookup k pd) = true) ->
  onUpdate pd (snd (fst (onUpdate pd st)))
  = (Return tt, snd (fst (onUpdate pd st)), []).
Proof.
  intros Hp Hrefl.
  assert (Hp1 : properties (snd (fst (onUpdate pd st))) = Some old /\
                onUpdate pd st = (Return tt, st, []) \/
                properties (snd (fst (onUpdate pd st))) = Some pd).
  { rewrite onUpdate_unfold with (old := old) by exact Hp.
    destruct (List.length (diffKeys old pd) =? 0)%nat; [left; now split|].
    right.
    destruct (forallb _ (diffKeys old pd));
      [apply (refresh_keeps_properties st pd true)
      | apply (refresh_keeps_properties st pd false)]. }
  destruct Hp1 as [[_ E] | Hp1].
  - now rewrite E.
  - rewrite onUpdate_unfold with (old := pd) (st := snd (fst (onUpdate pd st)))
      by exact Hp1.
    assert (Hsame : diffKeys pd pd = []).
    { apply diffKeys_nil. intros k Hk.
      rewrite equal_at_own by (left; now apply has_own_keys). now apply Hrefl. }
    now rewrite Hsame.
Qed.

(** X17: what the assignment in validate is for.  When the stored
    content is a document, validate leaves the document of the editor in
    the stored properties, so that an update that brings this very
    document back as content is ignored (isEqual finding it equal to
    itself): the host can echo a validated document without the editor
    being refreshed. *)
Theorem validate_prevents_echo st q p ops0 :
  quill st = Some q -> properties st = Some p ->
  lookup "content" p = delta ops0 ->
  isEqual (delta (q_getContents (ed q))) (delta (q_getContents (ed q))) = true ->
  properties (snd (fst (validate st)))
  = Some (assign "content" (delta (q_getContents (ed q))) p) /\
  onUpdate [("content", delta (q_getContents (ed q)))] (snd (fst (validate st)))
  = (Return tt, snd (fst (validate st)), []).
Proof.
  intros Hq Hp Hc Hrefl.
  assert (Ho : is_object (lookup "content" p) = true) by now rewrite Hc.
  destruct (validate_structured st Hq Hp Ho) as (content & Hset & E).
  rewrite Hc in Hset. simpl in Hset. injection Hset as <-.
  rewrite E. cbn [fst snd properties with_properties].
  split; [reflexivity|].
  rewrite onUpdate_unfold
    with (old := assign "content" (VObj [("ops", arr (q_getContents (ed q)))]) p)
    by reflexivity.
  assert (Hd : diffKeys
                 (assign "content" (VObj [("ops", arr (q_getContents (ed q)))]) p)
                 [("content", delta (q_getContents (ed q)))] = []).
  { apply diffKeys_nil. intros k [<- | []].
    rewrite equal_at_own, lookup_assign; [exact Hrefl|].
    left. apply has_own_keys. clear.
    induction p as [|[k' x] p IH]; simpl; [now left|].
    destruct (k' =? "content")%string eqn:E; simpl; [|now right].
    left. symmetry. now apply String.eqb_eq. }
  now rewrite Hd.
Qed.

End Laws.

(** * The adapter at work

    The theorems above, applied to the reference editor. *)

Lemma updateText_routes_by_shape_witness :
  quill (Ref.loaded Ref.as_document) = Some Ref.shown /\
  truthy (VStr "<i>x</i>") = true /\
  content_calls (snd (updateText (VStr "<i>x</i>") (Ref.loaded Ref.as_document)))
    = [PasteHTML "<i>x</i>"].
Proof.
  assert (Hq : quill (Ref.loaded Ref.as_document) = Some Ref.shown)
    by reflexivity.
  assert (Ht : truthy (VStr "<i>x</i>") = true) by reflexivity.
  split; [exact Hq|]. split; [exact Ht|].
  destruct (updateText_routes_by_shape (Ref.loaded Ref.as_document)
              (VStr "<i>x</i>") Hq Ht) as (_ & Hhtml & _).
  apply Hhtml; reflexivity.
Defined.


Lemma listeners_before_init_witness :
  quill (@initial Ref.editor VUndefined Loading) = None /\
  listen "setText" [VObj [("text", VStr "hi")]] (initial VUndefined Loading)
    = (Return tt, initial VUndefined Loading, []) /\
  listen "validate" [] (@initial Ref.editor VUndefined Loading)
    = (Throw, initial VUndefined Loading, []).
Proof.
  assert (Hq : quill (@initial Ref.editor VUndefined Loading) = None)
    by reflexivity.
  split; [exact Hq|]. split.
  - apply (listeners_before_init (initial VUndefined Loading) "setText"
             [VObj [("text", VStr "hi")]] Hq).
    simpl. auto.
  - apply (listeners_before_init (initial VUndefined Loading) "setText" [] Hq).
Defined.

Lemma falsy_payload_is_dropped_witness :
  truthy (VStr "") = false /\
  listen "setText" [VObj [("text", VStr "")]] (Ref.loaded Ref.as_document)
    = (Return tt, Ref.loaded Ref.as_document, []) /\
  content_calls
    (snd (onUpdate [("content", VStr "")] (Ref.loaded Ref.as_document))) = [].
Proof.
  assert (Ht : truthy (VStr "") = false) by reflexivity.
  split; [exact Ht|].
  destruct (falsy_payload_is_dropped (Ref.loaded Ref.as_document) (VStr "") Ht)
    as (_ & Hset & _ & Hupd).
  split; [apply Hset | apply Hupd]; reflexivity.
Defined.

(** A payload that is present but is no document at all is not ignored:
    the number 42, sent through setContent, is handed to setContents,
    which replaces the text "hello" of the editor. *)
Lemma malformed_payload_reaches_editor :
  snd (listen "setContent" [VObj [("content", VNum 42)]]
              (Ref.loaded Ref.as_document))
    = [Enable false; SetContents (VNum 42); Callback TextChange; Enable true] /\
  option_map (fun q => q_getText (ed q)) (quill (Ref.loaded Ref.as_document))
    = Some "hello" /\
  option_map (fun q => q_getText (ed q))
    (quill (snd (fst (listen "setContent" [VObj [("content", VNum 42)]]
                             (Ref.loaded Ref.as_document)))))
    = Some "".
Proof. repeat split; vm_compute; reflexivity. Qed.

Lemma validate_flags_and_events_witness :
  quill (Ref.loaded Ref.as_document) = Some Ref.shown /\
  validated (validationState (snd (fst (validate (Ref.loaded Ref.as_document)))))
    = true /\
  fst (fst (validate (Ref.loaded Ref.as_document))) = Return tt.
Proof.
  assert (Hq : quill (Ref.loaded Ref.as_document) = Some Ref.shown)
    by reflexivity.
  split; [exact Hq|].
  destruct (validate_flags_and_events (Ref.loaded Ref.as_document) Hq)
    as (Hv & _ & Hsend).
  split; [exact Hv|].
  apply (Hsend Ref.as_document); reflexivity.
Defined.

(** C3: where validate falls short.  A call of validate that reports
    nothing: the component was loaded with the string "hello" as content,
    which updateQuill and updateText accept and show, and validate throws
    at properties.content.ops after it has set its flags, before either
    message is sent.  And setting the content to the empty string, by
    setText or by clearText, is dropped by the guard of updateText: the
    text "hello" stays in place, and validating afterwards finds the
    editor not empty. *)
Lemma validate_not_always_reporting :
  quill (Ref.loaded Ref.as_string) = Some Ref.shown /\
  fst (fst (validate (Ref.loaded Ref.as_string))) = Throw /\
  snd (validate (Ref.loaded Ref.as_string)) = [] /\
  isEmpty
    (validationState
       (fst (run [BridgeListen "setText" [VObj [("text", VStr "")]];
                  BridgeListen "validate" []]
                 (Ref.loaded Ref.as_document)))) = false /\
  isEmpty
    (validationState
       (fst (run [BridgeListen "clearText" []; BridgeListen "validate" []]
                 (Ref.loaded Ref.as_document)))) = false.
Proof. repeat split; vm_compute; reflexivity. Qed.

(** C1: an update whose only changed key is a name that every object
    inherits is taken for a live-mutable one.  The component holds the
    properties content, readOnly and toolbar; the update repeats them and
    adds the key toString.  The one changed key is toString, which is
    outside {content, readOnly}; yet mutableProperties.toString is the
    inherited function, which is truthy, and onUpdate runs updateQuill:
    no editor is created, the instance in place is refreshed and stays.
    An update that adds the key zoom instead creates a new editor. *)
Lemma onUpdate_inherited_key :
  properties (Ref.loaded Ref.with_toolbar) = Some Ref.with_toolbar /\
  option_map (@inst_id Ref.editor) (quill (Ref.loaded Ref.with_toolbar))
  = Some 0 /\
  diffKeys Ref.with_toolbar Ref.overridden = ["toString"] /\
  fst (fst (onUpdate Ref.overridden (Ref.loaded Ref.with_toolbar)))
  = Return tt /\
  snd (onUpdate Ref.overridden (Ref.loaded Ref.with_toolbar))
  = [Enable false; SetContents Ref.hello; Callback TextChange;
     Enable true; Enable true] /\
  new_editors (snd (onUpdate Ref.overridden (Ref.loaded Ref.with_toolbar)))
  = [] /\
  option_map (@inst_id Ref.editor)
    (quill (snd (fst (onUpdate Ref.overridden (Ref.loaded Ref.with_toolbar)))))
  = Some 0 /\
  diffKeys Ref.with_toolbar Ref.zoomed = ["zoom"] /\
  new_editors (snd (onUpdate Ref.zoomed (Ref.loaded Ref.with_toolbar)))
  = [NewQuill {| opt_toolbar := Some (arr []); opt_placeholder := None |}] /\
  option_map (@inst_id Ref.editor)
    (quill (snd (fst (onUpdate Ref.zoomed (Ref.loaded Ref.with_toolbar)))))
  = Some 1.
Proof. repeat split; vm_compute; reflexivity. Qed.

(** C7: where debounced validation falls short.  Over a string as
    content, three edits in a row, each less than 300 ms after the one
    before, send no validation; 300 ms after the last one the one pending
    timer runs out and calls validate, which sets its flags and throws:
    no validation event is sent.  And when the editor is re-initialised
    between two edits that are 250 ms apart, the timer of the editor that
    was replaced stays pending beside the new one: it runs out 50 ms
    after the second edit, inside the window, and sends a validation; the
    new one runs out 250 ms later and sends a second one. *)
Lemma debounced_validation_misses :
  debounce_wait Ref.debounced_string = 300 /\
  validations
    (snd (run Ref.burst_over_string (initial VUndefined Complete))) = 0 /\
  timeouts
    (snd (run Ref.burst_over_string (initial VUndefined Complete))) = 0 /\
  timers (fst (run Ref.burst_over_string (initial VUndefined Complete)))
  = [(1, 699)] /\
  now (fst (run Ref.burst_over_string (initial VUndefined Complete))) = 399 /\
  snd (step (TimePasses 300)
         (fst (run Ref.burst_over_string (initial VUndefined Complete))))
  = [Timeout 1] /\
  validationState
    (fst (step (TimePasses 300)
            (fst (run Ref.burst_over_string (initial VUndefined Complete)))))
  = {| validated := true; isEmpty := false |} /\
  debounce_wait Ref.restyled = 300 /\
  validations
    (snd (run Ref.burst_over_restyle (initial VUndefined Complete))) = 0 /\
  timers (fst (run Ref.burst_over_restyle (initial VUndefined Complete)))
  = [(3, 550); (1, 300)] /\
  now (fst (run Ref.burst_over_restyle (initial VUndefined Complete))) = 250 /\
  filter is_validated_send
    (snd (step (TimePasses 50)
            (fst (run Ref.burst_over_restyle (initial VUndefined Complete)))))
  = [Send (Named "onValidated")
       (arr [snapshot (Ref.holding "b")
               {| validated := true; isEmpty := false |}])] /\
  filter is_validated_send
    (snd (step (TimePasses 250)
            (fst (step (TimePasses 50)
                    (fst (run Ref.burst_over_restyle
                              (initial VUndefined Complete)))))))
  = [Send (Named "onValidated")
       (arr [snapshot (Ref.holding "b")
               {| validated := true; isEmpty := false |}])].
Proof. repeat split; vm_compute; reflexivity. Qed.

Lemma validate_assigns_ops_witness :
  quill (Ref.loaded Ref.as_document) = Some Ref.shown /\
  properties (Ref.loaded Ref.as_document) = Some Ref.as_document /\
  is_object (lookup "content" Ref.as_document) = true /\
  (exists s, lookup "content" Ref.as_string = VStr s) /\
  fst (fst (validate (Ref.loaded Ref.as_document))) = Return tt /\
  fst (fst (validate (Ref.loaded Ref.as_string))) = Throw.
Proof.
  assert (Hq : quill (Ref.loaded Ref.as_document) = Some Ref.shown)
    by reflexivity.
  assert (Hp : properties (Ref.loaded Ref.as_document) = Some Ref.as_document)
    by reflexivity.
  assert (Hc : is_object (lookup "content" Ref.as_document) = true)
    by reflexivity.
  assert (Hs : exists s, lookup "content" Ref.as_string = VStr s)
    by (exists "hello"; reflexivity).
  split; [exact Hq|]. split; [exact Hp|]. split; [exact Hc|].
  split; [exact Hs|]. split.
  - destruct (validate_assigns_ops (Ref.loaded Ref.as_document)) as [Hok _].
    destruct (Hok Ref.shown Ref.as_document Hq Hp Hc) as (st' & snap & E & _).
    now rewrite E.
  - destruct (validate_assigns_ops (Ref.loaded Ref.as_string)) as [_ Hko].
    apply Hko. right. exists Ref.as_string. split; [reflexivity|].
    right; right. exact Hs.
Defined.

Lemma onUpdate_reconciles_witness :
  properties (Ref.loaded Ref.with_toolbar) = Some Ref.with_toolbar /\
  onUpdate Ref.with_toolbar (Ref.loaded Ref.with_toolbar)
    = (Return tt, Ref.loaded Ref.with_toolbar, []) /\
  onUpdate [("content", VStr "bye")] (Ref.loaded Ref.with_toolbar)
    = updateQuill (with_properties (Some [("content", VStr "bye")])
                     (Ref.loaded Ref.with_toolbar)) /\
  onUpdate [("toolbar", VBool false)] (Ref.loaded Ref.with_toolbar)
    = initQuill (with_properties (Some [("toolbar", VBool false)])
                   (Ref.loaded Ref.with_toolbar)).
Proof.
  assert (Hp : properties (Ref.loaded Ref.with_toolbar) = Some Ref.with_toolbar)
    by reflexivity.
  destruct (onUpdate_reconciles (Ref.loaded Ref.with_toolbar)
              Ref.with_toolbar Hp) as (Hsame & _).
  destruct (onUpdate_reconciles (Ref.loaded Ref.with_toolbar)
              [("content", VStr "bye")] Hp) as (_ & Hlive & _).
  destruct (onUpdate_reconciles (Ref.loaded Ref.with_toolbar)
              [("toolbar", VBool false)] Hp) as (_ & _ & Hinit & _).
  split; [exact Hp|]. split; [|split].
  - apply Hsame. vm_compute. reflexivity.
  - apply Hlive.
    + vm_compute. discriminate.
    + vm_compute. constructor; [now left | constructor].
  - apply Hinit.
    + vm_compute. discriminate.
    + intros Hall.
      assert (Hin : In "toolbar"
                       (diffKeys Ref.with_toolbar [("toolbar", VBool false)]))
        by (vm_compute; now left).
      rewrite Forall_forall in Hall.
      destruct (Hall _ Hin) as [Hk|[Hk|Hk]]; discriminate.
Defined.

Lemma focus_notified_once_witness :
  quill (Ref.loaded Ref.as_document) = Some Ref.shown /\
  focus_notifications
    (snd (onSelectionChange
            (Some {| range_index := 0; range_length := 0 |}) None
            (Ref.loaded Ref.as_document))) = 1 /\
  is_blur (@TimePasses Ref.editor 5) = false /\
  shouldForceFocus
    (fst (step (TimePasses 5) (fst (step WindowBlur (Ref.loaded Ref.as_document)))))
    = true /\
  focus_notifications
    (snd (step (TimePasses 5) (fst (step WindowBlur (Ref.loaded Ref.as_document)))))
    = 0 /\
  Forall (fun e => is_blur e = false)
         [UserAction Ref.focus; @BridgeListen Ref.editor "focusText" []] /\
  focus_notifications
    (snd (run [UserAction Ref.focus; BridgeListen "focusText" []]
              (fst (run [BridgeLoad Ref.as_document; WindowBlur]
                        (initial VUndefined Complete)))))
    <= transitions
         (snd (run [UserAction Ref.focus; BridgeListen "focusText" []]
                   (fst (run [BridgeLoad Ref.as_document; WindowBlur]
                             (initial VUndefined Complete)))))
       + pending (fst (run [BridgeLoad Ref.as_document; WindowBlur]
                           (@initial Ref.editor VUndefined Complete))).
Proof.
  assert (Hq : quill (Ref.loaded Ref.as_document) = Some Ref.shown)
    by reflexivity.
  assert (Hb : is_blur (@TimePasses Ref.editor 5) = false) by reflexivity.
  assert (Hf : shouldForceFocus
                 (fst (step (TimePasses 5)
                         (fst (step WindowBlur (Ref.loaded Ref.as_document)))))
               = true) by reflexivity.
  assert (Hevs : Forall (fun e => is_blur e = false)
                   [UserAction Ref.focus; @BridgeListen Ref.editor "focusText" []])
    by (repeat constructor).
  destruct (@focus_notified_once Ref.editor _ _) as (H1 & _ & H3 & H4).
  split; [exact Hq|]. split; [|split; [exact Hb|split; [exact Hf|split; [|split]]]].
  - rewrite (H1 _ _ {| range_index := 0; range_length := 0 |} Hq). reflexivity.
  - apply (H3 (TimePasses 5) _ Hb Hf).
  - exact Hevs.
  - apply (H4 VUndefined Complete [BridgeLoad Ref.as_document; WindowBlur]
              _ Hevs).
Defined.

Lemma debounced_validation_once_witness :
  properties (with_properties (Some Ref.debounced)
                (@initial Ref.editor VUndefined Complete))
    = Some Ref.debounced /\
  truthy (lookup "debounce" Ref.debounced) = true /\
  is_object (lookup "content" Ref.debounced) = true /\
  debounce_wait Ref.debounced = 300 /\
  types (Ref.typing "a") /\
  Forall (fun ga => fst ga < 300 /\ types (snd ga))
         [(100, Ref.typing "ab"); (299, Ref.typing "abc")] /\
  validations
    (snd (run (UserAction (Ref.typing "a")
                 :: burst [(100, Ref.typing "ab"); (299, Ref.typing "abc")])
              (snd (fst (initQuill
                           (with_properties (Some Ref.debounced)
                              (initial VUndefined Complete))))))) = 0 /\
  validations
    (snd (step (TimePasses 300)
            (fst (run (UserAction (Ref.typing "a")
                         :: burst [(100, Ref.typing "ab");
                                   (299, Ref.typing "abc")])
                      (snd (fst (initQuill
                                   (with_properties (Some Ref.debounced)
                                      (initial VUndefined Complete))))))))) = 1.
Proof.
  assert (Hp : properties (with_properties (Some Ref.debounced)
                             (@initial Ref.editor VUndefined Complete))
               = Some Ref.debounced) by reflexivity.
  assert (Hd : truthy (lookup "debounce" Ref.debounced) = true) by reflexivity.
  assert (Hc : is_object (lookup "content" Ref.debounced) = true)
    by reflexivity.
  assert (Hty : forall s, types (Ref.typing s))
    by (intros s x; simpl; now left).
  assert (Hrest : Forall (fun ga => fst ga < 300 /\ types (snd ga))
                    [(100, Ref.typing "ab"); (299, Ref.typing "abc")]).
  { repeat constructor; simpl; try lia; apply Hty. }
  destruct (@debounced_validation_once Ref.editor _ _) as (Harm & Hburst).
  destruct (Harm _ _ Hp Hd eq_refl) as (_ & Ha & Hw).
  specialize (Hw eq_refl).
  split; [exact Hp|]. split; [exact Hd|]. split; [exact Hc|].
  split; [exact Hw|]. split; [apply Hty|]. split; [exact Hrest|].
  rewrite Hw in Ha.
  destruct (Hburst _ 300 _ _ (Ref.typing "a")
              [(100, Ref.typing "ab"); (299, Ref.typing "abc")] 300
              Ha (Hty "a") Hrest (Nat.le_refl 300))
    as (_ & Hquiet & _ & _ & Hone).
  split; [exact Hquiet | exact (Hone Hc)].
Defined.

(** ** The rest of the adapter at work *)

Lemma toolbar_follows_flags_witness :
  (forall flag, In flag toolbar_flags ->
     truthy (opt_member flag (Some [("toolbarHistory", VNum 1);
                                    ("toolbar", VBool true)]))
     = truthy (opt_member flag (Some [("toolbarHistory", VBool true)]))) /\
  getToolbarOptions (Some [("toolbarHistory", VNum 1); ("toolbar", VBool true)])
  = getToolbarOptions (Some [("toolbarHistory", VBool true)]) /\
  In (arr [VStr "undo"; VStr "redo"])
     (getToolbarOptions (Some [("toolbarHistory", VBool true)])).
Proof.
  assert (Hf : forall flag, In flag toolbar_flags ->
             truthy (opt_member flag (Some [("toolbarHistory", VNum 1);
                                            ("toolbar", VBool true)]))
             = truthy (opt_member flag (Some [("toolbarHistory", VBool true)]))).
  { intros flag Hin. simpl in Hin.
    repeat (destruct Hin as [<- | Hin]; [reflexivity|]). contradiction. }
  destruct (toolbar_follows_flags (Some [("toolbarHistory", VBool true)]))
    as (_ & Hsame & _ & Hundo).
  split; [exact Hf|]. split; [apply Hsame; exact Hf | apply Hundo; reflexivity].
Defined.

Lemma looks_like_html_spec_witness : looks_like_html "a <b or c> d" = true.
Proof.
  apply (proj2 (looks_like_html_spec "a <b or c> d")).
  exists "a ", "", "b"%char, " or c", " d".
  split; [reflexivity|]. split; [now left | reflexivity].
Defined.

Lemma validate_twice_witness :
  quill (Ref.loaded Ref.as_document) = Some Ref.shown /\
  properties (Ref.loaded Ref.as_document) = Some Ref.as_document /\
  is_object (lookup "content" Ref.as_document) = true /\
  validate (snd (fst (validate (Ref.loaded Ref.as_document))))
  = validate (Ref.loaded Ref.as_document).
Proof.
  assert (Hq : quill (Ref.loaded Ref.as_document) = Some Ref.shown)
    by reflexivity.
  assert (Hp : properties (Ref.loaded Ref.as_document) = Some Ref.as_document)
    by reflexivity.
  assert (Hc : is_object (lookup "content" Ref.as_document) = true)
    by reflexivity.
  split; [exact Hq|]. split; [exact Hp|]. split; [exact Hc|].
  destruct (validate_twice (Ref.loaded Ref.as_document) Hq Hp Hc) as [_ E].
  exact E.
Defined.

Lemma onUpdate_edges_witness :
  properties (@initial Ref.editor VUndefined Loading) = None /\
  onUpdate Ref.as_document (@initial Ref.editor VUndefined Loading)
  = (Throw, initial VUndefined Loading, []) /\
  properties (Ref.loaded Ref.with_toolbar) = Some Ref.with_toolbar /\
  onUpdate [("toolbar", VBool true)] (Ref.loaded Ref.with_toolbar)
  = (Return tt, Ref.loaded Ref.with_toolbar, []) /\
  fst (fst (onUpdate [("content", VStr "bye")]
              (with_properties (Some Ref.as_document)
                 (@initial Ref.editor VUndefined Loading)))) = Throw.
Proof.
  assert (Hn : properties (@initial Ref.editor VUndefined Loading) = None)
    by reflexivity.
  assert (Hp : properties (Ref.loaded Ref.with_toolbar) = Some Ref.with_toolbar)
    by reflexivity.
  destruct (onUpdate_edges (@initial Ref.editor VUndefined Loading)
              Ref.as_document) as (Hearly & _).
  destruct (onUpdate_edges (Ref.loaded Ref.with_toolbar)
              [("toolbar", VBool true)]) as (_ & _ & Hsame & _ & _).
  destruct (onUpdate_edges
              (with_properties (Some Ref.as_document)
                 (@initial Ref.editor VUndefined Loading))
              [("content", VStr "bye")]) as (_ & _ & _ & _ & Hthrow).
  split; [exact Hn|]. split; [|split; [exact Hp|split]].
  - apply Hearly; [exact Hn | discriminate].
  - apply (Hsame Ref.with_toolbar Hp).
    intros k [<- | []]. reflexivity.
  - rewrite (Hthrow Ref.as_document); [reflexivity | reflexivity | reflexivity | |].
    + vm_compute. discriminate.
    + vm_compute. constructor; [now left | constructor].
Defined.

Lemma initQuill_installs_witness :
  properties (@initial Ref.editor VUndefined Complete) = None /\
  fst (fst (initQuill (@initial Ref.editor VUndefined Complete))) = Throw /\
  is_some (quill (snd (fst (initQuill (@initial Ref.editor VUndefined Complete)))))
  = true.
Proof.
  assert (Hn : properties (@initial Ref.editor VUndefined Complete) = None)
    by reflexivity.
  destruct (initQuill_installs (@initial Ref.editor VUndefined Complete))
    as (_ & _ & _ & Hthrow).
  split; [exact Hn|]. rewrite (Hthrow Hn). split; reflexivity.
Defined.

Lemma onLoad_waits_for_the_page_witness :
  readyState (@initial Ref.editor VUndefined Loading) = Loading /\
  new_editors
    (snd (run (map (@BridgeLoad Ref.editor) [Ref.as_string]
                 ++ [BridgeLoad Ref.as_document; DomContentLoaded])
              (initial VUndefined Loading)))
  = [NewQuill (init_options (Some Ref.as_document))].
Proof.
  assert (Hr : readyState (@initial Ref.editor VUndefined Loading) = Loading)
    by reflexivity.
  split; [exact Hr|].
  destruct (onLoad_waits_for_the_page (@initial Ref.editor VUndefined Loading)
              [Ref.as_string] Ref.as_document) as [_ Hwait].
  destruct (Hwait Hr) as [_ Hone]. exact Hone.
Defined.

Lemma editing_keeps_the_editor_witness :
  is_editing (@BridgeListen Ref.editor "setText" [VObj [("text", VStr "hi")]])
  = true /\
  same_env (Ref.loaded Ref.as_document)
    (fst (step (BridgeListen "setText" [VObj [("text", VStr "hi")]])
               (Ref.loaded Ref.as_document))) /\
  exists ed',
    quill (fst (step (BridgeListen "setText" [VObj [("text", VStr "hi")]])
                     (Ref.loaded Ref.as_document)))
    = Some {| inst_id := inst_id Ref.shown; ed := ed';
              listeners := listeners Ref.shown |}.
Proof.
  assert (He : is_editing
                 (@BridgeListen Ref.editor "setText" [VObj [("text", VStr "hi")]])
               = true) by reflexivity.
  destruct (editing_keeps_the_editor
              (BridgeListen "setText" [VObj [("text", VStr "hi")]])
              (Ref.loaded Ref.as_document) He) as (Henv & _ & Hlive).
  split; [exact He|]. split; [exact Henv|].
  apply Hlive. reflexivity.
Defined.

Lemma focusText_clears_pending_witness :
  quill (fst (step WindowBlur (Ref.loaded Ref.as_document))) = Some Ref.shown /\
  exists st' effs,
    listen "focusText" [] (fst (step WindowBlur (Ref.loaded Ref.as_document)))
    = (Return tt, st', effs) /\
    calls effs = [Focus] /\
    shouldForceFocus st' = false.
Proof.
  assert (Hq : quill (fst (step WindowBlur (Ref.loaded Ref.as_document)))
               = Some Ref.shown) by reflexivity.
  split; [exact Hq|].
  destruct (@focusText_clears_pending _ _ _
              (fst (step WindowBlur (Ref.loaded Ref.as_document)))
              Ref.shown [] Hq)
    as (st' & effs & E & Hc & Hf & _).
  exists st', effs. split; [exact E|]. split; [exact Hc | exact Hf].
Defined.

Lemma pending_blur_is_notified_witness :
  shouldForceFocus (fst (step WindowBlur (Ref.loaded Ref.as_document))) = true /\
  shouldForceFocus
    (fst (run [BridgeListen "focusText" []]
              (fst (step WindowBlur (Ref.loaded Ref.as_document))))) = false /\
  1 <= focus_notifications
         (snd (run [BridgeListen "focusText" []]
                   (fst (step WindowBlur (Ref.loaded Ref.as_document))))).
Proof.
  assert (Hs : shouldForceFocus
                 (fst (step WindowBlur (Ref.loaded Ref.as_document))) = true)
    by reflexivity.
  assert (He : shouldForceFocus
                 (fst (run [BridgeListen "focusText" []]
                           (fst (step WindowBlur (Ref.loaded Ref.as_document)))))
               = false) by reflexivity.
  split; [exact Hs|]. split; [exact He|].
  exact (pending_blur_is_notified [BridgeListen "focusText" []] _ Hs He).
Defined.

Lemma editor_is_never_lost_witness :
  is_some (quill (Ref.loaded Ref.as_document)) = true /\
  is_some
    (quill (fst (run [BridgeUpdate [("toolbar", VBool true)];
                      BridgeListen "validate" []]
                     (Ref.loaded Ref.as_document)))) = true.
Proof.
  assert (Hq : is_some (quill (Ref.loaded Ref.as_document)) = true)
    by reflexivity.
  split; [exact Hq|].
  destruct (editor_is_never_lost
              [BridgeUpdate [("toolbar", VBool true)];
               BridgeListen "validate" []]
              (Ref.loaded Ref.as_document)) as [Hkeep _].
  exact (Hkeep Hq).
Defined.

Lemma validation_flags_persist_witness :
  is_validation (@BridgeUpdate Ref.editor [("toolbar", VBool true)]) = false /\
  validationState
    (fst (step (BridgeUpdate [("toolbar", VBool true)])
               (snd (fst (validate (Ref.loaded Ref.as_document))))))
  = {| validated := true; isEmpty := false |}.
Proof.
  assert (He : is_validation (@BridgeUpdate Ref.editor [("toolbar", VBool true)])
               = false) by reflexivity.
  split; [exact He|].
  destruct (@validation_flags_persist Ref.editor _ _) as [Hkeep _].
  rewrite (Hkeep _ (snd (fst (validate (Ref.loaded Ref.as_document)))) He).
  reflexivity.
Defined.

Lemma studio_echoes_text_changes_witness :
  quill (fst (run [BridgeLoad Ref.as_document] (initial (VObj []) Complete)))
  = Some {| inst_id := 0; ed := Ref.holding "hello";
            listeners := [(text_change, StudioTextChange);
                          (selection_change, FocusOnSelection)] |} /\
  echoes
    (snd (step (UserAction (Ref.typing "a"))
               (fst (run [BridgeLoad Ref.as_document]
                         (initial (VObj []) Complete)))))
  = [studio_echo (Ref.holding "a") {| validated := false; isEmpty := false |}].
Proof.
  assert (Hq : quill (fst (run [BridgeLoad Ref.as_document]
                               (initial (VObj []) Complete)))
               = Some {| inst_id := 0; ed := Ref.holding "hello";
                         listeners := [(text_change, StudioTextChange);
                                       (selection_change, FocusOnSelection)] |})
    by reflexivity.
  split; [exact Hq|].
  rewrite (studio_echoes_text_changes (VObj []) Complete
             [BridgeLoad Ref.as_document] (Ref.typing "a") Hq).
  reflexivity.
Defined.

Lemma pending_validation_survives_witness :
  properties (fst (run [BridgeLoad Ref.debounced; UserAction (Ref.typing "a")]
                       (@initial Ref.editor VUndefined Complete)))
  = Some Ref.debounced /\
  In (1, 300)
     (timers (fst (run [BridgeLoad Ref.debounced; UserAction (Ref.typing "a")]
                       (@initial Ref.editor VUndefined Complete)))) /\
  snd (1, 300)
  <= now (snd (fst (initQuill
                      (fst (run [BridgeLoad Ref.debounced;
                                 UserAction (Ref.typing "a")]
                                (@initial Ref.editor VUndefined Complete))))))
     + 300 /\
  exists q',
    quill (snd (fst (initQuill
                       (fst (run [BridgeLoad Ref.debounced;
                                  UserAction (Ref.typing "a")]
                                 (@initial Ref.editor VUndefined Complete))))))
    = Some q' /\
    inst_id q'
    = fresh (fst (run [BridgeLoad Ref.debounced; UserAction (Ref.typing "a")]
                      (@initial Ref.editor VUndefined Complete))) /\
    In (Timeout (fst (1, 300)))
       (snd (step (TimePasses 300)
               (snd (fst (initQuill
                            (fst (run [BridgeLoad Ref.debounced;
                                       UserAction (Ref.typing "a")]
                                      (@initial Ref.editor VUndefined
                                         Complete)))))))) /\
    validationState
      (fst (step (TimePasses 300)
              (snd (fst (initQuill
                           (fst (run [BridgeLoad Ref.debounced;
                                      UserAction (Ref.typing "a")]
                                     (@initial Ref.editor VUndefined
                                        Complete))))))))
    = verdict q' /\
    (is_object (lookup "content" Ref.debounced) = true ->
     In (Send (Named "onValidated") (arr [snapshot (ed q') (verdict q')]))
        (snd (step (TimePasses 300)
                (snd (fst (initQuill
                             (fst (run [BridgeLoad Ref.debounced;
                                        UserAction (Ref.typing "a")]
                                       (@initial Ref.editor VUndefined
                                          Complete))))))))).
Proof.
  assert (Hp : properties
                 (fst (run [BridgeLoad Ref.debounced;
                            UserAction (Ref.typing "a")]
                           (@initial Ref.editor VUndefined Complete)))
               = Some Ref.debounced) by reflexivity.
  assert (Hin : In (1, 300)
                   (timers (fst (run [BridgeLoad Ref.debounced;
                                      UserAction (Ref.typing "a")]
                                     (@initial Ref.editor VUndefined Complete)))))
    by (vm_compute; now left).
  assert (Hdue : snd (1, 300)
                 <= now (snd (fst (initQuill
                                     (fst (run [BridgeLoad Ref.debounced;
                                                UserAction (Ref.typing "a")]
                                               (@initial Ref.editor VUndefined
                                                  Complete))))))
                    + 300)
    by (vm_compute; lia).
  split; [exact Hp|]. split; [exact Hin|]. split; [exact Hdue|].
  destruct (@pending_validation_survives Ref.editor _ _) as (_ & _ & _ & Hnew).
  exact (Hnew VUndefined Complete
           [BridgeLoad Ref.debounced; UserAction (Ref.typing "a")]
           Ref.debounced (1, 300) 300 Hp Hin Hdue).
Defined.

Lemma read_only_is_never_enabled_witness :
  read_only
    (fst (step (BridgeLoad [("content", Ref.hello); ("readOnly", VBool true)])
               (@initial Ref.editor VUndefined Complete))) = true /\
  ~ In (Enable true)
       (snd (step (BridgeLoad [("content", Ref.hello); ("readOnly", VBool true)])
                  (@initial Ref.editor VUndefined Complete))).
Proof.
  assert (Hr : read_only
                 (fst (step (BridgeLoad [("content", Ref.hello);
                                         ("readOnly", VBool true)])
                            (@initial Ref.editor VUndefined Complete))) = true)
    by reflexivity.
  split; [exact Hr|].
  exact (read_only_is_never_enabled
           (BridgeLoad [("content", Ref.hello); ("readOnly", VBool true)])
           (initial VUndefined Complete) Hr).
Defined.

Lemma onUpdate_twice_witness :
  properties (Ref.loaded Ref.as_document) = Some Ref.as_document /\
  (forall k, In k (keys [("toolbar", VBool true)]) ->
     isEqual (lookup k [("toolbar", VBool true)])
             (lookup k [("toolbar", VBool true)]) = true) /\
  onUpdate [("toolbar", VBool true)]
    (snd (fst (onUpdate [("toolbar", VBool true)] (Ref.loaded Ref.as_document))))
  = (Return tt,
     snd (fst (onUpdate [("toolbar", VBool true)] (Ref.loaded Ref.as_document))),
     []).
Proof.
  assert (Hp : properties (Ref.loaded Ref.as_document) = Some Ref.as_document)
    by reflexivity.
  assert (Hr : forall k, In k (keys [("toolbar", VBool true)]) ->
             isEqual (lookup k [("toolbar", VBool true)])
                     (lookup k [("toolbar", VBool true)]) = true).
  { intros k [<- | []]. reflexivity. }
  split; [exact Hp|]. split; [exact Hr|].
  exact (@onUpdate_twice _ _ _ (Ref.loaded Ref.as_document) Ref.as_document
           [("toolbar", VBool true)] Hp Hr).
Defined.

Lemma validate_prevents_echo_witness :
  quill (Ref.loaded Ref.as_document) = Some Ref.shown /\
  properties (Ref.loaded Ref.as_document) = Some Ref.as_document /\
  lookup "content" Ref.as_document = delta [Ref.insert "hello"] /\
  isEqual (delta (q_getContents (ed Ref.shown)))
          (delta (q_getContents (ed Ref.shown))) = true /\
  onUpdate [("content", delta (q_getContents (ed Ref.shown)))]
    (snd (fst (validate (Ref.loaded Ref.as_document))))
  = (Return tt, snd (fst (validate (Ref.loaded Ref.as_document))), []).
Proof.
  assert (Hq : quill (Ref.loaded Ref.as_document) = Some Ref.shown)
    by reflexivity.
  assert (Hp : properties (Ref.loaded Ref.as_document) = Some Ref.as_document)
    by reflexivity.
  assert (Hc : lookup "content" Ref.as_document = delta [Ref.insert "hello"])
    by reflexivity.
  assert (Hr : isEqual (delta (q_getContents (ed Ref.shown)))
                       (delta (q_getContents (ed Ref.shown))) = true)
    by reflexivity.
  split; [exact Hq|]. split; [exact Hp|]. split; [exact Hc|].
  split; [exact Hr|].
  destruct (@validate_prevents_echo _ _ _ (Ref.loaded Ref.as_document)
              Ref.shown Ref.as_document [Ref.insert "hello"] Hq Hp Hc Hr)
    as [_ E].
  exact E.
Defined.
